(** * DataVista: the data normalisation and aggregation engine

    A shallow embedding of the pure functions of the hooks [useFileParser]
    and [useDataAggregator] (under [src/hooks]) and of
    [src/components/ColumnMapper.jsx]:
    [detectColumnType], [parseDate], [getPeriodKey], [getPeriodLabel],
    [aggregateValues], [parseNumericValue], the [aggregatedData] memo of
    [useDataAggregator], and [evaluateFormula].

    Conventions of the embedding.
    - A JavaScript string is the list of its UTF-16 code units.
    - A JavaScript number is [NaN], a signed infinity, or an exact rational;
      rounding to binary64 and the sign of zero are not modelled.
    - A [Date] is its time value in milliseconds; the host time zone is UTC,
      so local calendar fields are read off the time value directly.
    - What the engine and date-fns provide and the repository only calls
      (Number::toString, String.prototype.toLowerCase, the [Function]
      constructor, [parseISO], [new Date(string)], [format]) is a field of
      the record [Host]; the theorems hold for every host. *)

From Stdlib Require Import String Ascii.
From Stdlib Require Import List ZArith NArith QArith Qround Qabs Lia Bool.
From Stdlib Require Import Permutation Sorted.
Import ListNotations.

Set Implicit Arguments.
Close Scope Q_scope.

(** ** Strings *)

Definition jsstring := list N.

(** The code units of an ASCII literal. *)
Definition js (s : string) : jsstring :=
  map N_of_ascii (list_ascii_of_string s).

Fixpoint str_eqb (a b : jsstring) : bool :=
  match a, b with
  | [], [] => true
  | x :: a', y :: b' => (x =? y)%N && str_eqb a' b'
  | _, _ => false
  end.

(** [\s] of a regular expression, and the characters [trim] and
    [parseFloat] strip: WhiteSpace and LineTerminator. *)
Definition isWhiteSpace (c : N) : bool :=
  (((9 <=? c) && (c <=? 13)) || (c =? 32) || (c =? 160) || (c =? 5760)
   || ((8192 <=? c) && (c <=? 8202)) || (c =? 8232) || (c =? 8233)
   || (c =? 8239) || (c =? 8287) || (c =? 12288) || (c =? 65279))%N.

(** [\d] *)
Definition isDigit (c : N) : bool := ((48 <=? c) && (c <=? 57))%N.

(** [[A-Za-z]] *)
Definition isLetter (c : N) : bool :=
  (((65 <=? c) && (c <=? 90)) || ((97 <=? c) && (c <=? 122)))%N.

Fixpoint dropWhile (p : N -> bool) (s : jsstring) : jsstring :=
  match s with
  | c :: s' => if p c then dropWhile p s' else s
  | [] => []
  end.

Fixpoint span (p : N -> bool) (s : jsstring) : jsstring * jsstring :=
  match s with
  | c :: s' => if p c then let (a, b) := span p s' in (c :: a, b) else ([], s)
  | [] => ([], [])
  end.

(** String.prototype.trim *)
Definition trim (s : jsstring) : jsstring :=
  rev (dropWhile isWhiteSpace (rev (dropWhile isWhiteSpace s))).

(** [s.includes(c)] for a one-character needle. *)
Definition includesChar (c : N) (s : jsstring) : bool :=
  existsb (N.eqb c) s.

Fixpoint startsWith (p s : jsstring) : bool :=
  match p, s with
  | [], _ => true
  | x :: p', y :: s' => (x =? y)%N && startsWith p' s'
  | _ :: _, [] => false
  end.

(** The decimal digits of a natural number, most significant first. *)
Fixpoint digitsFuel (fuel : nat) (n : N) (acc : jsstring) : jsstring :=
  match fuel with
  | O => acc
  | S fuel' =>
      let acc' := (48 + n mod 10)%N :: acc in
      if (n / 10 =? 0)%N then acc' else digitsFuel fuel' (n / 10)%N acc'
  end.

Definition natToString (n : N) : jsstring :=
  digitsFuel (S (N.to_nat (N.log2 n))) n [].

(** Number::toString on an integer. *)
Definition intToString (z : Z) : jsstring :=
  if (z <? 0)%Z then 45%N :: natToString (Z.to_N (- z))
  else natToString (Z.to_N z).

(** ** Numbers *)

Inductive number :=
| NaN
| Infinity (negative : bool)
| Finite (q : Q).

Definition isNaN (n : number) : bool :=
  match n with NaN => true | _ => false end.

Definition isFinite (n : number) : bool :=
  match n with Finite _ => true | _ => false end.

Definition ofZ (z : Z) : number := Finite (inject_Z z).

Definition zero : number := ofZ 0%Z.

Definition num_add (a b : number) : number :=
  match a, b with
  | NaN, _ | _, NaN => NaN
  | Infinity s, Infinity s' => if Bool.eqb s s' then Infinity s else NaN
  | Infinity s, Finite _ | Finite _, Infinity s => Infinity s
  | Finite x, Finite y => Finite (Qred (x + y)%Q)
  end.

Definition num_mul (a b : number) : number :=
  match a, b with
  | Finite x, Finite y => Finite (Qred (x * y)%Q)
  | NaN, _ | _, NaN => NaN
  | Infinity s, Finite y | Finite y, Infinity s =>
      if Qeq_bool y 0%Q then NaN
      else Infinity (if Qle_bool 0%Q y then s else negb s)
  | Infinity s, Infinity s' => Infinity (xorb s s')
  end.

(** [a / n] for a positive count [n]. *)
Definition num_div_count (a : number) (n : nat) : number :=
  match a with
  | Finite x => Finite (Qred (x / inject_Z (Z.of_nat n))%Q)
  | other => other
  end.

(** [a <= b] on numbers other than NaN. *)
Definition num_leb (a b : number) : bool :=
  match a, b with
  | NaN, _ | _, NaN => false
  | Infinity true, _ => true
  | _, Infinity false => true
  | Infinity false, _ => false
  | _, Infinity true => false
  | Finite x, Finite y => Qle_bool x y
  end.

Definition num_min (a b : number) : number :=
  match a, b with
  | NaN, _ | _, NaN => NaN
  | _, _ => if num_leb a b then a else b
  end.

Definition num_max (a b : number) : number :=
  match a, b with
  | NaN, _ | _, NaN => NaN
  | _, _ => if num_leb a b then b else a
  end.

(** *** parseFloat

    The longest prefix of the trimmed input that is a StrDecimalLiteral:
    an optional sign, then [Infinity] or decimal digits with an optional
    fraction and an optional exponent. *)

Definition digitsValue (ds : jsstring) : Z :=
  fold_left (fun acc c => (10 * acc + (Z.of_N c - 48))%Z) ds 0%Z.

(** The exponent part at the head of [s], when it is complete. *)
Definition parseExponent (s : jsstring) : Z :=
  match s with
  | c :: s1 =>
      if ((c =? 101) || (c =? 69))%N then
        let '(neg, s2) :=
          match s1 with
          | 43%N :: r => (false, r)
          | 45%N :: r => (true, r)
          | _ => (false, s1)
          end in
        let (ds, _) := span isDigit s2 in
        match ds with
        | [] => 0%Z
        | _ => if neg then (- digitsValue ds)%Z else digitsValue ds
        end
      else 0%Z
  | [] => 0%Z
  end.

Definition parseUnsigned (negative : bool) (s : jsstring) : number :=
  if startsWith (js "Infinity") s then Infinity negative
  else
    let (ip, r1) := span isDigit s in
    let (fp, r2) :=
      match r1 with
      | 46%N :: r => span isDigit r
      | _ => ([], r1)
      end in
    match ip ++ fp with
    | [] => NaN
    | ds =>
        let m := inject_Z (digitsValue ds) in
        let e := (parseExponent r2 - Z.of_nat (length fp))%Z in
        let v := Qred (m * Qpower (inject_Z 10) e)%Q in
        Finite (if negative then Qred (- v)%Q else v)
    end.

Definition parseFloatString (s : jsstring) : number :=
  match dropWhile isWhiteSpace s with
  | 43%N :: r => parseUnsigned false r
  | 45%N :: r => parseUnsigned true r
  | r => parseUnsigned false r
  end.

(** ** Values *)

(** What a cell of a row or a property of an object may hold.  A [Date]
    carries its time value, [None] for an Invalid Date. *)
Inductive jsvalue :=
| VUndefined
| VNull
| VBool (b : bool)
| VNum (n : number)
| VStr (s : jsstring)
| VDate (t : option Z).

(** The four format strings the aggregator passes to date-fns [format]. *)
Inductive DateFormat := F_yyyy_MM_dd | F_yyyy_MM | F_MMM_d_yyyy | F_MMM_yyyy.

(** The engine and library functions the repository calls.  A date result
    of [None] is an Invalid Date; [evalArithmetic e] is the value of
    [Function(`"use strict"; return (${e})`)()], [None] when the call
    throws or its value is not a number. *)
Record Host := {
  numberToString : number -> jsstring;
  dateToString : option Z -> jsstring;
  toLowerCase : jsstring -> jsstring;
  evalArithmetic : jsstring -> option number;
  parseISO : jsstring -> option Z;
  dateFromString : jsstring -> option Z;
  format : DateFormat -> Z -> jsstring
}.

(** ToString *)
Definition toStringValue (H : Host) (v : jsvalue) : jsstring :=
  match v with
  | VUndefined => js "undefined"
  | VNull => js "null"
  | VBool true => js "true"
  | VBool false => js "false"
  | VNum n => numberToString H n
  | VStr s => s
  | VDate t => dateToString H t
  end.

(** [parseFloat(v)] *)
Definition parseFloat (H : Host) (v : jsvalue) : number :=
  parseFloatString (toStringValue H v).

(** [!v] *)
Definition isFalsy (v : jsvalue) : bool :=
  match v with
  | VUndefined | VNull => true
  | VBool b => negb b
  | VNum NaN => true
  | VNum (Infinity _) => false
  | VNum (Finite q) => Qeq_bool q 0%Q
  | VStr [] => true
  | VStr (_ :: _) => false
  | VDate _ => false
  end.

(** ** Objects

    An object is the list of its own properties in the order of
    [Object.keys]; a property that is absent reads as [undefined], which
    [parseDate] and [parseNumericValue] treat as they treat what a plain
    object inherits.  Property names are ordinary names: the accessor
    [__proto__] is not modelled. *)
Definition object := list (jsstring * jsvalue).

Fixpoint getProp (o : object) (k : jsstring) : jsvalue :=
  match o with
  | (k', v) :: o' => if str_eqb k' k then v else getProp o' k
  | [] => VUndefined
  end.

Definition hasOwnProperty (o : object) (k : jsstring) : bool :=
  existsb (fun kv => str_eqb (fst kv) k) o.

Fixpoint setProp (o : object) (k : jsstring) (v : jsvalue) : object :=
  match o with
  | (k', v') :: o' =>
      if str_eqb k' k then (k', v) :: o' else (k', v') :: setProp o' k v
  | [] => [(k, v)]
  end.

(** ** parseNumericValue *)

(** [value.replace(/[$,€£%]/g, '')] *)
Definition isStrippedSymbol (c : N) : bool :=
  ((c =? 36) || (c =? 44) || (c =? 8364) || (c =? 163) || (c =? 37))%N.

Definition removeSymbols (s : jsstring) : jsstring :=
  filter (fun c => negb (isStrippedSymbol c)) s.

Definition parseNumericValue (value : jsvalue) : option number :=
  match value with
  | VNum n => if negb (isNaN n) then Some n else None
  | VStr s =>
      let cleaned := trim (removeSymbols s) in
      let parsed := parseFloatString cleaned in
      if isNaN parsed then None else Some parsed
  | _ => None
  end.

(** ** Regular expressions

    The patterns of the repository are sequences of bounded repetitions of
    one character class, anchored at the start of the input and some also
    at its end. *)

Record atom := {
  a_class : N -> bool;
  a_min : nat;
  a_max : option nat
}.

Definition decr (hi : option nat) : option nat :=
  match hi with Some n => Some (pred n) | None => None end.

Definition exhausted (hi : option nat) : bool :=
  match hi with Some O => true | _ => false end.

(** [rep p lo hi k s]: some prefix of [s] of [lo] to [hi] characters of
    class [p] is followed by a suffix that [k] accepts. *)
Fixpoint rep (p : N -> bool) (lo : nat) (hi : option nat)
    (k : jsstring -> bool) (s : jsstring) : bool :=
  (match lo with O => k s | S _ => false end)
  || match s with
     | c :: s' =>
         if p c && negb (exhausted hi) then rep p (pred lo) (decr hi) k s'
         else false
     | [] => false
     end.

Definition isEmpty (s : jsstring) : bool :=
  match s with [] => true | _ :: _ => false end.

Fixpoint matchAtoms (atoms : list atom) (anchoredEnd : bool)
    : jsstring -> bool :=
  match atoms with
  | [] => fun s => if anchoredEnd then isEmpty s else true
  | a :: rest => rep (a_class a) (a_min a) (a_max a) (matchAtoms rest anchoredEnd)
  end.

Record regex := { r_atoms : list atom; r_anchoredEnd : bool }.

(** [pattern.test(s)] *)
Definition regexTest (r : regex) (s : jsstring) : bool :=
  matchAtoms (r_atoms r) (r_anchoredEnd r) s.

Definition digits (lo hi : nat) : atom :=
  {| a_class := isDigit; a_min := lo; a_max := Some hi |}.

Definition lit (c : N) : atom :=
  {| a_class := N.eqb c; a_min := 1; a_max := Some 1 |}.

Definition optional (c : N) : atom :=
  {| a_class := N.eqb c; a_min := 0; a_max := Some 1 |}.

Definition oneOrMore (p : N -> bool) : atom :=
  {| a_class := p; a_min := 1; a_max := None |}.

(** ** Calendar

    Days are counted from 1970-01-01; the conversions are those of the
    proleptic Gregorian calendar that [Date] uses. *)

Local Open Scope Z_scope.

Definition msPerDay : Z := 24 * 60 * 60 * 1000.

Definition dayOf (t : Z) : Z := t / msPerDay.

(** Year, month (1 to 12) and day of the month of a day number. *)
Definition civil (z : Z) : Z * Z * Z :=
  let z := z + 719468 in
  let era := z / 146097 in
  let doe := z mod 146097 in
  let yoe := (doe - doe / 1460 + doe / 36524 - doe / 146096) / 365 in
  let doy := doe - (365 * yoe + yoe / 4 - yoe / 100) in
  let mp := (5 * doy + 2) / 153 in
  let d := doy - (153 * mp + 2) / 5 + 1 in
  let m := if mp <? 10 then mp + 3 else mp - 9 in
  let y := yoe + era * 400 + (if m <=? 2 then 1 else 0) in
  (y, m, d).

(** MakeDay: the day number of a year, month (1 to 12) and day. *)
Definition daysFromCivil (y m d : Z) : Z :=
  let y' := if m <=? 2 then y - 1 else y in
  let era := y' / 400 in
  let yoe := y' mod 400 in
  let mp := if 2 <? m then m - 3 else m + 9 in
  let doy := (153 * mp + 2) / 5 + d - 1 in
  let doe := yoe * 365 + yoe / 4 - yoe / 100 + doy in
  era * 146097 + doe - 719468.

(** [date.getFullYear()], which date-fns [getYear] returns. *)
Definition getYear (t : Z) : Z := fst (fst (civil (dayOf t))).

(** [date.getMonth()], from 0. *)
Definition getMonth (t : Z) : Z := snd (fst (civil (dayOf t))) - 1.

(** [date.getDate()] *)
Definition getDate (t : Z) : Z := snd (civil (dayOf t)).

(** date-fns [getQuarter]: [Math.trunc(date.getMonth() / 3) + 1] *)
Definition getQuarter (t : Z) : Z := getMonth t / 3 + 1.

(** date-fns [startOfDay]: [setHours(0, 0, 0, 0)] *)
Definition startOfDay (t : Z) : Z := dayOf t * msPerDay.

(** date-fns [startOfMonth]: [setDate(1)], [setHours(0, 0, 0, 0)] *)
Definition startOfMonth (t : Z) : Z :=
  daysFromCivil (getYear t) (getMonth t + 1) 1 * msPerDay.

(** date-fns [startOfQuarter]: [setMonth(month - month % 3, 1)],
    [setHours(0, 0, 0, 0)] *)
Definition startOfQuarter (t : Z) : Z :=
  let currentMonth := getMonth t in
  let month := currentMonth - currentMonth mod 3 in
  daysFromCivil (getYear t) (month + 1) 1 * msPerDay.

(** [new Date(n)]: TimeClip. *)
Definition newDate (n : number) : option Z :=
  match n with
  | Finite q =>
      if Qle_bool (Qabs q) (inject_Z 8640000000000000) then
        Some (if Qle_bool 0%Q q then Qfloor q else Qceiling q)
      else None
  | _ => None
  end.

(** ** parseDate *)

(** [new Date(1899, 11, 30).getTime()] in the zone UTC; [excelEpochIn]
    below is the same in any zone. *)
Definition excelEpoch : Z := daysFromCivil 1899 12 30 * msPerDay.

Definition slash : N := 47%N.
Definition dash : N := 45%N.

(** The [formats] of [parseDate]. *)
Definition formats : list regex :=
  [ {| r_atoms := [digits 1 2; lit slash; digits 1 2; lit slash; digits 4 4];
       r_anchoredEnd := true |};
    {| r_atoms := [digits 4 4; lit dash; digits 1 2; lit dash; digits 1 2];
       r_anchoredEnd := true |};
    {| r_atoms := [digits 1 2; lit dash; digits 1 2; lit dash; digits 4 4];
       r_anchoredEnd := true |} ].

(** The loop over [formats]: the first pattern that matches and whose
    [new Date(value)] is valid returns. *)
Fixpoint tryFormats (H : Host) (value : jsstring) (fs : list regex)
    : option Z :=
  match fs with
  | [] => None
  | r :: fs' =>
      if regexTest r value then
        match dateFromString H value with
        | Some date => Some date
        | None => tryFormats H value fs'
        end
      else tryFormats H value fs'
  end.

Definition parseDate (H : Host) (value : jsvalue) : option Z :=
  if isFalsy value then None
  else
    match value with
    | VDate t => t
    | VNum n =>
        newDate (num_add (ofZ excelEpoch) (num_mul n (ofZ msPerDay)))
    | VStr s =>
        match parseISO H s with
        | Some date => Some date
        | None =>
            match tryFormats H s formats with
            | Some date => Some date
            | None => dateFromString H s
            end
        end
    | _ => None
    end.

(** ** Period keys and labels *)

Inductive Granularity := DAILY | MONTHLY | QUARTERLY | OtherGranularity.

Definition getPeriodKey (H : Host) (date : Z) (granularity : Granularity)
    : jsstring :=
  match granularity with
  | DAILY => format H F_yyyy_MM_dd (startOfDay date)
  | MONTHLY => format H F_yyyy_MM (startOfMonth date)
  | QUARTERLY =>
      let year := getYear date in
      let quarter := getQuarter date in
      intToString year ++ js "-Q" ++ intToString quarter
  | OtherGranularity => format H F_yyyy_MM_dd (startOfDay date)
  end.

(** [s.replace('-', ' ')]: the first occurrence only. *)
Fixpoint replaceFirstDash (s : jsstring) : jsstring :=
  match s with
  | c :: s' => if (c =? dash)%N then 32%N :: s' else c :: replaceFirstDash s'
  | [] => []
  end.

(** [format] throws on an Invalid Date, which the [catch] turns into the
    key itself. *)
Definition getPeriodLabel (H : Host) (periodKey : jsstring)
    (granularity : Granularity) : jsstring :=
  match granularity with
  | DAILY =>
      match parseISO H periodKey with
      | Some d => format H F_MMM_d_yyyy d
      | None => periodKey
      end
  | MONTHLY =>
      match parseISO H (periodKey ++ js "-01") with
      | Some d => format H F_MMM_yyyy d
      | None => periodKey
      end
  | QUARTERLY => replaceFirstDash periodKey
  | OtherGranularity => periodKey
  end.

(** ** aggregateValues *)

Inductive AggregationType := SUM | AVERAGE | COUNT | MIN | MAX | OtherAggregation.

(** [values.filter(v => typeof v === 'number' && !isNaN(v))] *)
Definition validNumber (v : jsvalue) : list number :=
  match v with
  | VNum n => if isNaN n then [] else [n]
  | _ => []
  end.

Definition validValues (values : list jsvalue) : list number :=
  flat_map validNumber values.

Definition sumOf (vs : list number) : number := fold_left num_add vs zero.

(** [Math.min(...validValues)] and [Math.max(...validValues)] are folds
    here; the RangeError they throw on more values than the engine takes
    arguments is in [Spread.aggregateValues] below. *)
Definition aggregateValues (values : list jsvalue)
    (aggregationType : AggregationType) : number :=
  match values with
  | [] => zero
  | _ :: _ =>
      let valid := validValues values in
      match valid with
      | [] => zero
      | _ :: _ =>
          match aggregationType with
          | SUM => sumOf valid
          | AVERAGE => num_div_count (sumOf valid) (length valid)
          | COUNT => ofZ (Z.of_nat (length valid))
          | MIN => fold_left num_min valid (Infinity false)
          | MAX => fold_left num_max valid (Infinity true)
          | OtherAggregation => sumOf valid
          end
      end
  end.

(** ** useDataAggregator: the [aggregatedData] memo *)

(** A metric descriptor; only [field] and [aggregationType] are read. *)
Record Metric := {
  field : jsstring;
  aggregationType : AggregationType
}.

(** The mapping the callers build for the aggregator: field to column
    name. *)
Definition ColumnMapping := list (jsstring * jsstring).

Fixpoint lookupColumn (m : ColumnMapping) (k : jsstring) : option jsstring :=
  match m with
  | (k', c) :: m' => if str_eqb k' k then Some c else lookupColumn m' k
  | [] => None
  end.

(** [columnMapping[k]] when it is truthy.  The entries are the mapping's
    own: for a [k] that names a member of [Object.prototype] and that the
    mapping has no entry for, [columnMapping[k]] is that member, a case
    the statements on the column of a metric leave out by hypothesis. *)
Definition mappedColumn (m : ColumnMapping) (k : jsstring) : option jsstring :=
  match lookupColumn m k with
  | Some (c :: s) => Some (c :: s)
  | _ => None
  end.

(** A value of the [groupedData] map. *)
Record Period := {
  p_periodKey : jsstring;
  p_date : Z;
  p_rows : list object
}.

(** [if (!groupedData.has(k)) groupedData.set(k, {...});
    groupedData.get(k).rows.push(row)], on the map in insertion order. *)
Fixpoint pushRow (groups : list Period) (k : jsstring) (d : Z) (row : object)
    : list Period :=
  match groups with
  | [] => [ {| p_periodKey := k; p_date := d; p_rows := [row] |} ]
  | p :: rest =>
      if str_eqb (p_periodKey p) k then
        {| p_periodKey := p_periodKey p; p_date := p_date p;
           p_rows := p_rows p ++ [row] |} :: rest
      else p :: pushRow rest k d row
  end.

Definition groupStep (H : Host) (dateColumn : jsstring)
    (granularity : Granularity) (groups : list Period) (row : object)
    : list Period :=
  match parseDate H (getProp row dateColumn) with
  | None => groups
  | Some parsedDate =>
      pushRow groups (getPeriodKey H parsedDate granularity) parsedDate row
  end.

Definition groupRows (H : Host) (dateColumn : jsstring)
    (granularity : Granularity) (rawData : list object) : list Period :=
  fold_left (groupStep H dateColumn granularity) rawData [].

(** [periods.sort((a, b) => a.date.getTime() - b.date.getTime())]: the
    sort is stable. *)
Fixpoint insertPeriod (x : Period) (l : list Period) : list Period :=
  match l with
  | [] => [x]
  | y :: l' =>
      if p_date x <=? p_date y then x :: l else y :: insertPeriod x l'
  end.

Fixpoint sortPeriods (l : list Period) : list Period :=
  match l with
  | [] => []
  | x :: l' => insertPeriod x (sortPeriods l')
  end.

Definition keepSome {A : Type} (l : list (option A)) : list A :=
  flat_map (fun o => match o with Some a => [a] | None => [] end) l.

(** The values of one metric over the rows of a period. *)
Definition metricValues (columnMapping : ColumnMapping) (rows : list object)
    (metric : Metric) : list jsvalue :=
  let columnName :=
    match mappedColumn columnMapping (field metric) with
    | Some c => c
    | None => field metric
    end in
  map VNum (keepSome (map (fun row => parseNumericValue (getProp row columnName)) rows)).

Definition aggregateMetric (columnMapping : ColumnMapping)
    (rows : list object) (aggregatedRow : object) (metric : Metric) : object :=
  setProp aggregatedRow (field metric)
    (VNum (aggregateValues (metricValues columnMapping rows metric)
             (aggregationType metric))).

Definition aggregatePeriod (H : Host) (columnMapping : ColumnMapping)
    (granularity : Granularity) (metrics : list Metric) (period : Period)
    : object :=
  let aggregatedRow :=
    [ (js "periodKey", VStr (p_periodKey period));
      (js "label", VStr (getPeriodLabel H (p_periodKey period) granularity));
      (js "date", VDate (Some (p_date period)));
      (js "rowCount", VNum (ofZ (Z.of_nat (length (p_rows period))))) ] in
  fold_left (aggregateMetric columnMapping (p_rows period)) metrics aggregatedRow.

Definition aggregatedData (H : Host) (rawData : list object)
    (columnMapping : ColumnMapping) (granularity : Granularity)
    (metrics : list Metric) : list object :=
  match rawData, mappedColumn columnMapping (js "date") with
  | [], _ | _, None => []
  | _ :: _, Some dateColumn =>
      let groupedData := groupRows H dateColumn granularity rawData in
      let sortedPeriods := sortPeriods groupedData in
      map (aggregatePeriod H columnMapping granularity metrics) sortedPeriods
  end.

(** ** detectColumnType *)

Inductive ColumnType := TDate | TNumber | TPercentage | TCurrency | TText.

(** [[$€£¥]] *)
Definition isCurrencyGlyph (c : N) : bool :=
  ((c =? 36) || (c =? 8364) || (c =? 163) || (c =? 165))%N.

(** [/^[$€£¥]/.test(s) || /[$€£¥]$/.test(s)] *)
Definition hasCurrencyGlyph (s : jsstring) : bool :=
  match s with
  | [] => false
  | c :: _ => isCurrencyGlyph c || isCurrencyGlyph (last s c)
  end.

Definition comma : N := 44%N.

(** The [datePatterns] of [detectColumnType]. *)
Definition datePatterns : list regex :=
  [ {| r_atoms := [digits 4 4; lit dash; digits 1 2; lit dash; digits 1 2];
       r_anchoredEnd := false |};
    {| r_atoms := [digits 1 2; lit slash; digits 1 2; lit slash; digits 2 4];
       r_anchoredEnd := false |};
    {| r_atoms := [digits 1 2; lit dash; digits 1 2; lit dash; digits 2 4];
       r_anchoredEnd := false |};
    {| r_atoms := [ {| a_class := isLetter; a_min := 3; a_max := Some 3%nat |};
                    oneOrMore isWhiteSpace; digits 1 2; optional comma;
                    oneOrMore isWhiteSpace; digits 4 4];
       r_anchoredEnd := false |} ].

Definition inClosedUnit (v : jsvalue) : bool :=
  match v with
  | VNum (Finite q) => Qle_bool 0%Q q && Qle_bool q 1%Q
  | _ => false
  end.

(** [typeof value === 'number' && value > 30000 && value < 50000] *)
Definition inSerialRange (v : jsvalue) : bool :=
  match v with
  | VNum (Finite q) =>
      negb (Qle_bool q (inject_Z 30000)) && negb (Qle_bool (inject_Z 50000) q)
  | _ => false
  end.

(** The category one sampled value counts for, [None] when the loop body
    reaches its end without a [continue]. *)
Definition classify (H : Host) (value : jsvalue) : option ColumnType :=
  let strValue := trim (toStringValue H value) in
  if includesChar 37%N strValue || inClosedUnit value then Some TPercentage
  else if hasCurrencyGlyph strValue then Some TCurrency
  else if inSerialRange value then Some TDate
  else if existsb (fun pattern => regexTest pattern strValue) datePatterns
  then Some TDate
  else
    let numValue := parseFloatString (removeSymbols strValue) in
    if negb (isNaN numValue) then Some TNumber else None.

Record Counts := {
  dateCount : nat;
  numberCount : nat;
  percentCount : nat;
  currencyCount : nat
}.

Definition countStep (H : Host) (c : Counts) (value : jsvalue) : Counts :=
  match classify H value with
  | Some TPercentage =>
      {| dateCount := dateCount c; numberCount := numberCount c;
         percentCount := S (percentCount c); currencyCount := currencyCount c |}
  | Some TCurrency =>
      {| dateCount := dateCount c; numberCount := numberCount c;
         percentCount := percentCount c; currencyCount := S (currencyCount c) |}
  | Some TDate =>
      {| dateCount := S (dateCount c); numberCount := numberCount c;
         percentCount := percentCount c; currencyCount := currencyCount c |}
  | Some TNumber =>
      {| dateCount := dateCount c; numberCount := S (numberCount c);
         percentCount := percentCount c; currencyCount := currencyCount c |}
  | _ => c
  end.

(** [v !== null && v !== undefined && v !== ''] *)
Definition nonEmpty (v : jsvalue) : bool :=
  match v with
  | VNull | VUndefined | VStr [] => false
  | _ => true
  end.

(** [values.slice(0, Math.min(values.length, 20)).filter(...)] *)
Definition sample (values : list jsvalue) : list jsvalue :=
  filter nonEmpty (firstn 20 values).

(** [count / total >= 0.6].  The quotient of two integers up to 20 is
    either the binary64 value of 0.6 or differs from it by at least 0.01,
    so the comparison of the rounded values is that of the exact ones. *)
Definition reaches (count total : nat) : bool :=
  Qle_bool (6 # 10) (inject_Z (Z.of_nat count) / inject_Z (Z.of_nat total))%Q.

Definition detectColumnType (H : Host) (values : list jsvalue) : ColumnType :=
  let sampleValues := sample values in
  match sampleValues with
  | [] => TText
  | _ :: _ =>
      let c := fold_left (countStep H) sampleValues
                 {| dateCount := 0; numberCount := 0;
                    percentCount := 0; currencyCount := 0 |} in
      let total := length sampleValues in
      if reaches (dateCount c) total then TDate
      else if reaches (percentCount c) total then TPercentage
      else if reaches (currencyCount c) total then TCurrency
      else if reaches (numberCount c) total then TNumber
      else TText
  end.

(** ** evaluateFormula *)

Definition openBrace : N := 123%N.
Definition closeBrace : N := 125%N.

(** [formula.match(/\{([^}]+)\}/g) || []]: the bodies of the matches, left
    to right.  [inside] holds the characters read since an opening brace,
    latest first. *)
Fixpoint scanRefs (inside : option jsstring) (s : jsstring) : list jsstring :=
  match s with
  | [] => []
  | c :: s' =>
      match inside with
      | None =>
          if (c =? openBrace)%N then scanRefs (Some []) s'
          else scanRefs None s'
      | Some [] =>
          if (c =? closeBrace)%N then scanRefs None s'
          else scanRefs (Some [c]) s'
      | Some (b :: body) =>
          if (c =? closeBrace)%N then rev (b :: body) :: scanRefs None s'
          else scanRefs (Some (c :: b :: body)) s'
      end
  end.

Definition columnRefs (formula : jsstring) : list jsstring :=
  map (fun body => openBrace :: body ++ [closeBrace]) (scanRefs None formula).

(** [ref.slice(1, -1)] *)
Definition slice1 (ref : jsstring) : jsstring := removelast (tl ref).

(** [expression.split(ref).join(text)] for a separator that is not empty:
    [skip] characters of a match are still to be dropped. *)
Fixpoint replaceFrom (ref text : jsstring) (skip : nat) (s : jsstring)
    : jsstring :=
  match s with
  | [] => []
  | c :: s' =>
      match skip with
      | S n => replaceFrom ref text n s'
      | O =>
          if startsWith ref s then text ++ replaceFrom ref text (pred (length ref)) s'
          else c :: replaceFrom ref text 0 s'
      end
  end.

Definition splitJoin (ref text expression : jsstring) : jsstring :=
  replaceFrom ref text 0 expression.

(** An entry of the mapping as [evaluateFormula] reads it: [config?.column]
    and [config?.label], [None] for a property that is absent, as both are
    when the entry is a bare string. *)
Record FieldConfig := {
  column : option jsstring;
  label : option jsstring
}.

Definition FieldMapping := list (jsstring * FieldConfig).

Definition isSome (o : option jsstring) (s : jsstring) : bool :=
  match o with Some c => str_eqb c s | None => false end.

(** Stage 2: the first key of [Object.keys(row)] equal to the name up to
    case. *)
Definition findKeyIgnoringCase (H : Host) (row : object)
    (columnName : jsstring) : option jsstring :=
  let lowerColumnName := toLowerCase H columnName in
  option_map fst
    (find (fun kv => str_eqb (toLowerCase H (fst kv)) lowerColumnName) row).

(** Stage 3: the first entry whose column, label or field is the name. *)
Definition findEntry (columnMapping : FieldMapping) (columnName : jsstring)
    : option (jsstring * FieldConfig) :=
  find (fun fc =>
          isSome (column (snd fc)) columnName
          || isSome (label (snd fc)) columnName
          || str_eqb (fst fc) columnName) columnMapping.

(** [config?.column || columnName] *)
Definition actualColumnOf (config : FieldConfig) (columnName : jsstring)
    : jsstring :=
  match column config with
  | Some (c :: s) => c :: s
  | _ => columnName
  end.

(** Stage 1: [row[columnName]] when the row has the key itself. *)
Definition exactMatch (H : Host) (row : object) (columnName : jsstring)
    : option number :=
  if hasOwnProperty row columnName then
    Some (parseFloat H (getProp row columnName))
  else None.

(** Stage 2: the cell under the first key equal up to case. *)
Definition caseInsensitiveMatch (H : Host) (row : object)
    (columnName : jsstring) : option number :=
  match findKeyIgnoringCase H row columnName with
  | Some key => Some (parseFloat H (getProp row key))
  | None => None
  end.

(** Stage 3: the cell under the actual column of the first mapping entry
    that names the reference, when the row has that column. *)
Definition mappingMatch (H : Host) (row : object) (columnMapping : FieldMapping)
    (columnName : jsstring) : option number :=
  match findEntry columnMapping columnName with
  | Some (_, config) =>
      let actualColumn := actualColumnOf config columnName in
      if hasOwnProperty row actualColumn then
        Some (parseFloat H (getProp row actualColumn))
      else None
  | None => None
  end.

(** The [value] of a reference after the three lookups; [None] is [null].
    Stage 2 runs in the [else] of stage 1, and stage 3 under
    [value === null]. *)
Definition lookupValue (H : Host) (row : object) (columnMapping : FieldMapping)
    (columnName : jsstring) : option number :=
  let value :=
    if hasOwnProperty row columnName then exactMatch H row columnName
    else caseInsensitiveMatch H row columnName in
  match value with
  | Some v => Some v
  | None => mappingMatch H row columnMapping columnName
  end.

(** [[\d\s+\-*/().]] *)
Definition isAllowedChar (c : N) : bool :=
  isDigit c || isWhiteSpace c
  || ((c =? 43) || (c =? 45) || (c =? 42) || (c =? 47)
      || (c =? 40) || (c =? 41) || (c =? 46))%N.

(** [/^[\d\s+\-*/().]+$/] *)
Definition allowedExpression : regex :=
  {| r_atoms := [oneOrMore isAllowedChar]; r_anchoredEnd := true |}.

(** The loop over [columnRefs]: the expression after every substitution,
    [None] when the loop returns [null] or throws. A row with a column
    named [hasOwnProperty] shadows the method, and calling the cell
    throws. *)
Fixpoint substitute (H : Host) (row : object) (columnMapping : FieldMapping)
    (refs : list jsstring) (expression : jsstring) : option jsstring :=
  match refs with
  | [] => Some expression
  | ref :: refs' =>
      let columnName := trim (slice1 ref) in
      if hasOwnProperty row (js "hasOwnProperty") then None
      else
        match lookupValue H row columnMapping columnName with
        | None => None
        | Some value =>
            if isNaN value then None
            else
              substitute H row columnMapping refs'
                (splitJoin ref (numberToString H value) expression)
        end
  end.

Definition evaluateFormula (H : Host) (formula : jsstring) (row : object)
    (columnMapping : FieldMapping) : option number :=
  match formula with
  | [] => None
  | _ :: _ =>
      match substitute H row columnMapping (columnRefs formula) formula with
      | None => None
      | Some expression =>
          if negb (regexTest allowedExpression expression) then None
          else
            match evalArithmetic H expression with
            | Some result => if isFinite result then Some result else None
            | None => None
            end
      end
  end.

(** ** A reference host

    One executable host, used to run the functions on concrete inputs.  It
    agrees with an ECMAScript engine in the UTC time zone and with date-fns
    on the inputs named at each field. *)

Module Reference.

(** Number::toString, from the decimal digits [s] of the value, their
    number [k] and the exponent [n] with value = 0.s * 10^n. *)
Definition layoutDigits (s : jsstring) (n : Z) : jsstring :=
  let k := Z.of_nat (length s) in
  if (k <=? n) && (n <=? 21) then s ++ repeat 48%N (Z.to_nat (n - k))
  else if (0 <? n) && (n <=? 21) then
    firstn (Z.to_nat n) s ++ 46%N :: skipn (Z.to_nat n) s
  else if (-6 <? n) && (n <=? 0) then
    js "0." ++ repeat 48%N (Z.to_nat (- n)) ++ s
  else
    let e := n - 1 in
    let exponent :=
      101%N :: (if e <? 0 then 45%N else 43%N) :: natToString (Z.to_N (Z.abs e)) in
    match s with
    | [d] => d :: exponent
    | d :: ds => d :: 46%N :: ds ++ exponent
    | [] => exponent
    end.

(** The exponent [n] with [10^(n-1) <= q < 10^n], searched from [n0]. *)
Fixpoint decimalExponent (fuel : nat) (q : Q) (n : Z) : Z :=
  match fuel with
  | O => n
  | S fuel' =>
      if Qle_bool (Qpower (inject_Z 10) n) q then decimalExponent fuel' q (n + 1)
      else if Qle_bool (Qpower (inject_Z 10) (n - 1)) q then n
      else decimalExponent fuel' q (n - 1)
  end.

Definition stripTrailingZeros (s : jsstring) : jsstring :=
  rev (dropWhile (N.eqb 48) (rev s)).

(** At most 17 significant digits; exact on the decimals that have no
    more. *)
Definition positiveToString (q : Q) : jsstring :=
  let fuel := S (Z.to_nat (Z.log2 (Z.abs (Qnum q)) + Z.log2 (Zpos (Qden q)))) in
  let n := decimalExponent fuel q 0 in
  let scaled := Qfloor (q * Qpower (inject_Z 10) (17 - n))%Q in
  layoutDigits (stripTrailingZeros (natToString (Z.to_N scaled))) n.

Definition numberToString (x : number) : jsstring :=
  match x with
  | NaN => js "NaN"
  | Infinity false => js "Infinity"
  | Infinity true => js "-Infinity"
  | Finite q =>
      if Qeq_bool q 0%Q then js "0"
      else if Qle_bool 0%Q q then positiveToString q
      else 45%N :: positiveToString (- q)%Q
  end.

Definition pad (width : nat) (z : Z) : jsstring :=
  let s := natToString (Z.to_N z) in
  repeat 48%N (width - length s) ++ s.

Definition monthName (m : Z) : jsstring :=
  nth (Z.to_nat (m - 1))
    (map js ["Jan"; "Feb"; "Mar"; "Apr"; "May"; "Jun"; "Jul"; "Aug"; "Sep";
             "Oct"; "Nov"; "Dec"]%string) [].

Definition weekdayName (t : Z) : jsstring :=
  nth (Z.to_nat ((dayOf t + 4) mod 7))
    (map js ["Sun"; "Mon"; "Tue"; "Wed"; "Thu"; "Fri"; "Sat"]%string) [].

(** Date.prototype.toString, for the years 0 to 9999. *)
Definition dateToString (d : option Z) : jsstring :=
  match d with
  | None => js "Invalid Date"
  | Some t =>
      let ms := t mod msPerDay in
      weekdayName t ++ 32%N :: monthName (getMonth t + 1) ++ 32%N
      :: pad 2 (getDate t) ++ 32%N :: pad 4 (getYear t) ++ 32%N
      :: pad 2 (ms / 3600000) ++ 58%N :: pad 2 (ms / 60000 mod 60) ++ 58%N
      :: pad 2 (ms / 1000 mod 60) ++ js " GMT+0000 (Coordinated Universal Time)"
  end.

(** String.prototype.toLowerCase, on the letters A to Z. *)
Definition toLowerCase (s : jsstring) : jsstring :=
  map (fun c => if ((65 <=? c) && (c <=? 90))%N then (c + 32)%N else c) s.

Definition daysInMonth (y m : Z) : Z :=
  daysFromCivil (if m =? 12 then y + 1 else y) (if m =? 12 then 1 else m + 1) 1
  - daysFromCivil y m 1.

(** The date [YYYY-MM-DD] at midnight, when it exists. *)
Definition calendarDate (s : jsstring) : option Z :=
  match s with
  | [y1; y2; y3; y4; h1; m1; m2; h2; d1; d2] =>
      if (h1 =? dash)%N && (h2 =? dash)%N
         && forallb isDigit [y1; y2; y3; y4; m1; m2; d1; d2] then
        let y := digitsValue [y1; y2; y3; y4] in
        let m := digitsValue [m1; m2] in
        let d := digitsValue [d1; d2] in
        if (1 <=? m) && (m <=? 12) && (1 <=? d) && (d <=? daysInMonth y m)
        then Some (daysFromCivil y m d * msPerDay)
        else None
      else None
  | _ => None
  end.

(** date-fns [parseISO], on the calendar-date form [YYYY-MM-DD]. *)
Definition parseISO (s : jsstring) : option Z := calendarDate s.

(** [new Date(s)], on the forms [YYYY-MM-DD] and [M/D/YYYY]. *)
Definition dateFromString (s : jsstring) : option Z :=
  match calendarDate s with
  | Some t => Some t
  | None =>
      let (ms, r1) := span isDigit s in
      match r1 with
      | 47%N :: r2 =>
          let (ds, r3) := span isDigit r2 in
          match r3 with
          | 47%N :: ys =>
              let m := digitsValue ms in
              let d := digitsValue ds in
              let y := digitsValue ys in
              if forallb isDigit ys && (length ys =? 4)%nat
                 && negb (isEmpty ms) && negb (isEmpty ds)
                 && (1 <=? m) && (m <=? 12) && (1 <=? d) && (d <=? 31)
              then Some (daysFromCivil y m d * msPerDay)
              else None
          | _ => None
          end
      | _ => None
      end
  end.

(** date-fns [format]: [yyyy] is the year of the era, at least four
    digits; [MM] and [dd] two digits; [MMM] the English abbreviation. *)
Definition format (f : DateFormat) (t : Z) : jsstring :=
  let signedYear := getYear t in
  let year := if 0 <? signedYear then signedYear else 1 - signedYear in
  let month := getMonth t + 1 in
  match f with
  | F_yyyy_MM_dd =>
      pad 4 year ++ dash :: pad 2 month ++ dash :: pad 2 (getDate t)
  | F_yyyy_MM => pad 4 year ++ dash :: pad 2 month
  | F_MMM_d_yyyy =>
      monthName month ++ 32%N :: natToString (Z.to_N (getDate t))
      ++ js ", " ++ pad 4 year
  | F_MMM_yyyy => monthName month ++ 32%N :: pad 4 year
  end.

(** *** The arithmetic evaluator

    The value of [(e)] for an expression of decimal literals, the binary
    operators [+ - * /], unary signs and parentheses; [None] for every
    other input, on which the engine throws a SyntaxError or yields no
    number ([++], [--], [**], comments and regular-expression literals are
    outside this host). *)

Inductive token := TNum (q : Q) | TPlus | TMinus | TStar | TSlash | TOpen | TClose.

Definition literalValue (ip fp : jsstring) : Q :=
  Qred (inject_Z (digitsValue (ip ++ fp))
        * Qpower (inject_Z 10) (- Z.of_nat (length fp)))%Q.

(** In strict code a literal does not start with a superfluous zero. *)
Definition wellFormedInteger (ip : jsstring) : bool :=
  match ip with
  | 48%N :: _ :: _ => false
  | _ => true
  end.

Fixpoint tokenize (fuel : nat) (s : jsstring) : option (list token) :=
  match fuel with
  | O => None
  | S fuel' =>
      match s with
      | [] => Some []
      | c :: s' =>
          let next t :=
            match s' with
            | c' :: _ =>
                if ((c =? c') || ((c =? 47) && (c' =? 42)))%N then None
                else option_map (cons t) (tokenize fuel' s')
            | [] => Some [t]
            end in
          if isWhiteSpace c then tokenize fuel' s'
          else if (c =? 43)%N then next TPlus
          else if (c =? 45)%N then next TMinus
          else if (c =? 42)%N then next TStar
          else if (c =? 47)%N then next TSlash
          else if (c =? 40)%N then option_map (cons TOpen) (tokenize fuel' s')
          else if (c =? 41)%N then option_map (cons TClose) (tokenize fuel' s')
          else
            let (ip, r1) := span isDigit s in
            let (fp, r2) :=
              match r1 with
              | 46%N :: r => span isDigit r
              | _ => ([], r1)
              end in
            match ip ++ fp with
            | [] => None
            | _ =>
                if wellFormedInteger ip
                   && (length r2 <? length s)%nat then
                  option_map (cons (TNum (literalValue ip fp)))
                    (tokenize fuel' r2)
                else None
            end
      end
  end.

Definition num_neg (a : number) : number :=
  match a with
  | NaN => NaN
  | Infinity s => Infinity (negb s)
  | Finite x => Finite (Qred (- x)%Q)
  end.

Definition num_sub (a b : number) : number := num_add a (num_neg b).

Definition num_div (a b : number) : number :=
  match a, b with
  | NaN, _ | _, NaN => NaN
  | Infinity _, Infinity _ => NaN
  | Infinity s, Finite y => Infinity (if Qle_bool 0%Q y then s else negb s)
  | Finite _, Infinity _ => zero
  | Finite x, Finite y =>
      if Qeq_bool y 0%Q then
        if Qeq_bool x 0%Q then NaN else Infinity (negb (Qle_bool 0%Q x))
      else Finite (Qred (x / y)%Q)
  end.

Fixpoint parseSum (fuel : nat) (ts : list token) : option (number * list token) :=
  match fuel with
  | O => None
  | S fuel' =>
      match parseProduct fuel' ts with
      | Some (a, rest) => sumRest fuel' a rest
      | None => None
      end
  end
with sumRest (fuel : nat) (acc : number) (ts : list token)
    : option (number * list token) :=
  match fuel with
  | O => None
  | S fuel' =>
      match ts with
      | TPlus :: rest =>
          match parseProduct fuel' rest with
          | Some (b, rest') => sumRest fuel' (num_add acc b) rest'
          | None => None
          end
      | TMinus :: rest =>
          match parseProduct fuel' rest with
          | Some (b, rest') => sumRest fuel' (num_sub acc b) rest'
          | None => None
          end
      | _ => Some (acc, ts)
      end
  end
with parseProduct (fuel : nat) (ts : list token) : option (number * list token) :=
  match fuel with
  | O => None
  | S fuel' =>
      match parseUnary fuel' ts with
      | Some (a, rest) => productRest fuel' a rest
      | None => None
      end
  end
with productRest (fuel : nat) (acc : number) (ts : list token)
    : option (number * list token) :=
  match fuel with
  | O => None
  | S fuel' =>
      match ts with
      | TStar :: rest =>
          match parseUnary fuel' rest with
          | Some (b, rest') => productRest fuel' (num_mul acc b) rest'
          | None => None
          end
      | TSlash :: rest =>
          match parseUnary fuel' rest with
          | Some (b, rest') => productRest fuel' (num_div acc b) rest'
          | None => None
          end
      | _ => Some (acc, ts)
      end
  end
with parseUnary (fuel : nat) (ts : list token) : option (number * list token) :=
  match fuel with
  | O => None
  | S fuel' =>
      match ts with
      | TPlus :: rest => parseUnary fuel' rest
      | TMinus :: rest =>
          match parseUnary fuel' rest with
          | Some (a, rest') => Some (num_neg a, rest')
          | None => None
          end
      | TNum q :: rest => Some (Finite q, rest)
      | TOpen :: rest =>
          match parseSum fuel' rest with
          | Some (a, TClose :: rest') => Some (a, rest')
          | _ => None
          end
      | _ => None
      end
  end.

Definition evalArithmetic (e : jsstring) : option number :=
  match tokenize (S (length e)) e with
  | Some ts =>
      match parseSum (6 * length ts + 6) ts with
      | Some (v, []) => Some v
      | _ => None
      end
  | None => None
  end.

Definition host : Host :=
  Build_Host numberToString dateToString toLowerCase evalArithmetic
    parseISO dateFromString format.

End Reference.

(** * The functions around the engine

    The helpers of [useDataAggregator] over its aggregated rows,
    [autoDetectMappings] and [parseFile], the charts that call the
    aggregator and [evaluateFormula], the state of [ColumnMapper], and
    [useConfigStorage]. *)

(** ** Plain objects: what they inherit *)

(** The names of the properties of [Object.prototype], which every plain
    object inherits; each holds a function, [__proto__] the prototype
    itself. *)
Definition objectPrototypeNames : list jsstring :=
  [js "constructor"; js "__defineGetter__"; js "__defineSetter__";
   js "hasOwnProperty"; js "__lookupGetter__"; js "__lookupSetter__";
   js "isPrototypeOf"; js "propertyIsEnumerable"; js "toString";
   js "valueOf"; js "__proto__"; js "toLocaleString"].

Definition inheritedName (name : jsstring) : bool :=
  existsb (str_eqb name) objectPrototypeNames.

(** What [o[k]] finds on a plain object: the value of an own property, a
    member of [Object.prototype], or nothing. *)
Inductive Member :=
| OwnValue (v : jsvalue)
| PrototypeMember
| NoMember.

Definition readMember (o : object) (k : jsstring) : Member :=
  if hasOwnProperty o k then OwnValue (getProp o k)
  else if inheritedName k then PrototypeMember
  else NoMember.

(** ** Calls that spread an array

    [Math.min(...values)] hands every value to one call as an argument of
    its own, and the engine throws a RangeError when a call has more
    arguments than it has room for.  [argumentLimit] is the number of
    arguments the engine takes in the call at hand; [None] stands for the
    RangeError. *)

Module Spread.

Section Limit.

Variable argumentLimit : nat.

(** [f(...arguments)] *)
Definition call (f : list number -> number) (arguments : list number)
    : option number :=
  if (length arguments <=? argumentLimit)%nat then Some (f arguments)
  else None.

(** [Math.min]: plus infinity when there is no argument, [NaN] when an
    argument is. *)
Definition mathMin (arguments : list number) : number :=
  fold_left num_min arguments (Infinity false).

Definition mathMax (arguments : list number) : number :=
  fold_left num_max arguments (Infinity true).

(** [aggregateValues] with the RangeError of its two spread calls. *)
Definition aggregateValues (values : list jsvalue)
    (aggregationType : AggregationType) : option number :=
  match values with
  | [] => Some zero
  | _ :: _ =>
      let valid := validValues values in
      match valid with
      | [] => Some zero
      | _ :: _ =>
          match aggregationType with
          | SUM => Some (sumOf valid)
          | AVERAGE => Some (num_div_count (sumOf valid) (length valid))
          | COUNT => Some (ofZ (Z.of_nat (length valid)))
          | MIN => call mathMin valid
          | MAX => call mathMax valid
          | OtherAggregation => Some (sumOf valid)
          end
      end
  end.

End Limit.

End Spread.

(** ** useDataAggregator: the helpers over [aggregatedData] *)

Definition isUndefined (v : jsvalue) : bool :=
  match v with VUndefined => true | _ => false end.

Definition isNull (v : jsvalue) : bool :=
  match v with VNull => true | _ => false end.

(** [getMetricTotal(field, aggregationType = AGGREGATION_TYPE.SUM)]; an
    argument left out is [None].  A member of [Object.prototype] that a
    row inherits under [field] passes the filter and is then dropped by
    [aggregateValues], which keeps numbers only: it counts as [undefined]
    does. *)
Definition getMetricTotal (aggregatedData : list object) (field : jsstring)
    (aggregationType : option AggregationType) : number :=
  let values :=
    filter (fun v => negb (isUndefined v))
      (map (fun row => getProp row field) aggregatedData) in
  aggregateValues values
    (match aggregationType with Some t => t | None => SUM end).

(** ToNumber, which [Math.min] and [Math.max] apply to their arguments;
    [stringToNumber] is the engine's conversion of a string. *)
Definition toNumber (stringToNumber : jsstring -> number) (v : jsvalue)
    : number :=
  match v with
  | VUndefined => NaN
  | VNull => zero
  | VBool b => if b then ofZ 1 else zero
  | VNum n => n
  | VStr s => stringToNumber s
  | VDate t => match t with Some z => ofZ z | None => NaN end
  end.

(** ToNumber of what [row[field]] finds: a member of [Object.prototype]
    is a function, or for [__proto__] the prototype, whose text is no
    number. *)
Definition memberToNumber (stringToNumber : jsstring -> number) (m : Member)
    : number :=
  match m with
  | OwnValue v => toNumber stringToNumber v
  | PrototypeMember => NaN
  | NoMember => NaN
  end.

(** [v !== undefined && v !== null] *)
Definition isPresent (m : Member) : bool :=
  match m with
  | OwnValue v => negb (isUndefined v) && negb (isNull v)
  | PrototypeMember => true
  | NoMember => false
  end.

Record Range := { r_min : number; r_max : number }.

(** [None] stands for the RangeError of [Math.min(...values)]; the call
    of [Math.max] has as many arguments. *)
Definition getMetricRange (argumentLimit : nat)
    (stringToNumber : jsstring -> number)
    (aggregatedData : list object) (field : jsstring) : option Range :=
  let values :=
    filter isPresent (map (fun row => readMember row field) aggregatedData) in
  match values with
  | [] => Some {| r_min := zero; r_max := zero |}
  | _ :: _ =>
      let arguments := map (memberToNumber stringToNumber) values in
      match Spread.call argumentLimit Spread.mathMin arguments with
      | Some lowest =>
          match Spread.call argumentLimit Spread.mathMax arguments with
          | Some highest => Some {| r_min := lowest; r_max := highest |}
          | None => None
          end
      | None => None
      end
  end.

(** [aggregatedData.map(row => ({...row, name: row.label}))] *)
Definition chartData (aggregatedData : list object) : list object :=
  map (fun row => setProp row (js "name") (getProp row (js "label")))
    aggregatedData.

(** ** parseDate in the time zone of the host

    [new Date(1899, 11, 30)] is midnight of that day in local time.  A
    [TimeZone] holds the two conversions of ECMA-262 between time values
    and local times, both in milliseconds: [LocalTime(t)], the time value
    [t] moved by the offset of the zone at that instant, and [UTC(t)], the
    time value of the local time [t].  [parseDate] above is [parseDateIn]
    in the zone UTC. *)

Record TimeZone := {
  localTime : Z -> Z;
  utc : Z -> Z
}.

Definition utcZone : TimeZone :=
  {| localTime := fun t => t; utc := fun t => t |}.

(** The offset of local time from UTC at the time value [t]. *)
Definition offsetAt (zone : TimeZone) (t : Z) : Z := localTime zone t - t.

(** [new Date(1899, 11, 30).getTime()] *)
Definition excelEpochIn (zone : TimeZone) : Z :=
  utc zone (daysFromCivil 1899 12 30 * msPerDay).

Definition parseDateIn (zone : TimeZone) (H : Host) (value : jsvalue)
    : option Z :=
  if isFalsy value then None
  else
    match value with
    | VDate t => t
    | VNum n =>
        newDate (num_add (ofZ (excelEpochIn zone)) (num_mul n (ofZ msPerDay)))
    | VStr s =>
        match parseISO H s with
        | Some date => Some date
        | None =>
            match tryFormats H s formats with
            | Some date => Some date
            | None => dateFromString H s
            end
        end
    | _ => None
    end.

(** ** autoDetectMappings *)

(** [s.includes(p)] *)
Fixpoint includes (p s : jsstring) : bool :=
  startsWith p s
  || match s with
     | [] => false
     | _ :: s' => includes p s'
     end.

(** [patterns.some(p => lower.includes(p))] *)
Definition someIncluded (patterns : list jsstring) (lower : jsstring) : bool :=
  existsb (fun p => includes p lower) patterns.

(** The pattern lists of [autoDetectMappings], under the names they have
    there. *)
Module Names.

Definition datePatterns : list jsstring :=
  [js "date"; js "time"; js "day"; js "period"; js "timestamp"].

Definition salesPatterns : list jsstring :=
  [js "attributable sales"; js "sales"; js "revenue"; js "total sales";
   js "attributed sales"].

Definition ctrPatterns : list jsstring :=
  [js "ctr"; js "click through"; js "clickthrough"; js "click-through";
   js "click rate"].

Definition impressionPatterns : list jsstring :=
  [js "impression"; js "impr"; js "views"; js "reach"].

Definition clickPatterns : list jsstring := [js "click"; js "clk"].

Definition spendPatterns : list jsstring :=
  [js "spend"; js "cost"; js "budget"; js "ad spend"].

End Names.

(** The [columnTypes] object: the type recorded for each column. *)
Definition ColumnTypes := list (jsstring * ColumnType).

(** [columnTypes[column] === 'date'] *)
Definition isDateColumn (columnTypes : ColumnTypes) (column : jsstring)
    : bool :=
  match find (fun kt => str_eqb (fst kt) column) columnTypes with
  | Some (_, TDate) => true
  | _ => false
  end.

(** The [mappings] object: a field that no loop has set is [None]. *)
Record Mappings := {
  m_date : option jsstring;
  m_attributableSales : option jsstring;
  m_ctr : option jsstring;
  m_impressions : option jsstring;
  m_clicks : option jsstring;
  m_spend : option jsstring
}.

(** The tests of the six loops on a column. *)
Definition dateTest (H : Host) (columnTypes : ColumnTypes) (column : jsstring)
    : bool :=
  isDateColumn columnTypes column
  || someIncluded Names.datePatterns (toLowerCase H column).

Definition clicksTest (H : Host) (column : jsstring) : bool :=
  let col := toLowerCase H column in
  someIncluded Names.clickPatterns col
  && negb (includes (js "rate") col) && negb (includes (js "through") col).

(** Each loop stops at the first column that passes its test. *)
Definition autoDetectMappings (H : Host) (columns : list jsstring)
    (columnTypes : ColumnTypes) : Mappings :=
  let named patterns :=
    find (fun c => someIncluded patterns (toLowerCase H c)) columns in
  {| m_date := find (dateTest H columnTypes) columns;
     m_attributableSales := named Names.salesPatterns;
     m_ctr := named Names.ctrPatterns;
     m_impressions := named Names.impressionPatterns;
     m_clicks := find (clicksTest H) columns;
     m_spend := named Names.spendPatterns |}.

(** ** parseFile, after the sheet has been read *)

(** [!!mappings.field] *)
Definition isSet (column : option jsstring) : bool :=
  match column with
  | Some (_ :: _) => true
  | _ => false
  end.

Record ParseResult := {
  data : list object;
  columns : list jsstring;
  columnTypes : ColumnTypes;
  suggestedMappings : Mappings;
  needsMapping : bool;
  rowCount : nat
}.

(** The rows [jsonData] that [sheet_to_json] returns are the input; [None]
    is the error thrown for a sheet without data rows.  Of the result,
    [sheetName], which the workbook gives, is left out. *)
Definition parseFile (H : Host) (jsonData : list object)
    : option ParseResult :=
  match jsonData with
  | [] => None
  | first :: _ =>
      let columnNames := map fst first in
      let types :=
        map (fun col =>
               (col, detectColumnType H
                       (map (fun row => getProp row col) jsonData)))
          columnNames in
      let mappings := autoDetectMappings H columnNames types in
      let hasDate := isSet (m_date mappings) in
      let hasMetric :=
        isSet (m_attributableSales mappings) || isSet (m_ctr mappings)
        || isSet (m_impressions mappings) in
      Some {| data := jsonData;
              columns := columnNames;
              columnTypes := types;
              suggestedMappings := mappings;
              needsMapping := negb hasDate || negb hasMetric;
              rowCount := length jsonData |}
  end.

(** ** The column mapping of the user interface

    [ColumnMapper] hands the charts an object from field to either a
    column name or a configuration; a property set to [undefined] is
    still a key of the object. *)

Record MappingConfig := {
  mc_column : option jsstring;
  mc_label : option jsstring;
  mc_color : option jsstring;
  mc_isPercentage : option bool;
  mc_formula : option jsstring
}.

Inductive MappingValue :=
| MUndefined
| MString (s : jsstring)
| MConfig (config : MappingConfig).

Definition UIMapping := list (jsstring * MappingValue).

(** [columnMapping[field]] *)
Definition lookupUI (columnMapping : UIMapping) (k : jsstring) : MappingValue :=
  match find (fun kv => str_eqb (fst kv) k) columnMapping with
  | Some (_, v) => v
  | None => MUndefined
  end.

(** A string that is truthy. *)
Definition truthy (s : option jsstring) : option jsstring :=
  match s with
  | Some (c :: r) => Some (c :: r)
  | _ => None
  end.

(** [config?.column] when it is truthy. *)
Definition configColumn (v : MappingValue) : option jsstring :=
  match v with
  | MConfig config => truthy (mc_column config)
  | _ => None
  end.

(** [a || b] on strings. *)
Definition orElse (a : option jsstring) (b : jsstring) : jsstring :=
  match truthy a with
  | Some s => s
  | None => b
  end.

(** The mapping as [evaluateFormula] reads it. *)
Definition fieldConfigOf (v : MappingValue) : FieldConfig :=
  match v with
  | MConfig config => {| column := mc_column config; label := mc_label config |}
  | _ => {| column := None; label := None |}
  end.

Definition asFieldMapping (columnMapping : UIMapping) : FieldMapping :=
  map (fun kv => (fst kv, fieldConfigOf (snd kv))) columnMapping.

Definition CHART_COLORS : list jsstring :=
  [js "#14b8a6"; js "#6366f1"; js "#a855f7"; js "#f97316"; js "#ec4899";
   js "#06b6d4"; js "#84cc16"; js "#f43f5e"].

(** [CHART_COLORS[n % CHART_COLORS.length]] *)
Definition colorAt (n : nat) : jsstring :=
  nth (n mod length CHART_COLORS) CHART_COLORS [].

(** [mapping[k] = c] on the mapping the aggregator receives. *)
Fixpoint setColumn (m : ColumnMapping) (k c : jsstring) : ColumnMapping :=
  match m with
  | (k', c') :: m' =>
      if str_eqb k' k then (k', c) :: m' else (k', c') :: setColumn m' k c
  | [] => [(k, c)]
  end.

(** A metric descriptor of the charts. *)
Record ChartMetric := {
  cm_field : jsstring;
  cm_label : jsstring;
  cm_aggregationType : AggregationType;
  cm_color : jsstring;
  cm_isPercentage : bool;
  cm_formula : option jsstring
}.

(** What the aggregator reads of a chart metric. *)
Definition toMetric (m : ChartMetric) : Metric :=
  {| field := cm_field m; aggregationType := cm_aggregationType m |}.

(** [m.formula] is truthy. *)
Definition hasFormula (m : ChartMetric) : bool :=
  match truthy (cm_formula m) with Some _ => true | None => false end.

(** ** ChartCard *)

Module ChartCard.

(** The selection handed to [onMetricsChange], [None] when it is not
    called. *)
Definition handleMetricToggle (selectedMetrics : list ChartMetric)
    (metric : ChartMetric) : option (list ChartMetric) :=
  let isSelected :=
    existsb (fun m => str_eqb (cm_field m) (cm_field metric)) selectedMetrics in
  if isSelected then
    if (1 <? length selectedMetrics)%nat then
      Some (filter (fun m => negb (str_eqb (cm_field m) (cm_field metric)))
              selectedMetrics)
    else None
  else Some (selectedMetrics ++ [metric]).

End ChartCard.

(** ** EngagementChart *)

Module EngagementChart.

Definition isTrue (b : option bool) : bool :=
  match b with Some true => true | _ => false end.

(** The metric pushed for one of [impressions] and [clicks]. *)
Definition engagementField (columnMapping : UIMapping)
    (metrics : list ChartMetric) (field : jsstring) : list ChartMetric :=
  match lookupUI columnMapping field with
  | MConfig config =>
      match truthy (mc_column config) with
      | Some column =>
          metrics ++
          [ {| cm_field := field;
               cm_label := orElse (mc_label config) column;
               cm_aggregationType := SUM;
               cm_color := orElse (mc_color config) (colorAt (length metrics));
               cm_isPercentage := isTrue (mc_isPercentage config);
               cm_formula := mc_formula config |} ]
      | None => metrics
      end
  | _ => metrics
  end.

Definition primaryFields : list jsstring :=
  [js "date"; js "attributableSales"; js "ctr"; js "impressions"; js "clicks"].

Definition engagementKeywords : list jsstring :=
  [js "rate"; js "exit"; js "bounce"; js "conversion"; js "cvr"].

(** The metric pushed for an entry of the mapping that is none of the
    primary fields. *)
Definition customField (H : Host) (metrics : list ChartMetric)
    (entry : jsstring * MappingValue) : list ChartMetric :=
  let (field, value) := entry in
  if existsb (str_eqb field) primaryFields then metrics
  else
    match value with
    | MConfig config =>
        match truthy (mc_column config) with
        | Some column =>
            let lowerLabel := toLowerCase H (orElse (mc_label config) column) in
            let isEngagementMetric :=
              isTrue (mc_isPercentage config)
              || someIncluded engagementKeywords lowerLabel in
            if isEngagementMetric then
              metrics ++
              [ {| cm_field := field;
                   cm_label := orElse (mc_label config) column;
                   cm_aggregationType :=
                     if isTrue (mc_isPercentage config) then AVERAGE else SUM;
                   cm_color :=
                     orElse (mc_color config) (colorAt (length metrics));
                   cm_isPercentage := isTrue (mc_isPercentage config);
                   cm_formula := mc_formula config |} ]
            else metrics
        | None => metrics
        end
    | _ => metrics
    end.

Definition availableMetrics (H : Host) (columnMapping : UIMapping)
    : list ChartMetric :=
  let metrics :=
    match lookupUI columnMapping (js "ctr") with
    | MConfig ctr =>
        match truthy (mc_column ctr) with
        | Some _ =>
            [ {| cm_field := js "ctr";
                 cm_label := orElse (mc_label ctr) (js "Click Through Rate");
                 cm_aggregationType := AVERAGE;
                 cm_color := orElse (mc_color ctr) (colorAt 2);
                 cm_isPercentage :=
                   match mc_isPercentage ctr with
                   | Some false => false
                   | _ => true
                   end;
                 cm_formula := mc_formula ctr |} ]
        | None => []
        end
    | _ => []
    end in
  let metrics :=
    fold_left (engagementField columnMapping)
      [js "impressions"; js "clicks"] metrics in
  fold_left (customField H) columnMapping metrics.

(** The mapping the chart hands to the aggregator. *)
Definition aggregatorStep (mapping : ColumnMapping)
    (entry : jsstring * MappingValue) : ColumnMapping :=
  let (field, config) := entry in
  if str_eqb field (js "date") then mapping
  else
    match config with
    | MString s => setColumn mapping field s
    | MConfig c =>
        match truthy (mc_column c) with
        | Some column =>
            if str_eqb column (js "__formula__") then mapping
            else setColumn mapping field column
        | None => mapping
        end
    | MUndefined => mapping
    end.

Definition aggregatorMapping (columnMapping : UIMapping) : ColumnMapping :=
  let mapping :=
    match lookupUI columnMapping (js "date") with
    | MConfig c =>
        match truthy (mc_column c) with
        | Some column => [(js "date", column)]
        | None => []
        end
    | MString s => [(js "date", s)]
    | MUndefined => []
    end in
  fold_left aggregatorStep columnMapping mapping.

Definition validSelectedMetrics (availableMetrics selectedMetrics
    : list ChartMetric) : list ChartMetric :=
  let available := map cm_field availableMetrics in
  let valid :=
    filter (fun m => existsb (str_eqb (cm_field m)) available)
      selectedMetrics in
  match valid with
  | _ :: _ => valid
  | [] =>
      match availableMetrics with
      | first :: _ => [first]
      | [] => []
      end
  end.

Definition nonFormulaMetrics (validSelectedMetrics : list ChartMetric)
    : list ChartMetric :=
  filter (fun m => negb (hasFormula m)) validSelectedMetrics.

(** The [chartData] of [useDataAggregator] for the metrics without a
    formula. *)
Definition baseChartData (H : Host) (data : list object)
    (columnMapping : UIMapping) (granularity : Granularity)
    (validSelectedMetrics : list ChartMetric) : list object :=
  chartData
    (aggregatedData H data (aggregatorMapping columnMapping) granularity
       (map toMetric (nonFormulaMetrics validSelectedMetrics))).

(** [evaluateFormula(metric.formula, row, columnMapping) || 0] *)
Definition formulaValue (H : Host) (columnMapping : UIMapping)
    (row : object) (metric : ChartMetric) : number :=
  let formula :=
    match cm_formula metric with Some f => f | None => [] end in
  match evaluateFormula H formula row (asFieldMapping columnMapping) with
  | Some result => if isFalsy (VNum result) then zero else result
  | None => zero
  end.

(** The rows the chart draws: the formulas are applied to the rows of the
    aggregator. *)
Definition chartData (H : Host) (columnMapping : UIMapping)
    (validSelectedMetrics : list ChartMetric) (baseChartData : list object)
    : list object :=
  let formulaMetrics := filter hasFormula validSelectedMetrics in
  match formulaMetrics with
  | [] => baseChartData
  | _ :: _ =>
      map (fun row =>
             fold_left
               (fun newRow metric =>
                  setProp newRow (cm_field metric)
                    (VNum (formulaValue H columnMapping row metric)))
               formulaMetrics row)
        baseChartData
  end.

(** The hidden series after a click on the legend entry of [field]; the
    [Set] is the list of its elements in insertion order. *)
Definition handleLegendClick (validSelectedMetrics : list ChartMetric)
    (hiddenMetrics : list jsstring) (field : jsstring) : list jsstring :=
  if existsb (str_eqb field) hiddenMetrics then
    filter (fun f => negb (str_eqb f field)) hiddenMetrics
  else if (length hiddenMetrics + 1 <? length validSelectedMetrics)%nat then
    hiddenMetrics ++ [field]
  else hiddenMetrics.

(** The rows the chart draws for a selection. *)
Definition rows (H : Host) (data : list object) (columnMapping : UIMapping)
    (granularity : Granularity) (selectedMetrics : list ChartMetric)
    : list object :=
  let valid :=
    validSelectedMetrics (availableMetrics H columnMapping) selectedMetrics in
  chartData H columnMapping valid
    (baseChartData H data columnMapping granularity valid).

End EngagementChart.

(** ** CustomChart *)

(** A field a custom chart can draw. *)
Record ChartField := {
  cf_field : jsstring;
  cf_label : jsstring;
  cf_column : jsstring;
  cf_isPercentage : bool;
  cf_color : jsstring
}.

Module CustomChart.

(** The first loop of [availableFields], over the entries of the
    mapping. *)
Definition mappedField (fields : list ChartField)
    (entry : jsstring * MappingValue) : list ChartField :=
  let (field, config) := entry in
  if str_eqb field (js "date") then fields
  else
    match config with
    | MConfig c =>
        match truthy (mc_column c) with
        | Some column =>
            if str_eqb column (js "__formula__") then fields
            else
              fields ++
              [ {| cf_field := field;
                   cf_label := orElse (mc_label c) column;
                   cf_column := column;
                   cf_isPercentage := EngagementChart.isTrue (mc_isPercentage c);
                   cf_color := orElse (mc_color c) (colorAt (length fields)) |} ]
        | None => fields
        end
    | _ => fields
    end.

(** [columnMapping.date?.column] *)
Definition dateColumn (columnMapping : UIMapping) : option jsstring :=
  match lookupUI columnMapping (js "date") with
  | MConfig c => mc_column c
  | _ => None
  end.

(** The second loop, over the columns of the file. *)
Definition rawField (columnMapping : UIMapping) (addedColumns : list jsstring)
    (fields : list ChartField) (col : jsstring) : list ChartField :=
  if existsb (str_eqb col) addedColumns then fields
  else if isSome (dateColumn columnMapping) col then fields
  else
    fields ++
    [ {| cf_field := js "raw_" ++ col;
         cf_label := col;
         cf_column := col;
         cf_isPercentage := false;
         cf_color := colorAt (length fields) |} ].

Definition availableFields (columnMapping : UIMapping)
    (columns : list jsstring) : list ChartField :=
  let fields := fold_left mappedField columnMapping [] in
  let addedColumns := map cf_column fields in
  fold_left (rawField columnMapping addedColumns) columns fields.

(** The metrics of the aggregator, as it reads them. *)
Definition selectedMetrics (selectedFields : list ChartField) : list Metric :=
  map (fun f =>
         {| field := cf_field f;
            aggregationType := if cf_isPercentage f then AVERAGE else SUM |})
    selectedFields.

Definition aggregatorMapping (columnMapping : UIMapping)
    (selectedFields : list ChartField) : ColumnMapping :=
  let mapping :=
    match lookupUI columnMapping (js "date") with
    | MConfig c =>
        match truthy (mc_column c) with
        | Some column => [(js "date", column)]
        | None => []
        end
    | _ => []
    end in
  fold_left (fun mapping f => setColumn mapping (cf_field f) (cf_column f))
    selectedFields mapping.

(** The rows the chart draws. *)
Definition rows (H : Host) (data : list object) (columnMapping : UIMapping)
    (granularity : Granularity) (selectedFields : list ChartField)
    : list object :=
  chartData
    (aggregatedData H data (aggregatorMapping columnMapping selectedFields)
       granularity (selectedMetrics selectedFields)).

End CustomChart.

(** ** useConfigStorage

    The item [rv_configs] of [localStorage] holds the JSON text of an
    object from configuration name to configuration; the store is that
    object as [JSON.parse] returns it, [None] when the item is absent.  The
    item is taken to be one that [setAllConfigs] wrote.  The order of the
    keys is not modelled: [getSavedConfigs], the one function that depends
    on it, is left out.  A JavaScript value handed to [saveConfig] is of
    type [payload], a value that [JSON.parse] returns of type [json]. *)

(** What [JSON.stringify] makes of the value of a property: it throws, it
    leaves the property out, or it writes a text that parses to [j]. *)
Inductive Encoded (json : Type) :=
| Throws
| Omitted
| Written (j : json).

Arguments Throws {json}.
Arguments Omitted {json}.
Arguments Written {json} j.

(** The browser at the time of a call: whether [getItem] and [setItem]
    return, and the time value of [new Date()]. *)
Record Browser := {
  readable : bool;
  writable : bool;
  clock : Z
}.

Section ConfigStorage.

Variable payload : Type.
Variable json : Type.
Variable encode : payload -> Encoded json.

(** A stored configuration; [savedAt] is the time value that the ISO text
    denotes. *)
Record Config := {
  c_name : jsstring;
  c_savedAt : Z;
  c_mappings : option json;
  c_charts : option json
}.

Definition Configs := list (jsstring * Config).

(** [configs[name]]: an own property, a property of [Object.prototype],
    or [undefined]. *)
Inductive Found :=
| OwnProperty (config : Config)
| InheritedProperty
| NoProperty.

Definition ownConfig (configs : Configs) (name : jsstring) : option Config :=
  match find (fun kv => str_eqb (fst kv) name) configs with
  | Some (_, c) => Some c
  | None => None
  end.

Definition lookupConfig (configs : Configs) (name : jsstring) : Found :=
  match ownConfig configs name with
  | Some c => OwnProperty c
  | None => if inheritedName name then InheritedProperty else NoProperty
  end.

(** [!!configs[name]]: configurations and the properties of
    [Object.prototype] are truthy. *)
Definition isFound (f : Found) : bool :=
  match f with NoProperty => false | _ => true end.

(** [delete configs[name]] *)
Definition removeConfig (configs : Configs) (name : jsstring) : Configs :=
  filter (fun kv => negb (str_eqb (fst kv) name)) configs.

(** [configs[name] = config]; an assignment to [__proto__] sets the
    prototype and adds no property. *)
Fixpoint putConfig (configs : Configs) (name : jsstring) (config : Config)
    : Configs :=
  match configs with
  | (k, c) :: rest =>
      if str_eqb k name then (k, config) :: rest
      else (k, c) :: putConfig rest name config
  | [] => [(name, config)]
  end.

Definition assignConfig (configs : Configs) (name : jsstring)
    (config : Config) : Configs :=
  if str_eqb name (js "__proto__") then configs
  else putConfig configs name config.

Definition getAllConfigs (browser : Browser) (store : option Configs)
    : Configs :=
  if readable browser then
    match store with
    | Some configs => configs
    | None => []
    end
  else [].

(** The store after the call, and the result. *)
Definition setAllConfigs (browser : Browser) (store : option Configs)
    (configs : Configs) : option Configs * bool :=
  if writable browser then (Some configs, true) else (store, false).

Definition written (e : Encoded json) : option json :=
  match e with Written j => Some j | _ => None end.

Definition throws (e : Encoded json) : bool :=
  match e with Throws => true | _ => false end.

Definition saveConfig (browser : Browser) (store : option Configs)
    (name : jsstring) (mappings charts : payload) : option Configs * bool :=
  if isEmpty name then (store, false)
  else
    let configs := getAllConfigs browser store in
    if str_eqb name (js "__proto__") then setAllConfigs browser store configs
    else if throws (encode mappings) || throws (encode charts)
    then (store, false)
    else
      setAllConfigs browser store
        (putConfig configs name
           {| c_name := name;
              c_savedAt := clock browser;
              c_mappings := written (encode mappings);
              c_charts := written (encode charts) |}).

(** The object [loadConfig] returns. *)
Record Loaded := {
  l_mappings : option json;
  l_charts : option json
}.

Definition loadConfig (browser : Browser) (store : option Configs)
    (name : jsstring) : option Loaded :=
  match lookupConfig (getAllConfigs browser store) name with
  | OwnProperty config =>
      Some {| l_mappings := c_mappings config; l_charts := c_charts config |}
  | InheritedProperty => Some {| l_mappings := None; l_charts := None |}
  | NoProperty => None
  end.

Definition deleteConfig (browser : Browser) (store : option Configs)
    (name : jsstring) : option Configs * bool :=
  let configs := getAllConfigs browser store in
  if negb (isFound (lookupConfig configs name)) then (store, false)
  else setAllConfigs browser store (removeConfig configs name).

Definition renameConfig (browser : Browser) (store : option Configs)
    (oldName newName : jsstring) : option Configs * bool :=
  if isEmpty newName then (store, false)
  else
    let configs := getAllConfigs browser store in
    if negb (isFound (lookupConfig configs oldName)) then (store, false)
    else if isFound (lookupConfig configs newName)
            && negb (str_eqb oldName newName)
    then (store, false)
    else
      let config := lookupConfig configs oldName in
      let renamed :=
        {| c_name := newName;
           c_savedAt := clock browser;
           c_mappings :=
             match config with OwnProperty c => c_mappings c | _ => None end;
           c_charts :=
             match config with OwnProperty c => c_charts c | _ => None end |} in
      setAllConfigs browser store
        (assignConfig (removeConfig configs oldName) newName renamed).

Definition configExists (browser : Browser) (store : option Configs)
    (name : jsstring) : bool :=
  isFound (lookupConfig (getAllConfigs browser store) name).

End ConfigStorage.

(** ** ColumnMapper: the state [mappings] *)

Module ColumnMapper.

(** [{...prev, [field]: value}] *)
Fixpoint setMapping (prev : UIMapping) (field : jsstring) (value : MappingValue)
    : UIMapping :=
  match prev with
  | (k, v) :: rest =>
      if str_eqb k field then (k, value) :: rest
      else (k, v) :: setMapping rest field value
  | [] => [(field, value)]
  end.

(** What the handlers read of [prev[field]]: the properties of a
    configuration; a string has none of them. *)
Definition configOf (value : MappingValue) : MappingConfig :=
  match value with
  | MConfig config => config
  | _ => {| mc_column := None; mc_label := None; mc_color := None;
            mc_isPercentage := None; mc_formula := None |}
  end.

(** [prev[field]] is truthy. *)
Definition isMapped (value : MappingValue) : bool :=
  match value with
  | MConfig _ => true
  | MString (_ :: _) => true
  | _ => false
  end.

Definition handleMappingChange (prev : UIMapping) (field columnName : jsstring)
    : UIMapping :=
  let old := configOf (lookupUI prev field) in
  setMapping prev field
    match columnName with
    | [] => MUndefined
    | _ :: _ =>
        MConfig
          {| mc_column := Some columnName;
             mc_label := Some (orElse (mc_label old) columnName);
             mc_color := Some (orElse (mc_color old) (colorAt (length prev)));
             mc_isPercentage :=
               Some (EngagementChart.isTrue (mc_isPercentage old));
             mc_formula := mc_formula old |}
    end.

(** [prev[field] ? {...prev[field], label} : undefined]; the spread of a
    string has its characters as properties, which nothing reads. *)
Definition handleLabelChange (prev : UIMapping) (field label : jsstring)
    : UIMapping :=
  let value := lookupUI prev field in
  let old := configOf value in
  setMapping prev field
    (if isMapped value then
       MConfig {| mc_column := mc_column old;
                  mc_label := Some label;
                  mc_color := mc_color old;
                  mc_isPercentage := mc_isPercentage old;
                  mc_formula := mc_formula old |}
     else MUndefined).

Definition handlePercentageToggle (prev : UIMapping) (field : jsstring)
    : UIMapping :=
  let value := lookupUI prev field in
  let old := configOf value in
  setMapping prev field
    (if isMapped value then
       MConfig {| mc_column := mc_column old;
                  mc_label := mc_label old;
                  mc_color := mc_color old;
                  mc_isPercentage :=
                    Some (negb (EngagementChart.isTrue (mc_isPercentage old)));
                  mc_formula := mc_formula old |}
     else MUndefined).

Definition handleColorChange (prev : UIMapping) (field color : jsstring)
    : UIMapping :=
  let value := lookupUI prev field in
  let old := configOf value in
  setMapping prev field
    (if isMapped value then
       MConfig {| mc_column := mc_column old;
                  mc_label := mc_label old;
                  mc_color := Some color;
                  mc_isPercentage := mc_isPercentage old;
                  mc_formula := mc_formula old |}
     else MUndefined).

Definition handleFormulaChange (prev : UIMapping) (field formula : jsstring)
    : UIMapping :=
  let value := lookupUI prev field in
  let old := configOf value in
  setMapping prev field
    (if isMapped value then
       MConfig {| mc_column := mc_column old;
                  mc_label := mc_label old;
                  mc_color := mc_color old;
                  mc_isPercentage := mc_isPercentage old;
                  mc_formula := Some formula |}
     else MUndefined).

(** [delete newMappings[fieldKey]] *)
Definition handleRemoveCustomField (prev : UIMapping) (fieldKey : jsstring)
    : UIMapping :=
  filter (fun kv => negb (str_eqb (fst kv) fieldKey)) prev.

(** [!!mappings.date?.column] *)
Definition isValid (mappings : UIMapping) : bool :=
  match configColumn (lookupUI mappings (js "date")) with
  | Some _ => true
  | None => false
  end.

(** [mapping.formula && mapping.column === '__formula__'] *)
Definition hasFormulaColumn (config : MappingConfig) : bool :=
  match truthy (mc_formula config) with
  | Some _ => isSome (mc_column config) (js "__formula__")
  | None => false
  end.

Definition getMappingValue (mappings : UIMapping) (field : jsstring)
    : jsstring :=
  match lookupUI mappings field with
  | MUndefined => []
  | MString s => s
  | MConfig config =>
      if hasFormulaColumn config then js "__formula__"
      else orElse (mc_column config) []
  end.

End ColumnMapper.

(** * Notions of the statements *)

Definition str_eq_dec (a b : jsstring) : {a = b} + {a <> b} :=
  list_eq_dec N.eq_dec a b.

(** The host [H] with another evaluator. *)
Definition withEvaluator (H : Host) (ev : jsstring -> option number) : Host :=
  {| numberToString := numberToString H;
     dateToString := dateToString H;
     toLowerCase := toLowerCase H;
     evalArithmetic := ev;
     parseISO := parseISO H;
     dateFromString := dateFromString H;
     format := format H |}.

(** The expression after substitution, [None] when a reference has no
    numeric value. *)
Definition substituted (H : Host) (formula : jsstring) (row : object)
    (columnMapping : FieldMapping) : option jsstring :=
  substitute H row columnMapping (columnRefs formula) formula.

Definition yearOfDay (d : Z) : Z := fst (fst (civil d)).

(** The first day of the month and of the quarter of a day number. *)
Definition monthStart (z : Z) : Z :=
  let '(y, m, _) := civil z in daysFromCivil y m 1.

Definition quarterStart (z : Z) : Z :=
  let '(y, m, _) := civil z in
  daysFromCivil y ((m - 1) - (m - 1) mod 3 + 1) 1.

Definition eraOf (z : Z) : Z := (z + 719468) / 146097.
Definition dayOfEra (z : Z) : Z := (z + 719468) mod 146097.
Definition yearOfEra (doe : Z) : Z :=
  (doe - doe / 1460 + doe / 36524 - doe / 146096) / 365.
Definition dayOfYear (doe : Z) : Z :=
  doe - (365 * yearOfEra doe + yearOfEra doe / 4 - yearOfEra doe / 100).
Definition marchMonth (doe : Z) : Z := (5 * dayOfYear doe + 2) / 153.

(** Months counted from March of the year 0. *)
Definition marchIndex (z : Z) : Z :=
  4800 * eraOf z + 12 * yearOfEra (dayOfEra z) + marchMonth (dayOfEra z).

(** Months counted from January of the year 0. *)
Definition monthIndex (z : Z) : Z :=
  let '(y, m, _) := civil z in 12 * y + (m - 1).

Definition firstOfMonth (i : Z) : Z := daysFromCivil (i / 12) (i mod 12 + 1) 1.

Definition sameUpToCase (H : Host) (a b : jsstring) : Prop :=
  toLowerCase H a = toLowerCase H b.

(** The entry names the reference by its column, its label or its field. *)
Definition namesReference (entry : jsstring * FieldConfig) (name : jsstring)
    : Prop :=
  column (snd entry) = Some name \/ label (snd entry) = Some name
  \/ fst entry = name.

(** The value of a reference in the words of the resolution order: the
    cell under the exact key; else the cell under the first key equal up
    to case; else, through the first mapping entry that names the
    reference, the cell under its actual column if the row has it; else
    nothing.  A stage that finds its key decides, whatever the cell
    holds. *)
Inductive Resolves (H : Host) (row : object) (cm : FieldMapping)
    (name : jsstring) : option number -> Prop :=
| ResolvesExact :
    hasOwnProperty row name = true ->
    Resolves H row cm name (Some (parseFloat H (getProp row name)))
| ResolvesUpToCase l1 key cell l2 :
    hasOwnProperty row name = false ->
    row = l1 ++ (key, cell) :: l2 ->
    sameUpToCase H key name ->
    (forall kv, In kv l1 -> ~ sameUpToCase H (fst kv) name) ->
    Resolves H row cm name (Some (parseFloat H cell))
| ResolvesMapping m1 entry m2 :
    (forall kv, In kv row -> ~ sameUpToCase H (fst kv) name) ->
    cm = m1 ++ entry :: m2 ->
    namesReference entry name ->
    (forall e, In e m1 -> ~ namesReference e name) ->
    Resolves H row cm name
      (if hasOwnProperty row (actualColumnOf (snd entry) name)
       then Some (parseFloat H (getProp row (actualColumnOf (snd entry) name)))
       else None)
| ResolvesNothing :
    (forall kv, In kv row -> ~ sameUpToCase H (fst kv) name) ->
    (forall e, In e cm -> ~ namesReference e name) ->
    Resolves H row cm name None.

(** The number a reference stands for once it has resolved. *)
Definition valueOf (H : Host) (row : object) (cm : FieldMapping)
    (ref : jsstring) : number :=
  match lookupValue H row cm (trim (slice1 ref)) with
  | Some v => v
  | None => NaN
  end.

(** Every reference in turn replaced by the text of its number. *)
Definition replaceReferences (H : Host) (row : object) (cm : FieldMapping)
    (refs : list jsstring) (expression : jsstring) : jsstring :=
  fold_left
    (fun e ref => splitJoin ref (numberToString H (valueOf H row cm ref)) e)
    refs expression.

Definition sameType (a b : ColumnType) : bool :=
  match a, b with
  | TDate, TDate | TNumber, TNumber | TPercentage, TPercentage
  | TCurrency, TCurrency | TText, TText => true
  | _, _ => false
  end.

(** [classify] puts the value in the category [c]. *)
Definition countsFor (H : Host) (c : ColumnType) (v : jsvalue) : bool :=
  match classify H v with
  | Some c' => sameType c' c
  | None => false
  end.

(** The number of sampled values that [classify] puts in [c]. *)
Definition matches (H : Host) (c : ColumnType) (s : list jsvalue) : nat :=
  length (filter (countsFor H c) s).

Definition reachesThreshold (count total : nat) : bool :=
  (6 * total <=? 10 * count)%nat.

(** *** The categories of a sampled value

    The four tests of a value in the words of the specification, on the
    value and on its text [String(value).trim()], and the one category a
    value counts for: the first, in the order percentage, currency, date,
    number, whose test it passes. *)

Definition cellText (H : Host) (v : jsvalue) : jsstring :=
  trim (toStringValue H v).

(** The value is a number between [lo] and [hi], the bounds excluded when
    [strict]. *)
Definition numberBetween (strict : bool) (lo hi : Q) (v : jsvalue) : bool :=
  match v with
  | VNum (Finite q) =>
      if strict then negb (Qle_bool q lo) && negb (Qle_bool hi q)
      else Qle_bool lo q && Qle_bool q hi
  | _ => false
  end.

(** The text contains [%], or the value is a number from 0 to 1. *)
Definition percentageValue (H : Host) (v : jsvalue) : bool :=
  existsb (N.eqb 37) (cellText H v) || numberBetween false 0%Q 1%Q v.

(** Dollar, euro, pound and yen. *)
Definition currencyGlyphs : jsstring := [36; 8364; 163; 165]%N.

(** The text begins or ends with a currency glyph. *)
Definition currencyValue (H : Host) (v : jsvalue) : bool :=
  let isGlyph c := existsb (N.eqb c) currencyGlyphs in
  existsb isGlyph (firstn 1 (cellText H v))
  || existsb isGlyph (firstn 1 (rev (cellText H v))).

(** The run of characters of class [p] at the head of [s] has [lo] to
    [hi] characters: what follows the run. *)
Definition afterRun (p : N -> bool) (lo : nat) (hi : option nat)
    (s : jsstring) : option jsstring :=
  let (run, rest) := span p s in
  if ((lo <=? length run)
      && match hi with Some h => length run <=? h | None => true end)%nat
  then Some rest else None.

(** [s] begins with [c]: what follows it. *)
Definition afterChar (c : N) (s : jsstring) : option jsstring :=
  match s with
  | c' :: rest => if (c =? c')%N then Some rest else None
  | [] => None
  end.

(** [s] without [c] at its head. *)
Definition afterOptionalChar (c : N) (s : jsstring) : jsstring :=
  match afterChar c s with Some rest => rest | None => s end.

(** [s] begins with at least [n] characters of class [p]. *)
Definition headedBy (p : N -> bool) (n : nat) (s : jsstring) : bool :=
  (n <=? length (fst (span p s)))%nat.

Definition next (o : option jsstring) (f : jsstring -> option jsstring)
    : option jsstring :=
  match o with Some s => f s | None => None end.

Definition finally (o : option jsstring) (f : jsstring -> bool) : bool :=
  match o with Some s => f s | None => false end.

(** Four digits, a dash, one or two digits, a dash, a digit: the text
    begins like [YYYY-MM-DD]. *)
Definition yearFirstDate (s : jsstring) : bool :=
  finally
    (next (next (next (afterRun isDigit 4 (Some 4%nat) s) (afterChar 45%N))
             (afterRun isDigit 1 (Some 2%nat))) (afterChar 45%N))
    (headedBy isDigit 1).

(** One or two digits, the separator, one or two digits, the separator,
    two digits: the text begins like [MM/DD/YYYY] or [DD-MM-YYYY]. *)
Definition separatedDate (separator : N) (s : jsstring) : bool :=
  finally
    (next (next (next (afterRun isDigit 1 (Some 2%nat) s) (afterChar separator))
             (afterRun isDigit 1 (Some 2%nat))) (afterChar separator))
    (headedBy isDigit 2).

(** Three letters, white space, one or two digits, a comma or none, white
    space, four digits: the text begins like [Mon D, YYYY]. *)
Definition monthNameDate (s : jsstring) : bool :=
  finally
    (next (next (next (afterRun isLetter 3 (Some 3%nat) s)
                   (afterRun isWhiteSpace 1 None))
             (afterRun isDigit 1 (Some 2%nat)))
       (fun rest => afterRun isWhiteSpace 1 None (afterOptionalChar 44%N rest)))
    (headedBy isDigit 4).

(** The text begins with one of the four textual date patterns. *)
Definition dateText (s : jsstring) : bool :=
  yearFirstDate s || separatedDate 47%N s || separatedDate 45%N s
  || monthNameDate s.

(** The value is a number strictly between 30000 and 50000, or its text
    begins with a date pattern. *)
Definition dateValue (H : Host) (v : jsvalue) : bool :=
  numberBetween true (inject_Z 30000) (inject_Z 50000) v
  || dateText (cellText H v).

(** Dollar, comma, euro, pound and percent: the symbols stripped before a
    number is read. *)
Definition strippedSymbols : jsstring := [36; 44; 8364; 163; 37]%N.

(** The text without the stripped symbols parses as a float. *)
Definition numberValue (H : Host) (v : jsvalue) : bool :=
  negb (isNaN (parseFloatString
                 (filter (fun c => negb (existsb (N.eqb c) strippedSymbols))
                    (cellText H v)))).

(** The value counts for the category [c]: it passes the test of [c] and
    of no category before it. *)
Definition countsAs (H : Host) (c : ColumnType) (v : jsvalue) : bool :=
  match c with
  | TPercentage => percentageValue H v
  | TCurrency => negb (percentageValue H v) && currencyValue H v
  | TDate =>
      negb (percentageValue H v) && negb (currencyValue H v) && dateValue H v
  | TNumber =>
      negb (percentageValue H v) && negb (currencyValue H v)
      && negb (dateValue H v) && numberValue H v
  | TText => false
  end.

(** [null], [undefined] and the empty string. *)
Definition emptyCell (v : jsvalue) : bool :=
  match v with
  | VNull | VUndefined => true
  | VStr s => isEmpty s
  | _ => false
  end.

(** *** ISO 8601 dates *)

(** A character of an ISO 8601 time of day or offset. *)
Definition isTimeChar (c : N) : bool :=
  isDigit c || ((c =? 58) || (c =? 46) || (c =? 90) || (c =? 43) || (c =? 45))%N.

(** The ISO 8601 calendar date in its extended form: [YYYY-MM-DD] with a
    month from 01 to 12 and a day that the month has, alone or followed
    by [T] and a time. *)
Definition isCalendarDate (s : jsstring) : bool :=
  match Reference.calendarDate (firstn 10 s), skipn 10 s with
  | Some _, [] => true
  | Some _, t :: time => (t =? 84)%N && forallb isTimeChar time
  | None, _ => false
  end.

Definition isCalendarDateValue (v : jsvalue) : bool :=
  match v with VStr s => isCalendarDate s | _ => false end.

(** The parts of a date of ISO 8601: the year of four digits, the month
    and the day of the month of two, the day of the year of three, the
    week of two and the day of the week of one, and a character that
    stands for itself. *)
Inductive DatePart :=
  Year | Month | Day | Ordinal | Week | Weekday | Sign (c : N).

(** The other forms: [YYYYMMDD], [YYYY-MM], [YYYY-DDD], [YYYYDDD],
    [YYYY-Www-D], [YYYY-Www], [YYYYWwwD] and [YYYYWww]. *)
Definition otherDateForms : list (list DatePart) :=
  [ [Year; Month; Day];
    [Year; Sign 45%N; Month];
    [Year; Sign 45%N; Ordinal];
    [Year; Ordinal];
    [Year; Sign 45%N; Sign 87%N; Week; Sign 45%N; Weekday];
    [Year; Sign 45%N; Sign 87%N; Week];
    [Year; Sign 87%N; Week; Weekday];
    [Year; Sign 87%N; Week] ].

(** [n] digits at the head of [s]: their value and what follows them. *)
Definition readNumber (n : nat) (s : jsstring) : option (Z * jsstring) :=
  if (length (firstn n s) =? n)%nat && forallb isDigit (firstn n s)
  then Some (digitsValue (firstn n s), skipn n s)
  else None.

Definition daysInYear (y : Z) : Z :=
  daysFromCivil (y + 1) 1 1 - daysFromCivil y 1 1.

(** The weeks of a year: 53 when its first or its last day is a Thursday,
    52 otherwise. *)
Definition weeksInYear (y : Z) : Z :=
  if ((daysFromCivil y 1 1 + 4) mod 7 =? 4)
     || ((daysFromCivil y 12 31 + 4) mod 7 =? 4)
  then 53 else 52.

(** [s] is made of the [parts], each within its range for the year [y]
    and the month [m] read before it. *)
Fixpoint readParts (parts : list DatePart) (y m : Z) (s : jsstring) : bool :=
  let number n (k : Z -> jsstring -> bool) :=
    match readNumber n s with
    | Some (v, rest) => k v rest
    | None => false
    end in
  match parts with
  | [] => isEmpty s
  | Sign c :: parts' => finally (afterChar c s) (readParts parts' y m)
  | Year :: parts' => number 4%nat (fun v => readParts parts' v m)
  | Month :: parts' =>
      number 2%nat (fun v rest =>
        (1 <=? v) && (v <=? 12) && readParts parts' y v rest)
  | Day :: parts' =>
      number 2%nat (fun v rest =>
        (1 <=? v) && (v <=? Reference.daysInMonth y m)
        && readParts parts' y m rest)
  | Ordinal :: parts' =>
      number 3%nat (fun v rest =>
        (1 <=? v) && (v <=? daysInYear y) && readParts parts' y m rest)
  | Week :: parts' =>
      number 2%nat (fun v rest =>
        (1 <=? v) && (v <=? weeksInYear y) && readParts parts' y m rest)
  | Weekday :: parts' =>
      number 1%nat (fun v rest =>
        (1 <=? v) && (v <=? 7) && readParts parts' y m rest)
  end.

(** A valid ISO 8601 date: the calendar date in extended form, or a date
    in one of the other forms, alone or followed by [T] and a time. *)
Definition isISODate (s : jsstring) : bool :=
  isCalendarDate s
  || (let (date, rest) := span (fun c => negb (c =? 84)%N) s in
      existsb (fun parts => readParts parts 0 0 date) otherDateForms
      && forallb isTimeChar (tl rest)).

Definition isISODateValue (v : jsvalue) : bool :=
  match v with VStr s => isISODate s | _ => false end.

(** The rows whose date parses, each with its parsed date. *)
Definition parsedRows (H : Host) (dateColumn : jsstring)
    (rawData : list object) : list (Z * object) :=
  flat_map (fun row =>
              match parseDate H (getProp row dateColumn) with
              | Some d => [(d, row)]
              | None => []
              end) rawData.

Definition pushParsed (key : Z -> jsstring) (groups : list Period)
    (dr : Z * object) : list Period :=
  pushRow groups (key (fst dr)) (fst dr) (snd dr).

(** The map of periods after the parsed rows [l], in insertion order. *)
Definition groupParsed (key : Z -> jsstring) (l : list (Z * object))
    (groups : list Period) : list Period :=
  fold_left (pushParsed key) l groups.

Definition keys (groups : list Period) : list jsstring :=
  map p_periodKey groups.

Definition total (groups : list Period) : nat :=
  list_sum (map (fun p => length (p_rows p)) groups).

(** Every period holds the key of its own date. *)
Definition keyed (key : Z -> jsstring) (groups : list Period) : Prop :=
  Forall (fun p => p_periodKey p = key (p_date p)) groups.

Definition byDate (a b : Period) : Prop := p_date a <= p_date b.

Definition bucketStart (granularity : Granularity) (t : Z) : Z :=
  match granularity with
  | DAILY | OtherGranularity => startOfDay t
  | MONTHLY => startOfMonth t
  | QUARTERLY => startOfQuarter t
  end.

Definition periodKeyOf (o : object) : jsvalue := getProp o (js "periodKey").
Definition dateOf (o : object) : jsvalue := getProp o (js "date").
Definition rowCountOf (o : object) : jsvalue := getProp o (js "rowCount").

Definition fields (metrics : list Metric) : list jsstring := map field metrics.

(** The periods of an aggregation, sorted. *)
Definition periodsOf (H : Host) (dateColumn : jsstring) (g : Granularity)
    (rawData : list object) : list Period :=
  sortPeriods
    (groupParsed (fun d => getPeriodKey H d g)
       (parsedRows H dateColumn rawData) []).

(** Two January rows, the later one first, and a February row. *)
Definition sampleRows : list object :=
  [ [(js "day", VNum (ofZ 45306)); (js "sales", VStr (js "$50"))];
    [(js "day", VNum (ofZ 45294)); (js "sales", VNum (ofZ 100))];
    [(js "day", VStr (js "n/a")); (js "sales", VNum (ofZ 7))];
    [(js "day", VNum (ofZ 45323)); (js "sales", VNum (ofZ 200))] ].

Definition sampleMapping : ColumnMapping := [(js "date", js "day")].

Definition sampleMetrics : list Metric :=
  [ {| field := js "sales"; aggregationType := SUM |} ].

(** The rows of the monthly scenario of the specification. *)
Definition scenarioRows : list object :=
  [ [(js "date", VStr (js "2024-01-01")); (js "sales", VNum (ofZ 100))];
    [(js "date", VStr (js "2024-01-15")); (js "sales", VNum (ofZ 50))];
    [(js "date", VStr (js "2024-02-01")); (js "sales", VNum (ofZ 200))] ].

(** * Notions of the statements about the functions around the engine *)

(** The input rows whose date parses to a date of the period [k], in input
    order. *)
Definition periodRows (H : Host) (dateColumn : jsstring) (g : Granularity)
    (rawData : list object) (k : jsstring) : list object :=
  filter (fun row =>
            match parseDate H (getProp row dateColumn) with
            | Some d => str_eqb (getPeriodKey H d g) k
            | None => false
            end) rawData.

(** The parsed rows of the key [k]. *)
Definition rowsOfKey (key : Z -> jsstring) (k : jsstring)
    (l : list (Z * object)) : list object :=
  map snd (filter (fun dr => str_eqb (key (fst dr)) k) l).

(** The numbers a metric reads from rows. *)
Definition metricNumbers (cm : ColumnMapping) (rows : list object)
    (m : Metric) : list number :=
  validValues (metricValues cm rows m).

(** The rational a finite number holds. *)
Definition rational (n : number) : Q :=
  match n with Finite q => q | _ => 0%Q end.

Definition exactSum (ns : list number) : Q :=
  fold_right Qplus 0%Q (map rational ns).

(** The number is an integer. *)
Definition isInteger (n : number) : bool :=
  match n with
  | Finite q => Qeq_bool q (inject_Z (Qfloor q))
  | _ => false
  end.

(** The sum of the absolute values of the numbers. *)
Definition absoluteSum (ns : list number) : Q :=
  fold_right (fun n total => Qabs (rational n) + total)%Q 0%Q ns.

(** A string of white space. *)
Definition blank (w : jsstring) : Prop :=
  Forall (fun c => isWhiteSpace c = true) w.

(** The test of a column that counts as a metric for [needsMapping]. *)
Definition metricTest (H : Host) (column : jsstring) : bool :=
  someIncluded Names.salesPatterns (toLowerCase H column)
  || someIncluded Names.ctrPatterns (toLowerCase H column)
  || someIncluded Names.impressionPatterns (toLowerCase H column).

(** The cells of a column. *)
Definition cells (jsonData : list object) (column : jsstring) : list jsvalue :=
  map (fun row => getProp row column) jsonData.

(** The entry of the mapping is pushed by the loop over the entries. *)
Definition customTest (H : Host) (entry : jsstring * MappingValue) : bool :=
  negb (existsb (str_eqb (fst entry)) EngagementChart.primaryFields)
  && match snd entry with
     | MConfig config =>
         match truthy (mc_column config) with
         | Some column =>
             EngagementChart.isTrue (mc_isPercentage config)
             || someIncluded EngagementChart.engagementKeywords
                  (toLowerCase H (orElse (mc_label config) column))
         | None => false
         end
     | _ => false
     end.

(** The keys of a row of the [chartData] of [useDataAggregator]. *)
Definition chartKeys (metrics : list Metric) : list jsstring :=
  [js "periodKey"; js "label"; js "date"; js "rowCount"; js "name"]
  ++ fields metrics.

(** A mapping with a formula field, and three rows of two days. *)
Definition engagementMapping : UIMapping :=
  [ (js "date", MString (js "Day"));
    (js "clicks",
     MConfig {| mc_column := Some (js "Clicks"); mc_label := None;
                mc_color := None; mc_isPercentage := None;
                mc_formula := None |});
    (js "impressions",
     MConfig {| mc_column := Some (js "Impr"); mc_label := None;
                mc_color := None; mc_isPercentage := None;
                mc_formula := None |});
    (js "custom_rate",
     MConfig {| mc_column := Some (js "__formula__");
                mc_label := Some (js "Click rate");
                mc_color := None; mc_isPercentage := Some true;
                mc_formula := Some (js "{clicks} / {impressions}") |}) ].

Definition engagementData : list object :=
  [ [(js "Day", VNum (ofZ 45294)); (js "Clicks", VNum (ofZ 10));
     (js "Impr", VNum (ofZ 100))];
    [(js "Day", VNum (ofZ 45294)); (js "Clicks", VNum (ofZ 20));
     (js "Impr", VNum (ofZ 300))];
    [(js "Day", VNum (ofZ 45295)); (js "Clicks", VNum (ofZ 5));
     (js "Impr", VNum (ofZ 50))] ].

(** The formula metric, as [availableMetrics] builds it. *)
Definition rateMetric : ChartMetric :=
  {| cm_field := js "custom_rate"; cm_label := js "Click rate";
     cm_aggregationType := AVERAGE; cm_color := colorAt 2;
     cm_isPercentage := true;
     cm_formula := Some (js "{clicks} / {impressions}") |}.

(** The numbers of a column over rows. *)
Definition columnValues (column : jsstring) (rows : list object)
    : list jsvalue :=
  map VNum
    (keepSome (map (fun row => parseNumericValue (getProp row column)) rows)).

(** A mapping with a configured date column, and a raw column chosen for
    a custom chart. *)
Definition customMapping : UIMapping :=
  [ (js "date",
     MConfig {| mc_column := Some (js "Day"); mc_label := None;
                mc_color := None; mc_isPercentage := None;
                mc_formula := None |}) ].

Definition clicksField : ChartField :=
  {| cf_field := js "raw_Clicks"; cf_label := js "Clicks";
     cf_column := js "Clicks"; cf_isPercentage := false;
     cf_color := colorAt 0 |}.

(** A browser whose storage works, and a store with one configuration whose
    payloads are numbers that [JSON.stringify] writes as they are. *)
Definition workingBrowser : Browser :=
  {| readable := true; writable := true; clock := 1700000000000 |}.

Definition oneConfig : option (Configs nat) :=
  Some [ (js "spring",
          {| c_name := js "spring"; c_savedAt := 1600000000000;
             c_mappings := Some 1%nat; c_charts := Some 2%nat |}) ].

(** A zone whose clocks ran 7 h 6 min 30 s ahead of UTC, a local mean
    time, until 1 May 1911, and run 7 h ahead since. *)
Definition meanTimeZone : TimeZone :=
  let change := daysFromCivil 1911 5 1 * msPerDay in
  {| localTime := fun t =>
       if t <? change - 25590000 then t + 25590000 else t + 25200000;
     utc := fun t =>
       if t <? change then t - 25590000 else t - 25200000 |}.

(** * Properties *)

(** ** Strings and objects *)

Lemma str_eqb_eq (a b : jsstring) : str_eqb a b = true <-> a = b.
Proof.
  revert b; induction a as [|x a IH]; intros [|y b]; simpl; split;
    try congruence; try reflexivity.
  - intros E. apply andb_true_iff in E as [E1 E2].
    apply N.eqb_eq in E1. apply IH in E2. congruence.
  - intros E. injection E as -> ->.
    rewrite N.eqb_refl. simpl. now apply IH.
Qed.

Lemma str_eqb_refl (a : jsstring) : str_eqb a a = true.
Proof. now apply str_eqb_eq. Qed.

Lemma str_eqb_neq (a b : jsstring) : str_eqb a b = false <-> a <> b.
Proof.
  rewrite <- str_eqb_eq. destruct (str_eqb a b); split; congruence.
Qed.

Lemma getProp_setProp_same (o : object) (k : jsstring) (v : jsvalue) :
  getProp (setProp o k v) k = v.
Proof.
  induction o as [|[k' v'] o IH]; simpl.
  - now rewrite str_eqb_refl.
  - destruct (str_eqb k' k) eqn:E; simpl; rewrite E; auto.
Qed.

Lemma getProp_setProp_other (o : object) (k k' : jsstring) (v : jsvalue) :
  k <> k' -> getProp (setProp o k v) k' = getProp o k'.
Proof.
  intros N. induction o as [|[k0 v0] o IH]; simpl.
  - apply str_eqb_neq in N. now rewrite N.
  - destruct (str_eqb k0 k) eqn:E; simpl.
    + apply str_eqb_eq in E. subst k0.
      apply str_eqb_neq in N. now rewrite N.
    + destruct (str_eqb k0 k'); auto.
Qed.

(** ** parseNumericValue *)

Lemma removeSymbols_app (a b : jsstring) :
  removeSymbols (a ++ b) = removeSymbols a ++ removeSymbols b.
Proof. apply filter_app. Qed.

Lemma removeSymbols_insert (a b : jsstring) (c : N) :
  isStrippedSymbol c = true -> removeSymbols (a ++ c :: b) = removeSymbols (a ++ b).
Proof.
  intros E. rewrite !removeSymbols_app. f_equal.
  unfold removeSymbols. simpl. now rewrite E.
Qed.

Lemma removeSymbols_clean (s : jsstring) :
  forallb (fun c => negb (isStrippedSymbol c)) s = true -> removeSymbols s = s.
Proof.
  induction s as [|c s IH]; simpl; auto.
  intros E. apply andb_true_iff in E as [E1 E2].
  unfold removeSymbols in *. simpl. rewrite E1. f_equal. auto.
Qed.

Lemma parseNumericValue_not_NaN (v : jsvalue) (n : number) :
  parseNumericValue v = Some n -> isNaN n = false.
Proof.
  destruct v; simpl; try discriminate.
  - destruct (isNaN n0) eqn:E; simpl; intros [= <-]; auto.
  - destruct (isNaN (parseFloatString _)) eqn:E; intros [= <-]; auto.
Qed.

(** C5, as the code has it: every number other than NaN, the infinities
    included, is returned unchanged; a string is parsed by [parseFloat]
    after the characters [$], [,], [€], [£] and [%] are removed wherever
    they stand and the rest is trimmed, and is [null] when that parse is
    NaN; ["$100"], ["$250"] and ["$3,000"] give 100, 250 and 3000; NaN and
    every value that is neither a number nor a string give [null]. *)
Theorem parseNumericValue_cases :
  (forall n, isNaN n = false -> parseNumericValue (VNum n) = Some n)
  /\ parseNumericValue (VNum NaN) = None
  /\ (forall a b c, isStrippedSymbol c = true ->
        parseNumericValue (VStr (a ++ c :: b)) = parseNumericValue (VStr (a ++ b)))
  /\ (forall s, forallb (fun c => negb (isStrippedSymbol c)) s = true ->
        parseNumericValue (VStr s)
        = if isNaN (parseFloatString (trim s)) then None
          else Some (parseFloatString (trim s)))
  /\ map isStrippedSymbol [36; 44; 8364; 163; 37]%N = [true; true; true; true; true]
  /\ map (fun s => parseNumericValue (VStr (js s))) ["$100"; "$250"; "$3,000"]%string
     = [Some (ofZ 100); Some (ofZ 250); Some (ofZ 3000)]
  /\ (forall v, (forall n, v <> VNum n) -> (forall s, v <> VStr s) ->
        parseNumericValue v = None).
Proof.
  repeat split.
  - intros n E. simpl. now rewrite E.
  - intros a b c E. simpl. now rewrite (removeSymbols_insert a b c E).
  - intros s E. simpl. now rewrite (removeSymbols_clean s E).
  - intros [] Hn Hs; simpl; auto.
    + now elim (Hn n).
    + now elim (Hs s).
Qed.

(** An infinite number, a string with a separator in it, and a
    boolean. *)
Lemma parseNumericValue_cases_witness :
  parseNumericValue (VNum (Infinity true)) = Some (Infinity true)
  /\ parseNumericValue (VStr (js "1" ++ 44%N :: js "234"))
     = parseNumericValue (VStr (js "1" ++ js "234"))
  /\ parseNumericValue (VBool true) = None.
Proof.
  destruct parseNumericValue_cases as (Hnum & _ & Hstrip & _ & _ & _ & Hother).
  split; [apply Hnum; reflexivity|].
  split; [apply Hstrip; reflexivity|].
  apply Hother; discriminate.
Defined.

(** C5 as stated fails: positive infinity is not finite, and it is
    returned, not replaced by [null]; and the yen sign, which
    [detectColumnType] takes for a currency glyph, is not stripped, so
    that a yen amount parses to [null]. *)
Lemma parseNumericValue_keeps_infinity :
  isFinite (Infinity false) = false
  /\ parseNumericValue (VNum (Infinity false)) = Some (Infinity false)
  /\ hasCurrencyGlyph (165%N :: js "100") = true
  /\ parseNumericValue (VStr (165%N :: js "100")) = None.
Proof. repeat split. Qed.

(** ** aggregateValues *)



Lemma fold_aggregateMetric_other (m : ColumnMapping) (rows : list object)
    (metrics : list Metric) (o : object) (k : jsstring) :
  ~ In k (map field metrics) ->
  getProp (fold_left (aggregateMetric m rows) metrics o) k = getProp o k.
Proof.
  revert o. induction metrics as [|x metrics IH]; intros o N; simpl; auto.
  simpl in N. rewrite IH by tauto.
  unfold aggregateMetric. apply getProp_setProp_other. tauto.
Qed.




(** ** evaluateFormula: the character whitelist *)

Lemma rep_star_all (p : N -> bool) (s : jsstring) :
  rep p 0 None isEmpty s = forallb p s.
Proof.
  induction s as [|c s IH]; simpl; auto.
  rewrite andb_true_r. destruct (p c); simpl; auto.
Qed.

(** The test of [allowedExpression] accepts exactly the strings that are
    not empty and hold allowed characters only. *)
Lemma allowedExpression_test (e : jsstring) :
  regexTest allowedExpression e = negb (isEmpty e) && forallb isAllowedChar e.
Proof.
  unfold regexTest, allowedExpression. simpl.
  destruct e as [|c e]; simpl; auto.
  rewrite andb_true_r. destruct (isAllowedChar c); simpl; auto.
  apply rep_star_all.
Qed.

Lemma lookupValue_withEvaluator H ev row cm name :
  lookupValue (withEvaluator H ev) row cm name = lookupValue H row cm name.
Proof. reflexivity. Qed.

Lemma substitute_withEvaluator H ev row cm refs e :
  substitute (withEvaluator H ev) row cm refs e = substitute H row cm refs e.
Proof.
  revert e. induction refs as [|r refs IH]; intros e; simpl; auto.
  destruct (hasOwnProperty row (js "hasOwnProperty")); auto.
  rewrite lookupValue_withEvaluator.
  destruct (lookupValue H row cm (trim (slice1 r))) as [v|]; auto.
  destruct (isNaN v); auto.
Qed.

(** C1: [evaluateFormula] returns a number only as the value the
    evaluator gives for the substituted expression, and only when that
    expression is not empty and each of its characters is a digit, one of
    [+ - * / ( ) .] or white space; when any other character remains the
    result is [null]; and the evaluator is consulted on such expressions
    only, as replacing it by any evaluator that agrees with it on them
    changes no result. *)
Theorem whitelist_guards_evaluation (H : Host) (formula : jsstring)
    (row : object) (columnMapping : FieldMapping) :
  (forall result, evaluateFormula H formula row columnMapping = Some result ->
     exists expression,
       substituted H formula row columnMapping = Some expression
       /\ expression <> []
       /\ Forall (fun c => isAllowedChar c = true) expression
       /\ evalArithmetic H expression = Some result)
  /\ (forall expression c,
        substituted H formula row columnMapping = Some expression ->
        In c expression -> isAllowedChar c = false ->
        evaluateFormula H formula row columnMapping = None)
  /\ (forall ev,
        (forall e, e <> [] -> Forall (fun c => isAllowedChar c = true) e ->
           ev e = evalArithmetic H e) ->
        evaluateFormula (withEvaluator H ev) formula row columnMapping
        = evaluateFormula H formula row columnMapping).
Proof.
  unfold substituted, evaluateFormula.
  destruct formula as [|f0 formula]; [repeat split; intros; discriminate|].
  set (refs := columnRefs (f0 :: formula)).
  set (fm := f0 :: formula).
  assert (Hall : forall e, negb (isEmpty e) && forallb isAllowedChar e = true ->
            e <> [] /\ Forall (fun c => isAllowedChar c = true) e).
  { intros e A. apply andb_true_iff in A as [A1 A2]. split.
    - destruct e; [discriminate A1 | discriminate].
    - apply Forall_forall. now apply forallb_forall. }
  repeat split.
  - intros result. destruct (substitute H row columnMapping refs fm) as [e|];
      [|discriminate].
    rewrite allowedExpression_test.
    destruct (negb (isEmpty e) && forallb isAllowedChar e) eqn:A;
      [|discriminate].
    simpl negb. cbv iota.
    destruct (evalArithmetic H e) as [r|] eqn:Ev; [|discriminate].
    destruct (isFinite r); [|discriminate]. intros [= <-].
    exists e. destruct (Hall e A). auto.
  - intros e c -> HIn Hc. rewrite allowedExpression_test.
    assert (forallb isAllowedChar e = false) as ->; [|now rewrite andb_false_r].
    destruct (forallb isAllowedChar e) eqn:A; auto.
    rewrite forallb_forall in A. rewrite (A c HIn) in Hc. discriminate.
  - intros ev Hev. rewrite substitute_withEvaluator.
    destruct (substitute H row columnMapping refs fm) as [e|]; auto.
    rewrite allowedExpression_test.
    destruct (negb (isEmpty e) && forallb isAllowedChar e) eqn:A; auto.
    simpl negb. cbv iota. simpl evalArithmetic at 1.
    destruct (Hall e A). rewrite Hev; auto.
Qed.

(** The formulas of the specification's examples, on the reference host. *)
Lemma whitelist_guards_evaluation_witness :
  let row := [(js "a", VNum (ofZ 2)); (js "b", VNum (ofZ 3))] in
  (exists expression,
     substituted Reference.host (js "{a} + {b}") row [] = Some expression
     /\ expression <> []
     /\ Forall (fun c => isAllowedChar c = true) expression
     /\ evalArithmetic Reference.host expression = Some (ofZ 5))
  /\ evaluateFormula Reference.host (js "{a}; DROP TABLE") row [] = None.
Proof.
  intros row.
  destruct (whitelist_guards_evaluation Reference.host (js "{a} + {b}") row [])
    as (Hsome & _ & _).
  destruct (whitelist_guards_evaluation Reference.host (js "{a}; DROP TABLE")
              row []) as (_ & Hnone & _).
  split.
  - apply Hsome. reflexivity.
  - apply (Hnone (js "2; DROP TABLE") 59%N); [reflexivity | | reflexivity].
    simpl. tauto.
Defined.

(** ** The calendar is monotone

    The month of a day, counted from January of the year 0, grows with the
    day, and so does the first day of a month with the month. *)

Unset Implicit Arguments.

Lemma dayOfEra_bounds (z : Z) : 0 <= dayOfEra z <= 146096.
Proof. unfold dayOfEra. pose proof (Z.mod_pos_bound (z + 719468) 146097). lia. Qed.

Lemma era_fields (doe : Z) :
  0 <= doe <= 146096 ->
  0 <= yearOfEra doe <= 399 /\ 0 <= dayOfYear doe <= 365
  /\ 0 <= marchMonth doe <= 11.
Proof.
  intros B.
  assert (A : 0 <= yearOfEra doe <= 399 /\ 0 <= dayOfYear doe <= 365).
  { unfold dayOfYear, yearOfEra. Z.div_mod_to_equations. lia. }
  destruct A as [A1 A2]. repeat split; try lia.
  - unfold marchMonth. Z.div_mod_to_equations. lia.
  - unfold marchMonth. Z.div_mod_to_equations. lia.
Qed.

Lemma civil_fields (z : Z) :
  civil z
  = (let mp := marchMonth (dayOfEra z) in
     let m := if mp <? 10 then mp + 3 else mp - 9 in
     (yearOfEra (dayOfEra z) + eraOf z * 400 + (if m <=? 2 then 1 else 0), m,
      dayOfYear (dayOfEra z) - (153 * mp + 2) / 5 + 1)).
Proof. reflexivity. Qed.

Lemma monthIndex_march (z : Z) : monthIndex z = marchIndex z + 2.
Proof.
  unfold monthIndex, marchIndex. rewrite civil_fields. cbv zeta.
  destruct (era_fields (dayOfEra z) (dayOfEra_bounds z)) as (_ & _ & M).
  destruct (marchMonth (dayOfEra z) <? 10) eqn:E.
  - apply Z.ltb_lt in E.
    replace (marchMonth (dayOfEra z) + 3 <=? 2) with false
      by (symmetry; apply Z.leb_gt; lia). lia.
  - apply Z.ltb_ge in E.
    replace (marchMonth (dayOfEra z) - 9 <=? 2) with true
      by (symmetry; apply Z.leb_le; lia). lia.
Qed.

Lemma yearOfEra_step (doe : Z) :
  0 <= doe < 146096 -> yearOfEra doe <= yearOfEra (doe + 1).
Proof. intros B. unfold yearOfEra. Z.div_mod_to_equations. lia. Qed.

Lemma yearOfEra_monotone (a b : Z) :
  0 <= a -> a <= b -> b <= 146096 -> yearOfEra a <= yearOfEra b.
Proof.
  intros A L B. replace b with (a + Z.of_nat (Z.to_nat (b - a))) in * by lia.
  induction (Z.to_nat (b - a)) as [|n IH].
  - rewrite Z.add_0_r. lia.
  - replace (a + Z.of_nat (S n)) with (a + Z.of_nat n + 1) in * by lia.
    pose proof (yearOfEra_step (a + Z.of_nat n)). lia.
Qed.

Lemma march_monotone (a b : Z) :
  0 <= a -> a <= b -> b <= 146096 ->
  12 * yearOfEra a + marchMonth a <= 12 * yearOfEra b + marchMonth b.
Proof.
  intros A L B. pose proof (yearOfEra_monotone a b A L B) as Y.
  destruct (era_fields a ltac:(lia)) as (_ & _ & Ma).
  destruct (era_fields b ltac:(lia)) as (_ & _ & Mb).
  destruct (Z.eq_dec (yearOfEra a) (yearOfEra b)) as [E|N]; [|lia].
  assert (dayOfYear a <= dayOfYear b) by (unfold dayOfYear; rewrite E; lia).
  assert (marchMonth a <= marchMonth b)
    by (unfold marchMonth; apply Z.div_le_mono; lia).
  lia.
Qed.

Lemma marchIndex_monotone (a b : Z) : a <= b -> marchIndex a <= marchIndex b.
Proof.
  intros L. unfold marchIndex.
  pose proof (dayOfEra_bounds a) as Ba. pose proof (dayOfEra_bounds b) as Bb.
  destruct (era_fields _ Ba) as (Ya & _ & Ma).
  destruct (era_fields _ Bb) as (Yb & _ & Mb).
  assert (Ea : a + 719468 = 146097 * eraOf a + dayOfEra a)
    by (unfold eraOf, dayOfEra; apply Z.div_mod; lia).
  assert (Eb : b + 719468 = 146097 * eraOf b + dayOfEra b)
    by (unfold eraOf, dayOfEra; apply Z.div_mod; lia).
  destruct (Z.eq_dec (eraOf a) (eraOf b)) as [E|N].
  - pose proof (march_monotone (dayOfEra a) (dayOfEra b)). lia.
  - assert (eraOf a < eraOf b) by nia. lia.
Qed.

Lemma monthIndex_monotone (a b : Z) : a <= b -> monthIndex a <= monthIndex b.
Proof.
  intros L. rewrite !monthIndex_march. pose proof (marchIndex_monotone a b L). lia.
Qed.

Lemma firstOfMonth_step (i : Z) : firstOfMonth i <= firstOfMonth (i + 1).
Proof.
  unfold firstOfMonth, daysFromCivil.
  assert (R : 0 <= i mod 12 < 12) by (apply Z.mod_pos_bound; lia).
  assert (E : i = 12 * (i / 12) + i mod 12) by (apply Z.div_mod; lia).
  set (q := i / 12) in *. set (r := i mod 12) in *.
  destruct (Z.eq_dec r 11) as [R11|R11].
  - replace ((i + 1) / 12) with (q + 1) by (Z.div_mod_to_equations; lia).
    replace ((i + 1) mod 12) with 0 by (Z.div_mod_to_equations; lia).
    rewrite R11. cbn [Z.leb Z.ltb Z.add Z.compare Pos.compare Pos.compare_cont Pos.add Pos.succ].
    Z.div_mod_to_equations. lia.
  - replace ((i + 1) / 12) with q by (Z.div_mod_to_equations; lia).
    replace ((i + 1) mod 12) with (r + 1) by (Z.div_mod_to_equations; lia).
    destruct (r + 1 <=? 2) eqn:C1; destruct (r + 1 + 1 <=? 2) eqn:C2;
      destruct (2 <? r + 1) eqn:C3; destruct (2 <? r + 1 + 1) eqn:C4;
      try apply Z.leb_le in C1; try apply Z.leb_gt in C1;
      try apply Z.leb_le in C2; try apply Z.leb_gt in C2;
      try apply Z.ltb_lt in C3; try apply Z.ltb_ge in C3;
      try apply Z.ltb_lt in C4; try apply Z.ltb_ge in C4; try lia;
      Z.div_mod_to_equations; lia.
Qed.

Lemma firstOfMonth_monotone (i j : Z) : i <= j -> firstOfMonth i <= firstOfMonth j.
Proof.
  intros L. replace j with (i + Z.of_nat (Z.to_nat (j - i))) by lia.
  induction (Z.to_nat (j - i)) as [|n IH].
  - rewrite Z.add_0_r. lia.
  - replace (i + Z.of_nat (S n)) with (i + Z.of_nat n + 1) by lia.
    pose proof (firstOfMonth_step (i + Z.of_nat n)). lia.
Qed.

Lemma civil_month_range (z : Z) : 1 <= snd (fst (civil z)) <= 12.
Proof.
  rewrite civil_fields. cbv zeta. cbn [fst snd].
  destruct (era_fields (dayOfEra z) (dayOfEra_bounds z)) as (_ & _ & M).
  destruct (marchMonth (dayOfEra z) <? 10) eqn:E.
  - apply Z.ltb_lt in E. lia.
  - apply Z.ltb_ge in E. lia.
Qed.

Lemma monthStart_first (z : Z) : monthStart z = firstOfMonth (monthIndex z).
Proof.
  unfold monthStart, monthIndex, firstOfMonth.
  pose proof (civil_month_range z) as R.
  destruct (civil z) as [[y m] d]. cbn [fst snd] in R.
  f_equal; Z.div_mod_to_equations; lia.
Qed.

Lemma quarterStart_first (z : Z) :
  quarterStart z = firstOfMonth (monthIndex z - monthIndex z mod 3).
Proof.
  unfold quarterStart, monthIndex, firstOfMonth.
  pose proof (civil_month_range z) as R.
  destruct (civil z) as [[y m] d]. cbn [fst snd] in R.
  f_equal; Z.div_mod_to_equations; lia.
Qed.

Lemma yearOfDay_index (z : Z) : yearOfDay z = monthIndex z / 12.
Proof.
  unfold yearOfDay, monthIndex.
  pose proof (civil_month_range z) as R.
  destruct (civil z) as [[y m] d]. cbn [fst snd] in *.
  Z.div_mod_to_equations; lia.
Qed.

Lemma monthStart_monotone a b : a <= b -> monthStart a <= monthStart b.
Proof.
  intros L. rewrite !monthStart_first. apply firstOfMonth_monotone.
  now apply monthIndex_monotone.
Qed.

Lemma quarterStart_monotone a b : a <= b -> quarterStart a <= quarterStart b.
Proof.
  intros L. rewrite !quarterStart_first. apply firstOfMonth_monotone.
  pose proof (monthIndex_monotone a b L). Z.div_mod_to_equations; lia.
Qed.

Lemma yearOfDay_monotone a b : a <= b -> yearOfDay a <= yearOfDay b.
Proof.
  intros L. rewrite !yearOfDay_index. apply Z.div_le_mono; [lia|].
  now apply monthIndex_monotone.
Qed.

Set Implicit Arguments.

Lemma serial_days_years :
  forall d, 4431 <= d <= 24431 -> 1982 <= yearOfDay d <= 2036.
Proof.
  intros d [Lo Hi].
  pose proof (yearOfDay_monotone 4431 d Lo) as A.
  pose proof (yearOfDay_monotone d 24431 Hi) as B.
  change (yearOfDay 4431) with 1982 in A.
  change (yearOfDay 24431) with 2036 in B. lia.
Qed.

(** ** parseDate on numbers *)

Lemma parseDate_number (H : Host) (q : Q) :
  Qeq_bool q 0 = false ->
  parseDate H (VNum (Finite q))
  = newDate (Finite (Qred (inject_Z excelEpoch
                           + Qred (q * inject_Z msPerDay)))%Q).
Proof. intros E. unfold parseDate. simpl isFalsy. now rewrite E. Qed.

Lemma serial_time_value (q : Q) :
  (Qred (inject_Z excelEpoch + Qred (q * inject_Z msPerDay))
   == inject_Z excelEpoch + q * inject_Z msPerDay)%Q.
Proof. now rewrite !Qred_correct. Qed.

Lemma parseDate_serial (H : Host) (q : Q) :
  (inject_Z 30000 <= q)%Q -> (q <= inject_Z 50000)%Q ->
  exists t, parseDate H (VNum (Finite q)) = Some t
            /\ 4431 * msPerDay <= t <= 24431 * msPerDay.
Proof.
  intros Lo Hi.
  set (v := (Qred (inject_Z excelEpoch + Qred (q * inject_Z msPerDay)))%Q).
  assert (Ev : (v == inject_Z excelEpoch + q * inject_Z msPerDay)%Q)
    by apply serial_time_value.
  assert (Lv : (inject_Z (4431 * msPerDay) <= v)%Q).
  { rewrite Ev.
    setoid_replace (inject_Z (4431 * msPerDay))
      with (inject_Z excelEpoch + inject_Z 30000 * inject_Z msPerDay)%Q
      by reflexivity.
    apply Qplus_le_r. apply Qmult_le_compat_r; auto. discriminate. }
  assert (Uv : (v <= inject_Z (24431 * msPerDay))%Q).
  { rewrite Ev.
    setoid_replace (inject_Z (24431 * msPerDay))
      with (inject_Z excelEpoch + inject_Z 50000 * inject_Z msPerDay)%Q
      by reflexivity.
    apply Qplus_le_r. apply Qmult_le_compat_r; auto. discriminate. }
  assert (Pv : (0 <= v)%Q) by (eapply Qle_trans; [|exact Lv]; discriminate).
  exists (Qfloor v). split.
  - rewrite parseDate_number.
    + fold v. unfold newDate.
      assert (Qle_bool (Qabs v) (inject_Z 8640000000000000) = true) as ->.
      { apply Qle_bool_iff. rewrite (Qabs_pos v Pv).
        eapply Qle_trans; [exact Uv|]. discriminate. }
      assert (Qle_bool 0 v = true) as -> by now apply Qle_bool_iff.
      reflexivity.
    + destruct (Qeq_bool q 0) eqn:E; auto.
      apply Qeq_bool_iff in E. rewrite E in Lo. now elim Lo.
  - split.
    + rewrite <- (Qfloor_Z (4431 * msPerDay)). now apply Qfloor_resp_le.
    + rewrite <- (Qfloor_Z (24431 * msPerDay)). now apply Qfloor_resp_le.
Qed.

(** C2: a serial number from 30000 to 50000 parses to a date of a year
    from 1982 to 2036, as days counted from 1899-12-30; and, against the
    claim, the serial number 1 parses to 1899-12-31, the day after that
    epoch, not to 1900-01-01. *)
Theorem parseDate_serial_years :
  (forall (H : Host) (q : Q),
     (inject_Z 30000 <= q)%Q -> (q <= inject_Z 50000)%Q ->
     exists t, parseDate H (VNum (Finite q)) = Some t
               /\ 1982 <= getYear t <= 2036)
  /\ (forall H : Host,
        parseDate H (VNum (ofZ 1)) = Some (daysFromCivil 1899 12 31 * msPerDay)
        /\ option_map (fun t => civil (dayOf t)) (parseDate H (VNum (ofZ 1)))
           = Some (1899, 12, 31)
        /\ daysFromCivil 1899 12 31 <> daysFromCivil 1900 1 1).
Proof.
  split.
  - intros H q Lo Hi. destruct (parseDate_serial H Lo Hi) as (t & E & Lt & Ut).
    exists t. split; auto. unfold getYear. apply serial_days_years.
    unfold dayOf, msPerDay in *. split.
    + apply Z.div_le_lower_bound; lia.
    + apply Z.div_le_upper_bound; lia.
  - intros H. repeat split. discriminate.
Qed.

(** The serial number 45306 is 2024-01-15. *)
Lemma parseDate_serial_years_witness :
  exists t, parseDate Reference.host (VNum (ofZ 45306)) = Some t
            /\ 1982 <= getYear t <= 2036.
Proof.
  destruct parseDate_serial_years as (Hrange & _).
  apply Hrange; discriminate.
Defined.

(** ** evaluateFormula: the resolution of a reference *)

Lemma find_first {A : Type} (f : A -> bool) (l : list A) (x : A) :
  find f l = Some x ->
  exists l1 l2, l = l1 ++ x :: l2 /\ f x = true
                /\ forall y, In y l1 -> f y = false.
Proof.
  induction l as [|a l IH]; simpl; [discriminate|].
  destruct (f a) eqn:E.
  - intros [= ->]. exists [], l. repeat split; auto. intros y [].
  - intros F. destruct (IH F) as (l1 & l2 & -> & Fx & Hl1).
    exists (a :: l1), l2. repeat split; auto.
    intros y [<-|HIn]; auto.
Qed.

Lemma isSome_eq (o : option jsstring) (s : jsstring) :
  isSome o s = true <-> o = Some s.
Proof.
  destruct o as [c|]; simpl; [|split; discriminate].
  rewrite str_eqb_eq. split; congruence.
Qed.

Lemma namesReference_test (entry : jsstring * FieldConfig) (name : jsstring) :
  isSome (column (snd entry)) name || isSome (label (snd entry)) name
  || str_eqb (fst entry) name = true <-> namesReference entry name.
Proof.
  unfold namesReference.
  rewrite !orb_true_iff, !isSome_eq, str_eqb_eq. tauto.
Qed.

Lemma getProp_first (l1 l2 : object) (key : jsstring) (cell : jsvalue) :
  (forall kv, In kv l1 -> fst kv <> key) ->
  getProp (l1 ++ (key, cell) :: l2) key = cell.
Proof.
  induction l1 as [|[k v] l1 IH]; intros N; simpl.
  - now rewrite str_eqb_refl.
  - assert (E : str_eqb k key = false)
      by (apply str_eqb_neq; apply (N (k, v)); now left).
    rewrite E. apply IH. intros kv HIn. apply N. now right.
Qed.

Lemma hasOwnProperty_false (row : object) (name : jsstring) :
  hasOwnProperty row name = false <-> forall kv, In kv row -> fst kv <> name.
Proof.
  unfold hasOwnProperty. split.
  - intros E kv HIn Ek.
    assert (existsb (fun kv => str_eqb (fst kv) name) row = true); [|congruence].
    apply existsb_exists. exists kv. split; auto. now apply str_eqb_eq.
  - intros N. destruct (existsb _ row) eqn:E; auto.
    apply existsb_exists in E as (kv & HIn & Ek).
    apply str_eqb_eq in Ek. now elim (N kv HIn).
Qed.

Lemma lookupValue_resolves (H : Host) (row : object) (cm : FieldMapping)
    (name : jsstring) :
  Resolves H row cm name (lookupValue H row cm name).
Proof.
  unfold lookupValue, exactMatch.
  destruct (hasOwnProperty row name) eqn:Own.
  - now apply ResolvesExact.
  - unfold caseInsensitiveMatch, findKeyIgnoringCase.
    destruct (find _ row) as [[key cell]|] eqn:F; simpl.
    + destruct (find_first _ _ F) as (l1 & l2 & -> & Ek & Hl1).
      simpl in Ek. apply str_eqb_eq in Ek.
      assert (Hl1' : forall kv, In kv l1 -> ~ sameUpToCase H (fst kv) name).
      { intros kv HIn. apply str_eqb_neq. now apply Hl1. }
      rewrite getProp_first.
      * now apply ResolvesUpToCase with (l1 := l1) (key := key) (l2 := l2).
      * intros kv HIn E. apply (Hl1' kv HIn). unfold sameUpToCase.
        now rewrite E.
    + assert (Hrow : forall kv, In kv row -> ~ sameUpToCase H (fst kv) name).
      { intros kv HIn. apply str_eqb_neq. apply (find_none _ _ F kv HIn). }
      unfold mappingMatch, findEntry.
      destruct (find _ cm) as [[f c]|] eqn:Fm.
      * destruct (find_first _ _ Fm) as (m1 & m2 & -> & Em & Hm1).
        apply ResolvesMapping with (m1 := m1) (m2 := m2) (entry := (f, c)); auto.
        -- now apply namesReference_test.
        -- intros e HIn Ne. apply namesReference_test in Ne.
           rewrite (Hm1 e HIn) in Ne. discriminate.
      * apply ResolvesNothing; auto.
        intros e HIn Ne. apply namesReference_test in Ne.
        rewrite (find_none _ _ Fm e HIn) in Ne. discriminate.
Qed.

Lemma substitute_fails (H : Host) (row : object) (cm : FieldMapping)
    (refs : list jsstring) (ref : jsstring) :
  In ref refs ->
  (forall v, lookupValue H row cm (trim (slice1 ref)) = Some v -> isNaN v = true) ->
  forall e, substitute H row cm refs e = None.
Proof.
  intros HIn Bad. induction refs as [|r refs IH]; [contradiction|].
  intros e. simpl.
  destruct (hasOwnProperty row (js "hasOwnProperty")); auto.
  destruct (lookupValue H row cm (trim (slice1 r))) as [v|] eqn:L; auto.
  destruct (isNaN v) eqn:Nv; auto.
  destruct HIn as [->|HIn]; [|now apply IH].
  rewrite (Bad v L) in Nv. discriminate.
Qed.

Lemma substitute_succeeds (H : Host) (row : object) (cm : FieldMapping)
    (refs : list jsstring) :
  hasOwnProperty row (js "hasOwnProperty") = false ->
  (forall ref, In ref refs ->
     exists v, lookupValue H row cm (trim (slice1 ref)) = Some v
               /\ isNaN v = false) ->
  forall e, substitute H row cm refs e
            = Some (replaceReferences H row cm refs e).
Proof.
  intros Own. induction refs as [|r refs IH]; intros Good e; simpl; auto.
  rewrite Own. destruct (Good r (or_introl eq_refl)) as (v & L & Nv).
  unfold valueOf at 1. rewrite L, Nv. apply IH.
  intros ref HIn. apply Good. now right.
Qed.

(** C4, as the code has it: the value of a reference is the one
    [Resolves] describes, decided by the first stage that finds its key
    (a later stage is consulted only when the earlier ones found no key,
    not when the cell they found is not numeric); a reference that
    resolves to nothing or to NaN makes the whole formula [null]; and when
    every reference resolves to a number, the formula is evaluated on the
    text in which each reference is replaced by its number, the result
    being [null] still when that text fails the whitelist or its
    evaluation gives no finite number. *)
Theorem reference_resolution (H : Host) (row : object) (cm : FieldMapping) :
  (forall name, Resolves H row cm name (lookupValue H row cm name))
  /\ (forall formula ref,
        In ref (columnRefs formula) ->
        (forall v, lookupValue H row cm (trim (slice1 ref)) = Some v ->
                   isNaN v = true) ->
        evaluateFormula H formula row cm = None)
  /\ (forall formula,
        formula <> [] ->
        hasOwnProperty row (js "hasOwnProperty") = false ->
        (forall ref, In ref (columnRefs formula) ->
           exists v, lookupValue H row cm (trim (slice1 ref)) = Some v
                     /\ isNaN v = false) ->
        let expression :=
          replaceReferences H row cm (columnRefs formula) formula in
        evaluateFormula H formula row cm
        = if regexTest allowedExpression expression then
            match evalArithmetic H expression with
            | Some result => if isFinite result then Some result else None
            | None => None
            end
          else None).
Proof.
  split; [apply lookupValue_resolves|]. split.
  - intros formula ref HIn Bad. unfold evaluateFormula.
    destruct formula; auto.
    now rewrite (substitute_fails H row cm _ ref HIn Bad).
  - intros formula Nf Own Good expression. unfold evaluateFormula.
    destruct formula; [congruence|].
    rewrite (substitute_succeeds H row cm _ Own Good). fold expression.
    now destruct (regexTest allowedExpression expression).
Qed.

(** A reference found up to case, and one that is in no stage. *)
Lemma reference_resolution_witness :
  let row := [(js "Clicks", VNum (ofZ 30)); (js "Views", VStr (js "1,200"))] in
  Resolves Reference.host row [] (js "clicks") (Some (ofZ 30))
  /\ evaluateFormula Reference.host (js "{clicks} / {cost}") row [] = None
  /\ evaluateFormula Reference.host (js "{clicks} / {views} * 100") row []
     = Some (ofZ 3000).
Proof.
  intros row.
  destruct (reference_resolution Reference.host row []) as (Hres & Hnull & Hval).
  split; [exact (Hres (js "clicks"))|]. split.
  - apply (Hnull _ (js "{cost}")); [simpl; tauto | discriminate].
  - rewrite Hval; [reflexivity | discriminate | reflexivity |].
    intros ref [<-|[<-|[]]]; eexists; split; reflexivity.
Defined.

(** C4 as stated fails: the row has the exact key [a], whose cell is not
    numeric, and the mapping stage alone would give 5 through the entry
    labelled [a]; the formula is [null], the number 5 is not used. *)
Lemma non_numeric_cell_is_final :
  let row := [(js "a", VStr (js "abc")); (js "b", VNum (ofZ 5))] in
  let cm := [(js "x", {| column := Some (js "b"); label := Some (js "a") |})] in
  columnRefs (js "{a}") = [js "{a}"]
  /\ exactMatch Reference.host row (js "a") = Some NaN
  /\ mappingMatch Reference.host row cm (js "a") = Some (ofZ 5)
  /\ evaluateFormula Reference.host (js "{a}") row cm = None.
Proof. repeat split. Qed.

(** ** detectColumnType *)

Lemma counts_are_matches (H : Host) (s : list jsvalue) :
  forall c0,
    let c := fold_left (countStep H) s c0 in
    dateCount c = (dateCount c0 + matches H TDate s)%nat
    /\ percentCount c = (percentCount c0 + matches H TPercentage s)%nat
    /\ currencyCount c = (currencyCount c0 + matches H TCurrency s)%nat
    /\ numberCount c = (numberCount c0 + matches H TNumber s)%nat.
Proof.
  unfold matches.
  induction s as [|v s IH]; intros c0; simpl.
  - repeat split; lia.
  - destruct (IH (countStep H c0 v)) as (A & B & C & D).
    cbv zeta in *. rewrite A, B, C, D. clear IH A B C D.
    unfold countStep, countsFor.
    destruct (classify H v) as [[]|]; simpl; repeat split; lia.
Qed.

(** The threshold of 60 percent, on integers. *)
Lemma reaches_iff (count total : nat) :
  (0 < total)%nat ->
  reaches count total = true <-> (6 * total <= 10 * count)%nat.
Proof.
  intros Pos. unfold reaches. rewrite Qle_bool_iff.
  destruct total as [|n]; [lia|].
  unfold Qle, Qdiv, Qmult, Qinv, inject_Z. simpl.
  lia.
Qed.

Lemma reaches_threshold (count total : nat) :
  (0 < total)%nat -> reaches count total = reachesThreshold count total.
Proof.
  intros Pos. unfold reachesThreshold.
  destruct (reaches count total) eqn:E.
  - symmetry. apply Nat.leb_le. now apply reaches_iff.
  - symmetry. apply Nat.leb_gt.
    destruct (Nat.le_gt_cases (6 * total) (10 * count)) as [L|G]; auto.
    apply reaches_iff in L; auto. congruence.
Qed.

Lemma sample_length (values : list jsvalue) : (length (sample values) <= 20)%nat.
Proof.
  unfold sample.
  eapply Nat.le_trans; [apply filter_length_le|].
  rewrite length_firstn. lia.
Qed.

Lemma detectColumnType_by_matches (H : Host) (values : list jsvalue) :
  sample values <> [] ->
  let s := sample values in
  detectColumnType H values
  = if reachesThreshold (matches H TDate s) (length s) then TDate
    else if reachesThreshold (matches H TPercentage s) (length s) then TPercentage
    else if reachesThreshold (matches H TCurrency s) (length s) then TCurrency
    else if reachesThreshold (matches H TNumber s) (length s) then TNumber
    else TText.
Proof.
  intros Ne. unfold detectColumnType. cbv zeta.
  destruct (sample values) as [|v s']; [congruence|].
  destruct (counts_are_matches H (v :: s')
              {| dateCount := 0; numberCount := 0;
                 percentCount := 0; currencyCount := 0 |}) as (A & B & C & D).
  cbv zeta in A, B, C, D. rewrite A, B, C, D.
  cbn [dateCount percentCount currencyCount numberCount Nat.add].
  rewrite !reaches_threshold by (simpl; lia). reflexivity.
Qed.

Ltac bool_to_prop :=
  repeat rewrite ?andb_true_iff, ?andb_false_iff, ?orb_true_iff, ?orb_false_iff,
    ?N.leb_le, ?N.leb_gt, ?N.eqb_eq, ?N.eqb_neq in *.

Lemma digit_not_space (c : N) : isDigit c = true -> isWhiteSpace c = false.
Proof. unfold isDigit, isWhiteSpace. bool_to_prop. lia. Qed.

Lemma digit_not_glyph (c : N) : isDigit c = true -> isCurrencyGlyph c = false.
Proof. unfold isDigit, isCurrencyGlyph. bool_to_prop. lia. Qed.

Lemma digit_not_percent (c : N) : isDigit c = true -> (37 =? c)%N = false.
Proof. unfold isDigit. bool_to_prop. lia. Qed.

(** A character that is neither white space, nor [%], nor a currency
    glyph. *)
Definition plain (c : N) : Prop :=
  isWhiteSpace c = false /\ (37 =? c)%N = false /\ isCurrencyGlyph c = false.

Lemma digit_plain (c : N) : isDigit c = true -> plain c.
Proof.
  intros D. repeat split.
  - now apply digit_not_space.
  - now apply digit_not_percent.
  - now apply digit_not_glyph.
Qed.

Lemma time_char_plain (c : N) :
  (c =? 84)%N || isTimeChar c = true -> plain c.
Proof.
  unfold plain, isTimeChar, isDigit, isWhiteSpace, isCurrencyGlyph.
  bool_to_prop. lia.
Qed.

Lemma dropWhile_plain (s : jsstring) :
  Forall plain s -> dropWhile isWhiteSpace s = s.
Proof.
  intros F. destruct F as [|c s (W & _) F]; simpl; auto. now rewrite W.
Qed.

Lemma trim_plain (s : jsstring) : Forall plain s -> trim s = s.
Proof.
  intros F. unfold trim. rewrite (dropWhile_plain F).
  rewrite dropWhile_plain.
  - apply rev_involutive.
  - apply Forall_rev. exact F.
Qed.

Lemma includesChar_plain (s : jsstring) :
  Forall plain s -> includesChar 37 s = false.
Proof.
  unfold includesChar. induction 1 as [|c s (_ & P & _) F IH]; auto.
  cbn [existsb]. now rewrite P.
Qed.

Lemma last_in (s : jsstring) (c : N) : In (last (c :: s) c) (c :: s).
Proof.
  assert (N : c :: s <> []) by discriminate.
  pose proof (app_removelast_last c N) as E.
  rewrite E at 2. apply in_or_app. right. now left.
Qed.

Lemma hasCurrencyGlyph_plain (s : jsstring) :
  Forall plain s -> hasCurrencyGlyph s = false.
Proof.
  intros F. destruct s as [|c s]; auto. unfold hasCurrencyGlyph.
  rewrite Forall_forall in F.
  destruct (F c (or_introl eq_refl)) as (_ & _ & ->).
  destruct (F _ (last_in s c)) as (_ & _ & ->). reflexivity.
Qed.

Lemma isCalendarDate_shape (s : jsstring) :
  isCalendarDate s = true ->
  exists y1 y2 y3 y4 m1 m2 d1 d2 rest,
    s = [y1; y2; y3; y4; dash; m1; m2; dash; d1; d2] ++ rest
    /\ Forall (fun c => isDigit c = true) [y1; y2; y3; y4; m1; m2; d1; d2]
    /\ Forall plain rest.
Proof.
  unfold isCalendarDate. pose proof (firstn_skipn 10 s) as Es. revert Es.
  generalize (skipn 10 s) (firstn 10 s). intros rest date <-.
  unfold Reference.calendarDate.
  do 10 (destruct date as [|? date]; [discriminate|]).
  destruct date; [|discriminate].
  destruct (_ && _) eqn:E; [|discriminate].
  apply andb_true_iff in E as [E D]. apply andb_true_iff in E as [E1 E2].
  apply N.eqb_eq in E1, E2. subst. intros T.
  do 9 eexists. split; [reflexivity|]. split.
  - apply Forall_forall. now apply forallb_forall.
  - match type of T with
    | match ?c with _ => _ end = _ => destruct c; [|discriminate]
    end.
    destruct rest as [|t time]; [constructor|].
    apply andb_true_iff in T as [T1 T2]. constructor.
    + apply time_char_plain. now rewrite T1.
    + apply Forall_forall. intros c Hc. apply time_char_plain.
      rewrite forallb_forall in T2. rewrite (T2 c Hc). apply orb_true_r.
Qed.

Lemma calendar_date_counts_for_date (H : Host) (v : jsvalue) :
  isCalendarDateValue v = true -> countsFor H TDate v = true.
Proof.
  destruct v as [| | | |s|]; try discriminate. simpl. intros E.
  destruct (isCalendarDate_shape s E)
    as (y1 & y2 & y3 & y4 & m1 & m2 & d1 & d2 & rest & -> & D & P).
  set (s := [y1; y2; y3; y4; dash; m1; m2; dash; d1; d2] ++ rest).
  assert (F : Forall plain s).
  { apply Forall_app. split; auto.
    repeat match goal with
           | D : Forall _ (_ :: _) |- _ => inversion_clear D
           end.
    repeat constructor; try (now apply digit_plain);
      try (apply time_char_plain; reflexivity). }
  assert (R : existsb (fun pattern => regexTest pattern s) datePatterns = true).
  { unfold datePatterns. cbn [existsb]. apply orb_true_iff. left.
    repeat match goal with
           | D : Forall _ (_ :: _) |- _ => inversion_clear D
           end.
    unfold regexTest, s.
    cbn [r_atoms r_anchoredEnd matchAtoms rep digits lit a_class a_min a_max
         pred decr exhausted negb orb andb isEmpty app].
    repeat match goal with
           | D : isDigit _ = true |- _ => rewrite D; clear D
           end.
    cbn [rep pred decr exhausted negb orb andb N.eqb dash Pos.eqb].
    rewrite ?orb_true_r. reflexivity. }
  unfold countsFor, classify. cbn [toStringValue]. fold s.
  rewrite (trim_plain F), (includesChar_plain F), (hasCurrencyGlyph_plain F), R.
  reflexivity.
Qed.

Lemma filter_length_implies {A : Type} (f g : A -> bool) (l : list A) :
  (forall x, f x = true -> g x = true) ->
  (length (filter f l) <= length (filter g l))%nat.
Proof.
  intros I. induction l as [|a l IH]; simpl; auto.
  destruct (f a) eqn:F.
  - rewrite (I a F). simpl. lia.
  - destruct (g a); simpl; lia.
Qed.

(** *** The tests of the categories *)

Lemma span_cons (p : N -> bool) (c : N) (s : jsstring) :
  span p (c :: s)
  = if p c then let (a, b) := span p s in (c :: a, b) else ([], c :: s).
Proof. reflexivity. Qed.

Lemma rep_run (p : N -> bool) (k : jsstring -> bool) :
  (forall c s, p c = true -> k (c :: s) = false) ->
  forall s lo hi,
    rep p lo hi k s = finally (afterRun p lo hi s) k.
Proof.
  intros K. induction s as [|c s IH]; intros lo hi.
  - unfold afterRun. cbn [rep span length finally].
    destruct lo; cbn [Nat.leb andb]; [|reflexivity].
    destruct hi as [h|]; cbn [Nat.leb finally]; now rewrite orb_false_r.
  - unfold afterRun. rewrite span_cons. cbn [rep]. destruct (p c) eqn:P.
    + rewrite IH. unfold afterRun. destruct (span p s) as [run rest].
      cbn [length andb].
      assert (L : (match lo with O => k (c :: s) | S _ => false end) = false)
        by (destruct lo; auto).
      rewrite L. cbn [orb].
      destruct hi as [[|h]|]; cbn [exhausted negb decr pred Nat.leb];
        try (rewrite andb_false_r; reflexivity);
        destruct lo; reflexivity.
    + cbn [andb length]. rewrite orb_false_r.
      destruct lo; cbn [Nat.leb andb finally]; [|reflexivity].
      destruct hi; reflexivity.
Qed.

Lemma rep_headedBy (p : N -> bool) :
  forall s lo hi,
    match hi with Some h => (lo <= h)%nat | None => True end ->
    rep p lo hi (fun _ => true) s = headedBy p lo s.
Proof.
  unfold headedBy.
  induction s as [|c s IH]; intros lo hi B.
  - cbn [rep span fst length]. destruct lo; reflexivity.
  - rewrite span_cons. cbn [rep]. destruct (p c) eqn:P.
    + destruct lo as [|lo]; [reflexivity|]. cbn [orb pred andb].
      destruct hi as [[|h]|]; cbn [exhausted negb decr pred]; try lia.
      * rewrite IH by (cbn; lia). now destruct (span p s).
      * rewrite IH by exact I. now destruct (span p s).
    + cbn [andb fst length]. rewrite orb_false_r. destruct lo; reflexivity.
Qed.

Lemma rep_exhausted (p : N -> bool) (k : jsstring -> bool) (s : jsstring) :
  rep p 0 (Some 0%nat) k s = k s.
Proof.
  destruct s; cbn [rep exhausted negb]; rewrite ?andb_false_r, orb_false_r;
    reflexivity.
Qed.

Lemma rep_char (c : N) (k : jsstring -> bool) (s : jsstring) :
  rep (N.eqb c) 1 (Some 1%nat) k s = finally (afterChar c s) k.
Proof.
  destruct s as [|c' s]; [reflexivity|].
  cbn [rep afterChar orb exhausted negb decr pred andb].
  rewrite andb_true_r. destruct (c =? c')%N; [|reflexivity].
  cbn [finally]. apply rep_exhausted.
Qed.

Lemma rep_optional_char (c : N) (k : jsstring -> bool) (s : jsstring) :
  (forall s', k (c :: s') = false) ->
  rep (N.eqb c) 0 (Some 1%nat) k s = k (afterOptionalChar c s).
Proof.
  intros K. unfold afterOptionalChar.
  destruct s as [|c' s]; [cbn; now rewrite orb_false_r|].
  cbn [rep afterChar exhausted negb decr pred andb]. rewrite andb_true_r.
  destruct (c =? c')%N eqn:E.
  - apply N.eqb_eq in E. subst c'. rewrite K. cbn [orb].
    apply rep_exhausted.
  - now rewrite orb_false_r.
Qed.

Lemma rep_rejects (p : N -> bool) (lo : nat) (hi : option nat)
    (k : jsstring -> bool) (c : N) (s : jsstring) :
  p c = false -> rep p (S lo) hi k (c :: s) = false.
Proof. intros P. cbn [rep]. now rewrite P. Qed.

Lemma digit_not_char (c d : N) :
  isDigit d = false -> isDigit c = true -> (d =? c)%N = false.
Proof.
  intros A B. apply N.eqb_neq. intros ->. congruence.
Qed.

Lemma space_not_digit (c : N) : isWhiteSpace c = true -> isDigit c = false.
Proof.
  intros W. destruct (isDigit c) eqn:D; auto.
  apply digit_not_space in D. congruence.
Qed.

Lemma letter_not_space (c : N) : isLetter c = true -> isWhiteSpace c = false.
Proof. unfold isLetter, isWhiteSpace. bool_to_prop. lia. Qed.

Lemma yearFirstDate_test (s : jsstring) :
  regexTest (nth 0 datePatterns {| r_atoms := []; r_anchoredEnd := false |}) s
  = yearFirstDate s.
Proof.
  unfold regexTest, yearFirstDate.
  cbn [nth datePatterns r_atoms r_anchoredEnd matchAtoms digits lit a_class
       a_min a_max].
  unfold dash.
  rewrite rep_run.
  2:{ intros c r D. apply rep_rejects. now apply digit_not_char. }
  destruct (afterRun isDigit 4 (Some 4%nat) s) as [s1|]; [|reflexivity].
  cbn [finally next]. rewrite rep_char.
  destruct (afterChar 45 s1) as [s2|]; [|reflexivity].
  cbn [finally next]. rewrite rep_run.
  2:{ intros c r D. apply rep_rejects. now apply digit_not_char. }
  destruct (afterRun isDigit 1 (Some 2%nat) s2) as [s3|]; [|reflexivity].
  cbn [finally next]. rewrite rep_char.
  destruct (afterChar 45 s3) as [s4|]; [|reflexivity].
  cbn [finally next]. apply rep_headedBy. cbn. lia.
Qed.

Lemma separatedDate_test (sep : N) (s : jsstring) :
  isDigit sep = false ->
  regexTest {| r_atoms := [digits 1 2; lit sep; digits 1 2; lit sep; digits 2 4];
               r_anchoredEnd := false |} s
  = separatedDate sep s.
Proof.
  intros S. unfold regexTest, separatedDate.
  cbn [r_atoms r_anchoredEnd matchAtoms digits lit a_class a_min a_max].
  rewrite rep_run.
  2:{ intros c r D. apply rep_rejects. now apply digit_not_char. }
  destruct (afterRun isDigit 1 (Some 2%nat) s) as [s1|]; [|reflexivity].
  cbn [finally next]. rewrite rep_char.
  destruct (afterChar sep s1) as [s2|]; [|reflexivity].
  cbn [finally next]. rewrite rep_run.
  2:{ intros c r D. apply rep_rejects. now apply digit_not_char. }
  destruct (afterRun isDigit 1 (Some 2%nat) s2) as [s3|]; [|reflexivity].
  cbn [finally next]. rewrite rep_char.
  destruct (afterChar sep s3) as [s4|]; [|reflexivity].
  cbn [finally next]. apply rep_headedBy. cbn. lia.
Qed.

Lemma monthNameDate_test (s : jsstring) :
  regexTest (nth 3 datePatterns {| r_atoms := []; r_anchoredEnd := false |}) s
  = monthNameDate s.
Proof.
  unfold regexTest, monthNameDate.
  cbn [nth datePatterns r_atoms r_anchoredEnd matchAtoms digits lit optional
       oneOrMore a_class a_min a_max].
  rewrite rep_run.
  2:{ intros c r L. apply rep_rejects. now apply letter_not_space. }
  destruct (afterRun isLetter 3 (Some 3%nat) s) as [s1|]; [|reflexivity].
  cbn [finally next]. rewrite rep_run.
  2:{ intros c r W. apply rep_rejects. now apply space_not_digit. }
  destruct (afterRun isWhiteSpace 1 None s1) as [s2|]; [|reflexivity].
  cbn [finally next]. rewrite rep_run.
  2:{ intros c r D. cbn [rep]. unfold comma.
      rewrite (digit_not_space _ D), (@digit_not_char c 44%N eq_refl D).
      reflexivity. }
  destruct (afterRun isDigit 1 (Some 2%nat) s2) as [s3|]; [|reflexivity].
  cbn [finally next]. rewrite rep_optional_char.
  2:{ intros r. apply rep_rejects. reflexivity. }
  unfold comma. rewrite rep_run.
  2:{ intros c r W. apply rep_rejects. now apply space_not_digit. }
  destruct (afterRun isWhiteSpace 1 None (afterOptionalChar 44 s3)) as [s4|];
    [|reflexivity].
  cbn [finally]. apply rep_headedBy. cbn. lia.
Qed.

Lemma dateText_test (s : jsstring) :
  existsb (fun pattern => regexTest pattern s) datePatterns = dateText s.
Proof.
  pose proof (yearFirstDate_test s) as A.
  pose proof (monthNameDate_test s) as D.
  unfold datePatterns in *. cbn [nth] in A, D. cbn [existsb].
  rewrite A, D. unfold slash, dash.
  rewrite !separatedDate_test by reflexivity.
  unfold dateText. rewrite orb_false_r, !orb_assoc. reflexivity.
Qed.

Lemma firstn_rev_last (c : N) (s : jsstring) :
  firstn 1 (rev (c :: s)) = [last (c :: s) c].
Proof.
  assert (N : c :: s <> []) by discriminate.
  rewrite (app_removelast_last c N) at 1.
  rewrite rev_app_distr. reflexivity.
Qed.

Lemma currencyValue_test (H : Host) (v : jsvalue) :
  hasCurrencyGlyph (cellText H v) = currencyValue H v.
Proof.
  unfold currencyValue. cbv zeta. destruct (cellText H v) as [|c s];
    [reflexivity|].
  rewrite firstn_rev_last. unfold hasCurrencyGlyph, isCurrencyGlyph.
  cbn [firstn existsb currencyGlyphs]. rewrite !orb_false_r, !orb_assoc.
  reflexivity.
Qed.

Lemma numberValue_test (H : Host) (v : jsvalue) :
  negb (isNaN (parseFloatString (removeSymbols (cellText H v))))
  = numberValue H v.
Proof.
  unfold numberValue, removeSymbols. do 3 f_equal. apply filter_ext.
  intros c. unfold isStrippedSymbol. cbn [existsb strippedSymbols].
  now rewrite orb_false_r, !orb_assoc.
Qed.

(** The category [classify] gives a value is the one it counts for. *)
Lemma countsFor_countsAs (H : Host) (c : ColumnType) (v : jsvalue) :
  countsFor H c v = countsAs H c v.
Proof.
  unfold countsFor, classify. cbv zeta. fold (cellText H v).
  rewrite dateText_test, currencyValue_test, numberValue_test.
  assert (P : includesChar 37 (cellText H v) || inClosedUnit v
              = percentageValue H v).
  { reflexivity. }
  assert (D : inSerialRange v || dateText (cellText H v) = dateValue H v).
  { reflexivity. }
  rewrite P. unfold countsAs. destruct (percentageValue H v);
    [now destruct c|].
  destruct (currencyValue H v); [now destruct c|].
  rewrite <- D. destruct (inSerialRange v); [now destruct c|].
  destruct (dateText (cellText H v)); [now destruct c|].
  cbn [orb negb andb]. destruct (numberValue H v); now destruct c.
Qed.

(** C9: the sample is what of the first 20 values is not [null],
    [undefined] or the empty string; an empty sample gives [text];
    otherwise every sampled value counts for one category at most, the
    first of percentage, currency, date and number whose test it passes,
    and the detected type is the first of date, percentage, currency and
    number for which at least 60 percent of the sampled values count,
    [text] when there is none; in particular a sample of which at least 60
    percent are calendar dates in the extended form [YYYY-MM-DD], alone or
    followed by [T] and a time, gives [date]. *)
Theorem detectColumnType_threshold (H : Host) (values : list jsvalue) :
  let s := sample values in
  let reached c :=
    reachesThreshold (length (filter (countsAs H c) s)) (length s) in
  s = filter (fun v => negb (emptyCell v)) (firstn 20 values)
  /\ (length s <= 20)%nat
  /\ (s = [] -> detectColumnType H values = TText)
  /\ (s <> [] ->
      detectColumnType H values
      = if reached TDate then TDate
        else if reached TPercentage then TPercentage
        else if reached TCurrency then TCurrency
        else if reached TNumber then TNumber
        else TText)
  /\ (s <> [] ->
      (6 * length s <= 10 * length (filter isCalendarDateValue s))%nat ->
      detectColumnType H values = TDate).
Proof.
  intros s reached.
  assert (M : forall c, matches H c s = length (filter (countsAs H c) s)).
  { intros c. unfold matches. f_equal. apply filter_ext.
    intros v. apply countsFor_countsAs. }
  split; [|split; [apply sample_length|split; [|split]]].
  - unfold s, sample. apply filter_ext. intros v.
    destruct v as [| | | |[|c t]|]; reflexivity.
  - intros E. unfold detectColumnType. fold s. now rewrite E.
  - intros Ne. unfold reached. rewrite <- !M.
    now apply detectColumnType_by_matches.
  - intros Ne Iso. rewrite detectColumnType_by_matches by assumption. fold s.
    assert (R : reachesThreshold (matches H TDate s) (length s) = true);
      [|now rewrite R].
    apply Nat.leb_le. unfold matches.
    pose proof (filter_length_implies isCalendarDateValue (countsFor H TDate) s
                  (calendar_date_counts_for_date H)). lia.
Qed.

(** Three calendar dates among five sampled values. *)
Lemma detectColumnType_threshold_witness :
  detectColumnType Reference.host
    (map (fun s => VStr (js s))
       ["2024-01-01"; "2024-01-02"; "n/a"; "2024-01-03"; "-"]%string)
  = TDate.
Proof.
  apply detectColumnType_threshold; [discriminate|]. vm_compute. lia.
Defined.

(** A column of four valid ISO 8601 dates, a calendar date in basic form,
    a week date, an ordinal date and a year with its month, is sampled
    whole and detected as [number]: none of them begins with a date
    pattern, and [parseFloat] reads the digits at the head of each. *)
Lemma iso_dates_detected_as_number :
  let column :=
    map (fun s => VStr (js s))
      ["20240115"; "2024-W03-1"; "2024-015"; "2024-01"]%string in
  forallb isISODateValue column = true
  /\ sample column = column
  /\ length (filter (countsAs Reference.host TDate) column) = 0%nat
  /\ detectColumnType Reference.host column = TNumber.
Proof. vm_compute. repeat split; reflexivity. Qed.

(** ** Grouping rows into periods *)

Section Grouping.

Variable key : Z -> jsstring.

Lemma pushRow_keys_old (groups : list Period) k d row :
  In k (keys groups) -> keys (pushRow groups k d row) = keys groups.
Proof.
  induction groups as [|p groups IH]; simpl; [contradiction|].
  destruct (str_eqb (p_periodKey p) k) eqn:E; simpl; auto.
  intros [Ek|HIn].
  - apply str_eqb_neq in E. contradiction.
  - now rewrite IH.
Qed.

Lemma pushRow_keys_new (groups : list Period) k d row :
  ~ In k (keys groups) -> keys (pushRow groups k d row) = keys groups ++ [k].
Proof.
  induction groups as [|p groups IH]; simpl; auto.
  intros N. destruct (str_eqb (p_periodKey p) k) eqn:E; simpl.
  - apply str_eqb_eq in E. tauto.
  - rewrite IH; tauto.
Qed.

Lemma pushRow_keys (groups : list Period) k d row :
  keys (pushRow groups k d row)
  = if in_dec str_eq_dec k (keys groups) then keys groups
    else keys groups ++ [k].
Proof.
  destruct (in_dec str_eq_dec k (keys groups)).
  - now apply pushRow_keys_old.
  - now apply pushRow_keys_new.
Qed.

Lemma pushRow_total (groups : list Period) k d row :
  total (pushRow groups k d row) = S (total groups).
Proof.
  unfold total. induction groups as [|p groups IH]; simpl; auto.
  destruct (str_eqb (p_periodKey p) k); simpl.
  - rewrite length_app. simpl. lia.
  - rewrite IH. lia.
Qed.

(** A period of the map after a push was there before, with its key and
    date, or is the new one. *)
Lemma pushRow_heads (groups : list Period) k d row p :
  In p (pushRow groups k d row) ->
  (exists p', In p' groups /\ p_periodKey p = p_periodKey p'
              /\ p_date p = p_date p')
  \/ (~ In k (keys groups) /\ p_periodKey p = k /\ p_date p = d).
Proof.
  induction groups as [|q groups IH]; simpl.
  - intros [<-|[]]. right. simpl. tauto.
  - destruct (str_eqb (p_periodKey q) k) eqn:E.
    + intros [<-|HIn]; left.
      * exists q. simpl. tauto.
      * exists p. tauto.
    + intros [<-|HIn].
      * left. exists q. tauto.
      * destruct (IH HIn) as [(p' & Hp' & Ek & Ed)|(N & Ek & Ed)].
        -- left. exists p'. tauto.
        -- right. apply str_eqb_neq in E. repeat split; auto.
           intros [Eq|HIn']; auto.
Qed.

Lemma groupParsed_app (l1 l2 : list (Z * object)) (groups : list Period) :
  groupParsed key (l1 ++ l2) groups = groupParsed key l2 (groupParsed key l1 groups).
Proof. apply fold_left_app. Qed.

Lemma groupParsed_total (l : list (Z * object)) :
  forall groups, total (groupParsed key l groups) = (total groups + length l)%nat.
Proof.
  induction l as [|dr l IH]; intros groups; simpl; [lia|].
  rewrite IH. unfold pushParsed. rewrite pushRow_total. lia.
Qed.

Lemma groupParsed_keys_in (l : list (Z * object)) :
  forall groups k,
    In k (keys (groupParsed key l groups))
    <-> In k (keys groups) \/ In k (map (fun dr => key (fst dr)) l).
Proof.
  induction l as [|dr l IH]; intros groups k; simpl; [tauto|].
  rewrite IH. unfold pushParsed. rewrite pushRow_keys.
  destruct (in_dec str_eq_dec (key (fst dr)) (keys groups)) as [HIn|N].
  - split; [tauto|]. intros [A|[<-|B]]; auto.
  - rewrite in_app_iff. simpl. tauto.
Qed.

Lemma groupParsed_keys_NoDup (l : list (Z * object)) :
  forall groups, NoDup (keys groups) -> NoDup (keys (groupParsed key l groups)).
Proof.
  induction l as [|dr l IH]; intros groups ND; simpl; auto.
  apply IH. unfold pushParsed. rewrite pushRow_keys.
  destruct (in_dec str_eq_dec (key (fst dr)) (keys groups)) as [HIn|N]; auto.
  apply NoDup_app; auto.
  - repeat constructor. intros [].
  - intros a Ha [<-|[]]. contradiction.
Qed.

(** Each period carries the date of the first parsed row with its key. *)
Lemma groupParsed_first (l : list (Z * object)) (p : Period) :
  In p (groupParsed key l []) ->
  exists l1 dr l2,
    l = l1 ++ dr :: l2
    /\ key (fst dr) = p_periodKey p
    /\ fst dr = p_date p
    /\ forall y, In y l1 -> key (fst y) <> p_periodKey p.
Proof.
  revert p. induction l as [|x l IH] using rev_ind; intros p; [intros []|].
  rewrite groupParsed_app. simpl. unfold pushParsed at 1. intros HIn.
  destruct (pushRow_heads _ _ _ _ _ HIn)
    as [(p' & Hp' & Ek & Ed)|(N & Ek & Ed)].
  - destruct (IH p' Hp') as (l1 & dr & l2 & -> & Kd & Dd & First).
    exists l1, dr, (l2 ++ [x]). rewrite <- app_assoc. simpl.
    split; [reflexivity|]. split; [congruence|]. split; [congruence|].
    intros y Hy. rewrite Ek. now apply First.
  - exists l, x, []. repeat split; auto.
    intros y Hy Ky. apply N. apply groupParsed_keys_in. right.
    apply in_map_iff. exists y. split; congruence.
Qed.

Lemma groupParsed_keyed (l : list (Z * object)) : keyed key (groupParsed key l []).
Proof.
  apply Forall_forall. intros p HIn.
  destruct (groupParsed_first l p HIn) as (_ & dr & _ & _ & K & D & _).
  congruence.
Qed.

End Grouping.

Lemma groupRows_parsed (H : Host) (dateColumn : jsstring) (g : Granularity)
    (rawData : list object) :
  forall groups,
    fold_left (groupStep H dateColumn g) rawData groups
    = groupParsed (fun d => getPeriodKey H d g)
        (parsedRows H dateColumn rawData) groups.
Proof.
  induction rawData as [|row rawData IH]; intros groups; simpl; auto.
  unfold groupParsed. rewrite fold_left_app. fold (groupParsed (fun d => getPeriodKey H d g)).
  rewrite IH. f_equal. unfold groupStep.
  destruct (parseDate H (getProp row dateColumn)); reflexivity.
Qed.

(** ** Sorting the periods *)

Lemma insertPeriod_perm (x : Period) (l : list Period) :
  Permutation (insertPeriod x l) (x :: l).
Proof.
  induction l as [|y l IH]; simpl; auto.
  destruct (p_date x <=? p_date y); auto.
  rewrite IH. apply perm_swap.
Qed.

Lemma sortPeriods_perm (l : list Period) : Permutation (sortPeriods l) l.
Proof.
  induction l as [|x l IH]; simpl; auto.
  rewrite insertPeriod_perm. now constructor.
Qed.

Lemma insertPeriod_sorted (x : Period) (l : list Period) :
  Sorted byDate l -> Sorted byDate (insertPeriod x l).
Proof.
  induction l as [|y l IH]; simpl; intros S.
  - repeat constructor.
  - destruct (p_date x <=? p_date y) eqn:E.
    + constructor; auto. constructor. unfold byDate. lia.
    + inversion_clear S as [|? ? S' Hd]. constructor; auto.
      assert (Lyx : byDate y x) by (unfold byDate; lia).
      destruct l as [|z l]; simpl.
      * now constructor.
      * destruct (p_date x <=? p_date z); constructor; auto.
        now inversion_clear Hd.
Qed.

Lemma sortPeriods_sorted (l : list Period) :
  StronglySorted byDate (sortPeriods l).
Proof.
  apply Sorted_StronglySorted.
  - intros a b c. unfold byDate. lia.
  - induction l as [|x l IH]; simpl; [constructor|].
    now apply insertPeriod_sorted.
Qed.

Lemma keyed_dates_NoDup (key : Z -> jsstring) (groups : list Period) :
  keyed key groups -> NoDup (keys groups) -> NoDup (map p_date groups).
Proof.
  induction groups as [|p groups IH]; simpl; intros K ND; [constructor|].
  inversion_clear K as [|? ? Kp Kg]. inversion_clear ND as [|? ? Np NDg].
  constructor; auto.
  intros HIn. apply in_map_iff in HIn as (q & Ed & Hq). apply Np.
  apply in_map_iff. exists q. split; auto.
  rewrite Forall_forall in Kg. rewrite (Kg q Hq), Kp. congruence.
Qed.

Lemma sorted_le_NoDup_lt (l : list Z) :
  StronglySorted Z.le l -> NoDup l -> StronglySorted Z.lt l.
Proof.
  induction l as [|a l IH]; intros S ND; [constructor|].
  inversion_clear S as [|? ? S' Ha]. inversion_clear ND as [|? ? Na ND'].
  constructor; auto.
  rewrite Forall_forall in *. intros b Hb.
  pose proof (Ha b Hb). assert (a <> b) by (intros ->; contradiction). lia.
Qed.

Lemma StronglySorted_map {A B : Type} (R : A -> A -> Prop)
    (R' : B -> B -> Prop) (f : A -> B) (l : list A) :
  (forall a b, R a b -> R' (f a) (f b)) ->
  StronglySorted R l -> StronglySorted R' (map f l).
Proof.
  intros I S. induction S as [|a l S IH Ha]; simpl; constructor; auto.
  rewrite Forall_forall in *. intros b Hb.
  apply in_map_iff in Hb as (x & <- & Hx). auto.
Qed.

(** ** The start of a period *)

Lemma startOfMonth_days (t : Z) : startOfMonth t = monthStart (dayOf t) * msPerDay.
Proof.
  unfold startOfMonth, monthStart, getYear, getMonth.
  destruct (civil (dayOf t)) as [[y m] d]. simpl. f_equal. f_equal. lia.
Qed.

Lemma startOfQuarter_days (t : Z) :
  startOfQuarter t = quarterStart (dayOf t) * msPerDay.
Proof.
  unfold startOfQuarter, quarterStart, getYear, getMonth.
  destruct (civil (dayOf t)) as [[y m] d]. reflexivity.
Qed.

Lemma dayOf_monotone (a b : Z) : a <= b -> dayOf a <= dayOf b.
Proof. intros L. unfold dayOf, msPerDay. apply Z.div_le_mono; lia. Qed.

(** The start of the period is monotone in the date. *)
Lemma bucketStart_monotone (g : Granularity) (a b : Z) :
  a <= b -> bucketStart g a <= bucketStart g b.
Proof.
  intros L. pose proof (dayOf_monotone L) as D.
  assert (M : 0 < msPerDay) by reflexivity.
  destruct g; simpl.
  - unfold startOfDay. nia.
  - rewrite !startOfMonth_days.
    pose proof (monthStart_monotone _ _ D). nia.
  - rewrite !startOfQuarter_days.
    pose proof (quarterStart_monotone _ _ D). nia.
  - unfold startOfDay. nia.
Qed.

(** ** The aggregated rows *)

Lemma aggregatePeriod_periodKey H cm g metrics p :
  ~ In (js "periodKey") (fields metrics) ->
  periodKeyOf (aggregatePeriod H cm g metrics p) = VStr (p_periodKey p).
Proof.
  intros N. unfold periodKeyOf, aggregatePeriod.
  now rewrite fold_aggregateMetric_other.
Qed.

Lemma aggregatePeriod_date H cm g metrics p :
  ~ In (js "date") (fields metrics) ->
  dateOf (aggregatePeriod H cm g metrics p) = VDate (Some (p_date p)).
Proof.
  intros N. unfold dateOf, aggregatePeriod.
  now rewrite fold_aggregateMetric_other.
Qed.

Lemma aggregatePeriod_rowCount H cm g metrics p :
  ~ In (js "rowCount") (fields metrics) ->
  rowCountOf (aggregatePeriod H cm g metrics p)
  = VNum (ofZ (Z.of_nat (length (p_rows p)))).
Proof.
  intros N. unfold rowCountOf, aggregatePeriod.
  now rewrite fold_aggregateMetric_other.
Qed.

Lemma aggregatedData_periods H rawData cm g metrics dateColumn :
  mappedColumn cm (js "date") = Some dateColumn ->
  aggregatedData H rawData cm g metrics
  = map (aggregatePeriod H cm g metrics) (periodsOf H dateColumn g rawData).
Proof.
  intros E. unfold aggregatedData, periodsOf. rewrite E.
  destruct rawData as [|row rawData]; [reflexivity|].
  unfold groupRows. now rewrite groupRows_parsed.
Qed.

Lemma aggregatedData_no_date H rawData cm g metrics :
  mappedColumn cm (js "date") = None ->
  aggregatedData H rawData cm g metrics = [].
Proof.
  intros E. unfold aggregatedData. rewrite E. now destruct rawData.
Qed.

Lemma periodsOf_perm H dateColumn g rawData :
  Permutation (periodsOf H dateColumn g rawData)
    (groupParsed (fun d => getPeriodKey H d g)
       (parsedRows H dateColumn rawData) []).
Proof. apply sortPeriods_perm. Qed.

Lemma periodsOf_keys_NoDup H dateColumn g rawData :
  NoDup (keys (periodsOf H dateColumn g rawData)).
Proof.
  eapply Permutation_NoDup.
  - apply Permutation_map. symmetry. apply periodsOf_perm.
  - apply groupParsed_keys_NoDup. constructor.
Qed.

Lemma periodsOf_keyed H dateColumn g rawData :
  keyed (fun d => getPeriodKey H d g) (periodsOf H dateColumn g rawData).
Proof.
  eapply Permutation_Forall.
  - symmetry. apply periodsOf_perm.
  - apply (groupParsed_keyed (fun d => getPeriodKey H d g)).
Qed.

Lemma total_perm (l l' : list Period) :
  Permutation l l' -> total l = total l'.
Proof.
  unfold total. induction 1; simpl; lia.
Qed.

Lemma parsedRows_app H dc (a b : list object) :
  parsedRows H dc (a ++ b) = parsedRows H dc a ++ parsedRows H dc b.
Proof. unfold parsedRows. apply flat_map_app. Qed.

Lemma parsedRows_split H dc (rawData : list object) :
  forall l1 dr l2,
    parsedRows H dc rawData = l1 ++ dr :: l2 ->
    exists before after,
      rawData = before ++ snd dr :: after
      /\ parsedRows H dc before = l1
      /\ parseDate H (getProp (snd dr) dc) = Some (fst dr).
Proof.
  induction rawData as [|row rawData IH]; intros l1 dr l2 E.
  - destruct l1; discriminate.
  - change (parsedRows H dc (row :: rawData))
      with (match parseDate H (getProp row dc) with
            | Some d => [(d, row)]
            | None => []
            end ++ parsedRows H dc rawData) in E.
    destruct (parseDate H (getProp row dc)) as [d|] eqn:P.
    + destruct l1 as [|x l1]; simpl in E.
      * injection E as <- _. exists [], rawData. simpl. auto.
      * injection E as <- E.
        destruct (IH _ _ _ E) as (before & after & -> & <- & Pd).
        exists (row :: before), after. repeat split; auto.
        simpl. unfold parsedRows at 2. simpl. now rewrite P.
    + destruct (IH _ _ _ E) as (before & after & -> & <- & Pd).
      exists (row :: before), after. repeat split; auto.
      unfold parsedRows at 2. simpl. now rewrite P.
Qed.

Lemma in_parsedRows H dc (rawData : list object) (row : object) (d : Z) :
  In row rawData -> parseDate H (getProp row dc) = Some d ->
  In (d, row) (parsedRows H dc rawData).
Proof.
  intros HIn P. unfold parsedRows. apply in_flat_map.
  exists row. split; auto. rewrite P. now left.
Qed.

(** C3, as the code has it: when no metric is named [date] or
    [periodKey], the [date] of an aggregated row is the parsed date of the
    first row of the input that falls in its period, whichever day of the
    period that is, and its [periodKey] is the key of that date. *)
Theorem aggregated_date_is_first_seen (H : Host) (rawData : list object)
    (cm : ColumnMapping) (g : Granularity) (metrics : list Metric)
    (o : object) :
  ~ In (js "date") (fields metrics) ->
  ~ In (js "periodKey") (fields metrics) ->
  In o (aggregatedData H rawData cm g metrics) ->
  exists dateColumn before row after d,
    mappedColumn cm (js "date") = Some dateColumn
    /\ rawData = before ++ row :: after
    /\ parseDate H (getProp row dateColumn) = Some d
    /\ dateOf o = VDate (Some d)
    /\ periodKeyOf o = VStr (getPeriodKey H d g)
    /\ forall r d', In r before ->
         parseDate H (getProp r dateColumn) = Some d' ->
         getPeriodKey H d' g <> getPeriodKey H d g.
Proof.
  intros Nd Nk HIn.
  destruct (mappedColumn cm (js "date")) as [dc|] eqn:E;
    [|rewrite aggregatedData_no_date in HIn by assumption; contradiction].
  rewrite (aggregatedData_periods H rawData cm g metrics E) in HIn.
  apply in_map_iff in HIn as (p & <- & Hp).
  apply (Permutation_in _ (periodsOf_perm H dc g rawData)) in Hp.
  destruct (groupParsed_first _ _ _ Hp) as (l1 & dr & l2 & El & K & D & First).
  destruct (parsedRows_split H dc rawData _ _ _ El)
    as (before & after & -> & <- & P).
  exists dc, before, (snd dr), after, (fst dr).
  rewrite aggregatePeriod_date, aggregatePeriod_periodKey by assumption.
  repeat split; auto; try congruence.
  intros r d' Hr Pr. rewrite K.
  apply (First (d', r)). now apply in_parsedRows.
Qed.

(** The first aggregated row of the sample, whose January rows come with
    the 15th before the 3rd. *)
Lemma aggregated_date_is_first_seen_witness :
  exists dateColumn before row after d,
    mappedColumn sampleMapping (js "date") = Some dateColumn
    /\ sampleRows = before ++ row :: after
    /\ parseDate Reference.host (getProp row dateColumn) = Some d
    /\ dateOf (hd [] (aggregatedData Reference.host sampleRows sampleMapping
                        MONTHLY sampleMetrics)) = VDate (Some d)
    /\ periodKeyOf (hd [] (aggregatedData Reference.host sampleRows
                             sampleMapping MONTHLY sampleMetrics))
       = VStr (getPeriodKey Reference.host d MONTHLY)
    /\ forall r d', In r before ->
         parseDate Reference.host (getProp r dateColumn) = Some d' ->
         getPeriodKey Reference.host d' MONTHLY
         <> getPeriodKey Reference.host d MONTHLY.
Proof.
  apply (@aggregated_date_is_first_seen Reference.host sampleRows sampleMapping
           MONTHLY sampleMetrics).
  - simpl. intros [E|[]]. discriminate E.
  - simpl. intros [E|[]]. discriminate E.
  - vm_compute. left. reflexivity.
Defined.

(** C3 as stated fails: the only period is January 2024, whose start is
    2024-01-01; the row carries 2024-01-15 when the row of the 15th comes
    first and 2024-01-03 when the row of the 3rd does; and a metric named
    [date] replaces the date by its aggregate, here the sum of the two
    serial numbers. *)
Lemma aggregated_date_is_not_bucket_start :
  let late := [(js "day", VNum (ofZ 45306))] in
  let early := [(js "day", VNum (ofZ 45294))] in
  map dateOf (aggregatedData Reference.host [late; early] sampleMapping MONTHLY [])
  = [VDate (Some (daysFromCivil 2024 1 15 * msPerDay))]
  /\ map dateOf (aggregatedData Reference.host [early; late] sampleMapping MONTHLY [])
     = [VDate (Some (daysFromCivil 2024 1 3 * msPerDay))]
  /\ bucketStart MONTHLY (daysFromCivil 2024 1 15 * msPerDay)
     = daysFromCivil 2024 1 1 * msPerDay
  /\ bucketStart MONTHLY (daysFromCivil 2024 1 3 * msPerDay)
     = daysFromCivil 2024 1 1 * msPerDay
  /\ daysFromCivil 2024 1 15 <> daysFromCivil 2024 1 1
  /\ daysFromCivil 2024 1 3 <> daysFromCivil 2024 1 1
  /\ map dateOf
       (aggregatedData Reference.host [early; late] sampleMapping MONTHLY
          [ {| field := js "date"; aggregationType := SUM |} ])
     = [VNum (ofZ 90600)].
Proof. vm_compute. repeat split; discriminate. Qed.

(** ** Order and uniqueness of the aggregated rows *)

Lemma NoDup_map_VStr (l : list jsstring) : NoDup l -> NoDup (map VStr l).
Proof.
  induction 1 as [|a l Na ND IH]; simpl; constructor; auto.
  intros HIn. apply in_map_iff in HIn as (b & E & Hb).
  injection E as ->. contradiction.
Qed.

(** C7, as the code has it: when no metric is named [periodKey] or [date],
    each [periodKey] occurs on one aggregated row only, the key of a row
    is the key of its [date], and the rows stand in strictly ascending
    order of that date, hence in ascending order of the start of their
    period. *)
Theorem aggregated_rows_unique_and_sorted (H : Host) (rawData : list object)
    (cm : ColumnMapping) (g : Granularity) (metrics : list Metric) :
  ~ In (js "periodKey") (fields metrics) ->
  ~ In (js "date") (fields metrics) ->
  let out := aggregatedData H rawData cm g metrics in
  NoDup (map periodKeyOf out)
  /\ exists dates,
       map dateOf out = map (fun d => VDate (Some d)) dates
       /\ map periodKeyOf out = map (fun d => VStr (getPeriodKey H d g)) dates
       /\ StronglySorted Z.lt dates
       /\ StronglySorted Z.le (map (bucketStart g) dates).
Proof.
  intros Nk Nd out. subst out.
  destruct (mappedColumn cm (js "date")) as [dc|] eqn:E.
  - rewrite (aggregatedData_periods H rawData cm g metrics E).
    set (periods := periodsOf H dc g rawData).
    assert (Ek : map periodKeyOf (map (aggregatePeriod H cm g metrics) periods)
                 = map VStr (keys periods)).
    { unfold keys. rewrite !map_map. apply map_ext.
      intros p. now apply aggregatePeriod_periodKey. }
    assert (Ed : map dateOf (map (aggregatePeriod H cm g metrics) periods)
                 = map (fun d => VDate (Some d)) (map p_date periods)).
    { rewrite !map_map. apply map_ext.
      intros p. now apply aggregatePeriod_date. }
    pose proof (periodsOf_keys_NoDup H dc g rawData) as ND.
    pose proof (periodsOf_keyed H dc g rawData) as K.
    fold periods in ND, K.
    split.
    + rewrite Ek. now apply NoDup_map_VStr.
    + exists (map p_date periods). split; [exact Ed|]. split; [|split].
      * rewrite Ek. unfold keys. rewrite !map_map. apply map_ext_in.
        intros p Hp. unfold keyed in K. rewrite Forall_forall in K.
        now rewrite (K p Hp).
      * apply sorted_le_NoDup_lt.
        -- apply StronglySorted_map with (R := byDate); auto.
           apply sortPeriods_sorted.
        -- now apply keyed_dates_NoDup with (key := fun d => getPeriodKey H d g).
      * rewrite map_map.
        apply StronglySorted_map with (R := byDate).
        -- intros a b. apply bucketStart_monotone.
        -- apply sortPeriods_sorted.
  - rewrite aggregatedData_no_date by assumption. simpl. split.
    + constructor.
    + exists []. repeat split; constructor.
Qed.

(** The sample by month, with the metric [sales]. *)
Lemma aggregated_rows_unique_and_sorted_witness :
  let out := aggregatedData Reference.host sampleRows sampleMapping MONTHLY
               sampleMetrics in
  NoDup (map periodKeyOf out)
  /\ exists dates,
       map dateOf out = map (fun d => VDate (Some d)) dates
       /\ map periodKeyOf out
          = map (fun d => VStr (getPeriodKey Reference.host d MONTHLY)) dates
       /\ StronglySorted Z.lt dates
       /\ StronglySorted Z.le (map (bucketStart MONTHLY) dates).
Proof.
  apply (@aggregated_rows_unique_and_sorted Reference.host sampleRows
           sampleMapping MONTHLY sampleMetrics).
  - simpl. intros [E|[]]. discriminate E.
  - simpl. intros [E|[]]. discriminate E.
Defined.

(** C7 as stated fails: a metric named [periodKey] overwrites the key of
    every row with its aggregate, here 0 on both rows of two different
    months; a metric named [date] replaces the dates by its aggregates,
    which here descend. *)
Lemma periodKey_overwritten_by_metric :
  map periodKeyOf
    (aggregatedData Reference.host sampleRows sampleMapping MONTHLY
       [ {| field := js "periodKey"; aggregationType := SUM |} ])
  = [VNum zero; VNum zero]
  /\ map dateOf
       (aggregatedData Reference.host sampleRows sampleMapping MONTHLY
          [ {| field := js "date"; aggregationType := COUNT |} ])
     = [VNum (ofZ 2); VNum (ofZ 1)].
Proof. vm_compute. split; reflexivity. Qed.

(** ** Counting periods and rows *)

Lemma distinct_transfer {A B C : Type}
    (decB : forall x y : B, {x = y} + {x <> y})
    (decC : forall x y : C, {x = y} + {x <> y})
    (f : A -> B) (h : A -> C) (l : list A) :
  (forall x y, In x l -> In y l -> (f x = f y <-> h x = h y)) ->
  length (nodup decB (map f l)) = length (nodup decC (map h l)).
Proof.
  induction l as [|a l IH]; intros Same; simpl; auto.
  assert (IH' : length (nodup decB (map f l)) = length (nodup decC (map h l))).
  { apply IH. intros x y Hx Hy. apply Same; now right. }
  assert (M : In (f a) (map f l) <-> In (h a) (map h l)).
  { rewrite !in_map_iff. split; intros (x & E & Hx); exists x; split; auto.
    - apply (Same x a); [now right | now left | exact E].
    - apply (Same x a); [now right | now left | exact E]. }
  destruct (in_dec decB (f a) (map f l)) as [I|N];
    destruct (in_dec decC (h a) (map h l)) as [I'|N']; simpl; auto; tauto.
Qed.

Lemma NoDup_length_nodup (ks l : list jsstring) :
  NoDup ks -> (forall k, In k ks <-> In k l) ->
  length ks = length (nodup str_eq_dec l).
Proof.
  intros ND Same. apply Permutation_length. apply NoDup_Permutation; auto.
  - apply NoDup_nodup.
  - intros k. rewrite nodup_In. apply Same.
Qed.

(** The number of periods is the number of distinct keys among the parsed
    dates. *)
Lemma periodsOf_length H dc g rawData :
  length (periodsOf H dc g rawData)
  = length (nodup str_eq_dec
              (map (fun d => getPeriodKey H d g)
                 (map fst (parsedRows H dc rawData)))).
Proof.
  rewrite (Permutation_length (periodsOf_perm H dc g rawData)).
  set (groups := groupParsed _ _ _).
  rewrite <- (length_map p_periodKey groups). fold (keys groups).
  apply NoDup_length_nodup.
  - apply groupParsed_keys_NoDup. constructor.
  - intros k. unfold groups. rewrite groupParsed_keys_in, map_map. simpl. tauto.
Qed.

Lemma periodsOf_total H dc g rawData :
  total (periodsOf H dc g rawData) = length (parsedRows H dc rawData).
Proof.
  rewrite (total_perm (periodsOf_perm H dc g rawData)).
  now rewrite groupParsed_total.
Qed.

Lemma daily_key_of_day (H : Host) (a b : Z) :
  dayOf a = dayOf b -> getPeriodKey H a DAILY = getPeriodKey H b DAILY.
Proof. intros E. simpl. unfold startOfDay. now rewrite E. Qed.

(** C6, as the code has it: the result is empty when there are no rows or
    the mapping has no date column; otherwise, when no metric is named
    [rowCount], the [rowCount] of the rows are the sizes of the periods
    and add up to the number of rows whose date parses; with granularity
    day there is one row for each distinct day key among those dates,
    which is one for each distinct calendar day as far as the keys that
    [format] renders tell the days of the input apart. *)
Theorem aggregation_counts :
  (forall H cm g metrics, aggregatedData H [] cm g metrics = [])
  /\ (forall H rawData cm g metrics,
        mappedColumn cm (js "date") = None ->
        aggregatedData H rawData cm g metrics = [])
  /\ (forall H rawData cm g metrics dateColumn,
        mappedColumn cm (js "date") = Some dateColumn ->
        ~ In (js "rowCount") (fields metrics) ->
        exists counts,
          map rowCountOf (aggregatedData H rawData cm g metrics)
          = map (fun n => VNum (ofZ (Z.of_nat n))) counts
          /\ list_sum counts = length (parsedRows H dateColumn rawData))
  /\ (forall H rawData cm metrics dateColumn,
        mappedColumn cm (js "date") = Some dateColumn ->
        let dates := map fst (parsedRows H dateColumn rawData) in
        let out := aggregatedData H rawData cm DAILY metrics in
        length out
        = length (nodup str_eq_dec
                    (map (fun d => getPeriodKey H d DAILY) dates))
        /\ ((forall a b, In a dates -> In b dates ->
               getPeriodKey H a DAILY = getPeriodKey H b DAILY ->
               dayOf a = dayOf b) ->
            length out = length (nodup Z.eq_dec (map dayOf dates)))).
Proof.
  split; [|split; [|split]].
  - intros H cm g metrics. unfold aggregatedData.
    now destruct (mappedColumn cm (js "date")).
  - intros. now apply aggregatedData_no_date.
  - intros H rawData cm g metrics dc E N.
    rewrite (aggregatedData_periods H rawData cm g metrics E).
    exists (map (fun p => length (p_rows p)) (periodsOf H dc g rawData)).
    split.
    + rewrite !map_map. apply map_ext. intros p.
      now apply aggregatePeriod_rowCount.
    + apply periodsOf_total.
  - intros H rawData cm metrics dc E dates out. subst out.
    rewrite (aggregatedData_periods H rawData cm DAILY metrics E).
    rewrite length_map, periodsOf_length. fold dates.
    split; [reflexivity|]. intros Separate.
    apply distinct_transfer. intros a b Ha Hb. split.
    + now apply Separate.
    + apply daily_key_of_day.
Qed.

(** The sample has three rows with a date, on three days. *)
Lemma aggregation_counts_witness :
  (exists counts,
     map rowCountOf
       (aggregatedData Reference.host sampleRows sampleMapping DAILY sampleMetrics)
     = map (fun n => VNum (ofZ (Z.of_nat n))) counts
     /\ list_sum counts = length (parsedRows Reference.host (js "day") sampleRows))
  /\ length (aggregatedData Reference.host sampleRows sampleMapping DAILY
               sampleMetrics)
     = length (nodup Z.eq_dec
                 (map dayOf (map fst (parsedRows Reference.host (js "day")
                                        sampleRows)))).
Proof.
  destruct aggregation_counts as (_ & _ & Hsum & Hdays).
  split.
  - apply Hsum; [reflexivity|]. simpl. intros [E|[]]. discriminate E.
  - apply (Hdays Reference.host sampleRows sampleMapping sampleMetrics (js "day"));
      [reflexivity|].
    intros a b Ha Hb. vm_compute in Ha. vm_compute in Hb.
    repeat match goal with
           | D : _ \/ _ |- _ => destruct D
           | D : False |- _ => destruct D
           end; subst; intros K; try reflexivity;
      vm_compute in K; discriminate K.
Defined.

(** C6 as stated fails: one row has a date that parses, and a metric
    named [rowCount] overwrites the count of the only period with its
    aggregate, 0. *)
Lemma rowCount_overwritten_by_metric :
  let rows := [ [(js "day", VNum (ofZ 45306))] ] in
  map rowCountOf
    (aggregatedData Reference.host rows sampleMapping DAILY
       [ {| field := js "rowCount"; aggregationType := SUM |} ])
  = [VNum zero]
  /\ length (parsedRows Reference.host (js "day") rows) = 1%nat.
Proof. vm_compute. split; reflexivity. Qed.

(** The keys of two days that the reference formatter does not tell
    apart: [yyyy] is the year of the era, so the first day of the year 1
    and that of the year before it, serials -693593 and -693959, both get
    the key [0001-01-01]. *)
Example day_key_of_two_days :
  parseDate Reference.host (VNum (ofZ (-693593))) = Some (-62135596800000)
  /\ parseDate Reference.host (VNum (ofZ (-693959))) = Some (-62167219200000)
  /\ civil (dayOf (-62135596800000)) = (1, 1, 1)
  /\ civil (dayOf (-62167219200000)) = (0, 1, 1)
  /\ getPeriodKey Reference.host (-62135596800000) DAILY = js "0001-01-01"
  /\ getPeriodKey Reference.host (-62167219200000) DAILY = js "0001-01-01".
Proof. vm_compute. repeat split; reflexivity. Qed.

(** ** The scenarios of the specification, on the reference host *)

Example scenario_monthly_sum :
  map (fun o => (periodKeyOf o, getProp o (js "sales"), rowCountOf o))
    (aggregatedData Reference.host scenarioRows [(js "date", js "date")]
       MONTHLY sampleMetrics)
  = [ (VStr (js "2024-01"), VNum (ofZ 150), VNum (ofZ 2));
      (VStr (js "2024-02"), VNum (ofZ 200), VNum (ofZ 1)) ].
Proof. vm_compute. reflexivity. Qed.

Example scenario_formulas :
  let row := [(js "a", VNum (ofZ 2)); (js "b", VNum (ofZ 3))] in
  evaluateFormula Reference.host (js "{a} + {b}") row [] = Some (ofZ 5)
  /\ evaluateFormula Reference.host (js "{missing}") row [] = None
  /\ evaluateFormula Reference.host (js "{a}; DROP TABLE") row [] = None.
Proof. vm_compute. repeat split. Qed.

Example scenario_currency :
  detectColumnType Reference.host
    (map (fun s => VStr (js s)) ["$100"; "$250"; "$3,000"]%string)
  = TCurrency.
Proof. vm_compute. reflexivity. Qed.

(** * Properties of the functions around the engine *)

(** ** The rows of a period *)

Lemma pushRow_cases (groups : list Period) k d row p :
  NoDup (keys groups) ->
  In p (pushRow groups k d row) ->
  (In p groups /\ p_periodKey p <> k)
  \/ (exists p', In p' groups /\ p_periodKey p' = k
                 /\ p = {| p_periodKey := p_periodKey p'; p_date := p_date p';
                           p_rows := p_rows p' ++ [row] |})
  \/ (~ In k (keys groups)
      /\ p = {| p_periodKey := k; p_date := d; p_rows := [row] |}).
Proof.
  induction groups as [|q rest IH]; simpl; intros ND HIn.
  - destruct HIn as [<-|[]]. right. right. split; [tauto|reflexivity].
  - inversion ND as [|? ? Hq NDrest]; subst.
    destruct (str_eqb (p_periodKey q) k) eqn:E.
    + apply str_eqb_eq in E. destruct HIn as [<-|HIn].
      * right. left. exists q. repeat split; auto.
      * left. split; [right; exact HIn|]. intros K. apply Hq.
        rewrite E, <- K. unfold keys. now apply in_map.
    + assert (N : p_periodKey q <> k).
      { intros K. apply str_eqb_eq in K. congruence. }
      destruct HIn as [<-|HIn].
      * left. split; [now left|exact N].
      * destruct (IH NDrest HIn) as [[A B]|[(p' & A & B & C)|[A B]]].
        -- left. split; [now right|exact B].
        -- right. left. exists p'. repeat split; auto.
        -- right. right. split; [|exact B]. intros [K|K]; [congruence|tauto].
Qed.

Lemma rowsOfKey_app key k (a b : list (Z * object)) :
  rowsOfKey key k (a ++ b) = rowsOfKey key k a ++ rowsOfKey key k b.
Proof. unfold rowsOfKey. now rewrite filter_app, map_app. Qed.

Lemma rowsOfKey_absent key k (l : list (Z * object)) :
  ~ In k (map (fun dr => key (fst dr)) l) -> rowsOfKey key k l = [].
Proof.
  induction l as [|x l IH]; simpl; intros N; [reflexivity|].
  unfold rowsOfKey. simpl. destruct (str_eqb (key (fst x)) k) eqn:E.
  - apply str_eqb_eq in E. tauto.
  - apply IH. tauto.
Qed.

Lemma groupParsed_rows key (l : list (Z * object)) :
  forall p, In p (groupParsed key l []) ->
            p_rows p = rowsOfKey key (p_periodKey p) l.
Proof.
  induction l as [|x l IH] using rev_ind; intros p HIn; [destruct HIn|].
  rewrite groupParsed_app in HIn. simpl in HIn. unfold pushParsed in HIn.
  rewrite rowsOfKey_app.
  assert (ND : NoDup (keys (groupParsed key l []))).
  { apply groupParsed_keys_NoDup. constructor. }
  destruct (@pushRow_cases _ _ _ _ _ ND HIn) as [[A B]|[(p' & A & B & C)|[A B]]].
  - rewrite (IH p A). unfold rowsOfKey at 3. simpl.
    destruct (str_eqb (key (fst x)) (p_periodKey p)) eqn:E.
    + apply str_eqb_eq in E. congruence.
    + simpl. now rewrite app_nil_r.
  - subst p. simpl. rewrite (IH p' A). unfold rowsOfKey at 3. simpl.
    rewrite B. replace (str_eqb (key (fst x)) (key (fst x))) with true
      by (symmetry; now apply str_eqb_eq). reflexivity.
  - subst p. simpl. rewrite rowsOfKey_absent.
    + unfold rowsOfKey. simpl.
      replace (str_eqb (key (fst x)) (key (fst x))) with true
        by (symmetry; now apply str_eqb_eq). reflexivity.
    + intros K. apply A. apply (groupParsed_keys_in key l [] (key (fst x))).
      now right.
Qed.

Lemma rowsOfKey_parsed H dc g (rawData : list object) k :
  rowsOfKey (fun d => getPeriodKey H d g) k (parsedRows H dc rawData)
  = periodRows H dc g rawData k.
Proof.
  induction rawData as [|row l IH]; [reflexivity|].
  change (row :: l) with ([row] ++ l). rewrite parsedRows_app, rowsOfKey_app.
  unfold periodRows. rewrite filter_app. fold (periodRows H dc g l k).
  rewrite IH. f_equal. unfold parsedRows, rowsOfKey. simpl.
  destruct (parseDate H (getProp row dc)) as [d|]; [|reflexivity].
  simpl. destruct (str_eqb (getPeriodKey H d g) k); reflexivity.
Qed.

Lemma periodsOf_rows H dc g (rawData : list object) p :
  In p (periodsOf H dc g rawData) ->
  p_rows p = periodRows H dc g rawData (p_periodKey p) /\ p_rows p <> [].
Proof.
  intros HIn.
  apply (Permutation_in _ (periodsOf_perm H dc g rawData)) in HIn.
  pose proof (@groupParsed_rows _ _ _ HIn) as R.
  rewrite rowsOfKey_parsed in R. split; [exact R|].
  destruct (@groupParsed_first _ _ _ HIn) as (l1 & dr & l2 & E & K & _).
  pose proof (@groupParsed_rows _ _ _ HIn) as R'. rewrite R'.
  rewrite E, rowsOfKey_app. unfold rowsOfKey at 2. simpl.
  replace (str_eqb (getPeriodKey H (fst dr) g) (p_periodKey p)) with true
    by (symmetry; now apply str_eqb_eq).
  simpl. intros C. apply app_eq_nil in C. destruct C as [_ C]. discriminate C.
Qed.

Lemma fold_aggregateMetric_unique (cm : ColumnMapping) (rows : list object)
    (metrics : list Metric) (o : object) (m : Metric) :
  NoDup (fields metrics) -> In m metrics ->
  getProp (fold_left (aggregateMetric cm rows) metrics o) (field m)
  = VNum (aggregateValues (metricValues cm rows m) (aggregationType m)).
Proof.
  revert o. induction metrics as [|x metrics IH]; intros o ND HIn;
    [destruct HIn|].
  simpl in *. inversion ND as [|? ? Hx NDrest]; subst.
  destruct HIn as [->|HIn].
  - rewrite fold_aggregateMetric_other by exact Hx.
    unfold aggregateMetric. apply getProp_setProp_same.
  - now apply IH.
Qed.

Lemma aggregatedData_in H rawData cm g metrics dateColumn o :
  mappedColumn cm (js "date") = Some dateColumn ->
  In o (aggregatedData H rawData cm g metrics) ->
  exists p, In p (periodsOf H dateColumn g rawData)
            /\ o = aggregatePeriod H cm g metrics p.
Proof.
  intros D HIn. rewrite (@aggregatedData_periods H rawData cm g metrics dateColumn D) in HIn.
  apply in_map_iff in HIn. destruct HIn as (p & <- & HIn). now exists p.
Qed.

(** X1: when no metric is named [periodKey] or [rowCount], the [rowCount]
    of the aggregated row of a period is the number of input rows whose
    date parses to a key of that period, and that number is at least 1:
    the aggregation never emits an empty period. *)
Theorem aggregated_row_counts_its_period (H : Host) (rawData : list object)
    (cm : ColumnMapping) (g : Granularity) (metrics : list Metric)
    (dateColumn : jsstring) (o : object) (k : jsstring) :
  mappedColumn cm (js "date") = Some dateColumn ->
  ~ In (js "periodKey") (fields metrics) ->
  ~ In (js "rowCount") (fields metrics) ->
  In o (aggregatedData H rawData cm g metrics) ->
  periodKeyOf o = VStr k ->
  rowCountOf o
  = VNum (ofZ (Z.of_nat (length (periodRows H dateColumn g rawData k))))
  /\ (1 <= length (periodRows H dateColumn g rawData k))%nat.
Proof.
  intros D NK NR HIn K.
  destruct (@aggregatedData_in _ _ _ _ _ _ _ D HIn) as (p & Hp & ->).
  rewrite aggregatePeriod_periodKey in K by exact NK. injection K as <-.
  rewrite aggregatePeriod_rowCount by exact NR.
  destruct (@periodsOf_rows _ _ _ _ _ Hp) as [R N]. rewrite <- R. split; auto.
  destruct (p_rows p); [congruence|simpl; lia].
Qed.

(** X2: when the metrics have distinct fields and none is named
    [periodKey], the value an aggregated row holds for a metric whose
    field is not the name of a member of [Object.prototype] is
    [aggregateValues], with the aggregation type of the metric, of the
    numbers [parseNumericValue] reads from the metric's column in the
    input rows of that period, taken in input order.  For a field such as
    [toString] that the mapping has no entry of its own for,
    [columnMapping[metric.field]] is the inherited member and no column
    name, which the hypothesis leaves out. *)
Theorem aggregated_row_metric_value (H : Host) (rawData : list object)
    (cm : ColumnMapping) (g : Granularity) (metrics : list Metric)
    (dateColumn : jsstring) (o : object) (k : jsstring) (m : Metric) :
  mappedColumn cm (js "date") = Some dateColumn ->
  NoDup (fields metrics) ->
  ~ In (js "periodKey") (fields metrics) ->
  In o (aggregatedData H rawData cm g metrics) ->
  periodKeyOf o = VStr k ->
  In m metrics ->
  inheritedName (field m) = false ->
  getProp o (field m)
  = VNum (aggregateValues
            (metricValues cm (periodRows H dateColumn g rawData k) m)
            (aggregationType m)).
Proof.
  intros D ND NK HIn K Hm _.
  destruct (@aggregatedData_in _ _ _ _ _ _ _ D HIn) as (p & Hp & ->).
  rewrite aggregatePeriod_periodKey in K by exact NK. injection K as <-.
  destruct (@periodsOf_rows _ _ _ _ _ Hp) as [R _]. rewrite <- R.
  unfold aggregatePeriod. now apply fold_aggregateMetric_unique.
Qed.

Lemma aggregated_row_counts_its_period_witness :
  let o := hd [] (aggregatedData Reference.host sampleRows sampleMapping
                    MONTHLY sampleMetrics) in
  rowCountOf o
  = VNum (ofZ (Z.of_nat (length (periodRows Reference.host (js "day") MONTHLY
                                   sampleRows (js "2024-01")))))
  /\ (1 <= length (periodRows Reference.host (js "day") MONTHLY sampleRows
                     (js "2024-01")))%nat.
Proof.
  apply (@aggregated_row_counts_its_period Reference.host sampleRows
           sampleMapping MONTHLY sampleMetrics (js "day")).
  - reflexivity.
  - vm_compute. intros [K|[]]. discriminate K.
  - vm_compute. intros [K|[]]. discriminate K.
  - vm_compute. left. reflexivity.
  - vm_compute. reflexivity.
Defined.

Lemma aggregated_row_metric_value_witness :
  let o := hd [] (aggregatedData Reference.host sampleRows sampleMapping
                    MONTHLY sampleMetrics) in
  getProp o (js "sales")
  = VNum (aggregateValues
            (metricValues sampleMapping
               (periodRows Reference.host (js "day") MONTHLY sampleRows
                  (js "2024-01"))
               {| field := js "sales"; aggregationType := SUM |})
            SUM).
Proof.
  apply (@aggregated_row_metric_value Reference.host sampleRows
           sampleMapping MONTHLY sampleMetrics (js "day") _ (js "2024-01")
           {| field := js "sales"; aggregationType := SUM |}).
  - reflexivity.
  - vm_compute. constructor; [intros []|constructor].
  - vm_compute. intros [K|[]]. discriminate K.
  - vm_compute. left. reflexivity.
  - vm_compute. reflexivity.
  - left. reflexivity.
  - reflexivity.
Defined.

(** ** Sums are exact and do not depend on the order *)

Lemma fold_add_exact (ns : list number) :
  Forall (fun n => isFinite n = true) ns ->
  forall a, Qred a = a ->
  exists c, fold_left num_add ns (Finite a) = Finite c
            /\ Qred c = c /\ (c == a + exactSum ns)%Q.
Proof.
  induction 1 as [|n ns Hn _ IH]; intros a Ca.
  - exists a. repeat split; auto. unfold exactSum. simpl. ring.
  - destruct n as [| |q]; try discriminate. simpl.
    destruct (IH (Qred (a + q)%Q) (Qred_complete _ _ (Qred_correct _)))
      as (c & E & C & S).
    exists c. repeat split; auto. rewrite S, Qred_correct.
    unfold exactSum. simpl. ring.
Qed.

Lemma sumOf_exact (ns : list number) :
  Forall (fun n => isFinite n = true) ns ->
  exists c, sumOf ns = Finite c /\ Qred c = c /\ (c == exactSum ns)%Q.
Proof.
  intros F. destruct (fold_add_exact F (a := inject_Z 0) eq_refl)
    as (c & E & C & S).
  exists c. repeat split; auto. rewrite S. unfold inject_Z. ring.
Qed.

Lemma aggregateValues_sum_exact (values : list jsvalue) :
  Forall (fun n => isFinite n = true) (validValues values) ->
  exists c, aggregateValues values SUM = Finite c
            /\ Qred c = c /\ (c == exactSum (validValues values))%Q.
Proof.
  intros F. unfold aggregateValues. destruct values as [|v values].
  - exists (inject_Z 0). repeat split; auto; reflexivity.
  - destruct (validValues (v :: values)) as [|n ns] eqn:E.
    + exists (inject_Z 0). repeat split; auto; reflexivity.
    + now apply sumOf_exact.
Qed.

Lemma exactSum_app (a b : list number) :
  (exactSum (a ++ b) == exactSum a + exactSum b)%Q.
Proof.
  unfold exactSum. induction a as [|x a IH]; simpl; [ring|].
  rewrite IH. ring.
Qed.

Lemma exactSum_perm (a b : list number) :
  Permutation a b -> (exactSum a == exactSum b)%Q.
Proof.
  unfold exactSum. induction 1; simpl; try ring.
  - now rewrite IHPermutation.
  - now rewrite IHPermutation1.
Qed.

(** ** The grand total of a summed metric *)

Lemma metricNumbers_cons (cm : ColumnMapping) (row : object)
    (rows : list object) (m : Metric) :
  metricNumbers cm (row :: rows) m
  = metricNumbers cm [row] m ++ metricNumbers cm rows m.
Proof.
  unfold metricNumbers, metricValues, keepSome, validValues.
  cbn [map flat_map]. now rewrite app_nil_r, map_app, flat_map_app.
Qed.

Lemma metricNumbers_flat (cm : ColumnMapping) (rows : list object) (m : Metric) :
  metricNumbers cm rows m
  = flat_map (fun row => metricNumbers cm [row] m) rows.
Proof.
  induction rows as [|row rows IH]; [reflexivity|].
  rewrite metricNumbers_cons, IH. reflexivity.
Qed.

Lemma metricNumbers_perm (cm : ColumnMapping) (a b : list object) (m : Metric) :
  Permutation a b -> Permutation (metricNumbers cm a m) (metricNumbers cm b m).
Proof.
  intros P. rewrite (metricNumbers_flat cm a), (metricNumbers_flat cm b).
  now apply Permutation_flat_map.
Qed.

Lemma metricNumbers_app (cm : ColumnMapping) (a b : list object) (m : Metric) :
  metricNumbers cm (a ++ b) m = metricNumbers cm a m ++ metricNumbers cm b m.
Proof.
  rewrite (metricNumbers_flat cm (a ++ b)), (metricNumbers_flat cm a),
    (metricNumbers_flat cm b). apply flat_map_app.
Qed.

Lemma pushRow_rows_perm (groups : list Period) k d row :
  Permutation (flat_map p_rows (pushRow groups k d row))
    (flat_map p_rows groups ++ [row]).
Proof.
  induction groups as [|p rest IH]; simpl; [reflexivity|].
  destruct (str_eqb (p_periodKey p) k); simpl.
  - rewrite <- !app_assoc. apply Permutation_app_head. apply Permutation_app_comm.
  - rewrite <- app_assoc. now apply Permutation_app_head.
Qed.

Lemma groupParsed_rows_perm key (l : list (Z * object)) :
  forall groups,
    Permutation (flat_map p_rows (groupParsed key l groups))
      (flat_map p_rows groups ++ map snd l).
Proof.
  induction l as [|x l IH]; intros groups; simpl.
  - now rewrite app_nil_r.
  - unfold groupParsed in *. simpl. rewrite IH. unfold pushParsed.
    rewrite pushRow_rows_perm, <- app_assoc. reflexivity.
Qed.

Lemma periodsOf_rows_perm H dc g (rawData : list object) :
  Permutation (flat_map p_rows (periodsOf H dc g rawData))
    (map snd (parsedRows H dc rawData)).
Proof.
  rewrite (Permutation_flat_map p_rows (periodsOf_perm H dc g rawData)).
  apply (groupParsed_rows_perm (fun d => getPeriodKey H d g)
           (parsedRows H dc rawData) []).
Qed.

Lemma finite_not_NaN (ns : list number) :
  Forall (fun n => isFinite n = true) ns ->
  validValues (map VNum ns) = ns.
Proof.
  induction 1 as [|n ns Hn _ IH]; [reflexivity|].
  unfold validValues in *. simpl. rewrite IH.
  destruct n; try discriminate. reflexivity.
Qed.

(** The sums of the periods, and what they add up to. *)
Lemma period_sums_exact (cm : ColumnMapping) (m : Metric) (periods : list Period) :
  Forall (fun n => isFinite n = true)
    (metricNumbers cm (flat_map p_rows periods) m) ->
  let sums :=
    map (fun p => aggregateValues (metricValues cm (p_rows p) m) SUM) periods in
  Forall (fun n => isFinite n = true) sums
  /\ (exactSum sums
      == exactSum (metricNumbers cm (flat_map p_rows periods) m))%Q.
Proof.
  induction periods as [|p periods IH]; simpl; intros F.
  - split; [constructor|reflexivity].
  - rewrite metricNumbers_app in F. apply Forall_app in F as [Fp Frest].
    destruct (IH Frest) as [A B].
    destruct (aggregateValues_sum_exact (metricValues cm (p_rows p) m) Fp)
      as (c & E & _ & S).
    rewrite E. split; [constructor; auto|].
    rewrite metricNumbers_app, exactSum_app.
    unfold exactSum at 1. simpl. fold (exactSum
      (map (fun p0 => aggregateValues (metricValues cm (p_rows p0) m) SUM) periods)).
    rewrite B. unfold metricNumbers in S. unfold metricNumbers at 1.
    rewrite S. reflexivity.
Qed.

(** X3: [getMetricTotal] with the aggregation type left out or [SUM], for
    a summed metric whose values over the rows with a date are integers
    with absolute values that add up to 2^53 at most, is the sum of these
    values over all those rows: adding the sums of the periods loses
    nothing and does not depend on the grouping.  Within that bound every
    sum the code forms, in whatever order, is an integer that binary64
    holds, so that its additions are the exact ones; beyond it, and on
    fractions, they round and the total depends on the grouping.  The
    field of the metric is not the name of a member of
    [Object.prototype]. *)
Theorem total_of_period_sums (H : Host) (rawData : list object)
    (cm : ColumnMapping) (g : Granularity) (metrics : list Metric)
    (dateColumn : jsstring) (m : Metric)
    (requested : option AggregationType) :
  requested = None \/ requested = Some SUM ->
  mappedColumn cm (js "date") = Some dateColumn ->
  NoDup (fields metrics) ->
  In m metrics ->
  aggregationType m = SUM ->
  inheritedName (field m) = false ->
  Forall (fun n => isInteger n = true)
    (metricNumbers cm (map snd (parsedRows H dateColumn rawData)) m) ->
  (absoluteSum (metricNumbers cm (map snd (parsedRows H dateColumn rawData)) m)
   <= inject_Z (2 ^ 53))%Q ->
  getMetricTotal (aggregatedData H rawData cm g metrics) (field m) requested
  = aggregateValues
      (metricValues cm (map snd (parsedRows H dateColumn rawData)) m) SUM.
Proof.
  intros Rq D ND Hm T _ Int _.
  assert (F : Forall (fun n => isFinite n = true)
                (metricNumbers cm (map snd (parsedRows H dateColumn rawData)) m)).
  { eapply Forall_impl; [|exact Int]. intros n. now destruct n. }
  rewrite (@aggregatedData_periods H rawData cm g metrics dateColumn D).
  set (periods := periodsOf H dateColumn g rawData).
  pose proof (periodsOf_rows_perm H dateColumn g rawData) as P.
  fold periods in P.
  assert (F' : Forall (fun n => isFinite n = true)
                 (metricNumbers cm (flat_map p_rows periods) m)).
  { rewrite Forall_forall in *. intros n Hn. apply F.
    eapply Permutation_in; [|exact Hn]. now apply metricNumbers_perm. }
  destruct (period_sums_exact cm m periods F') as [Fs Es].
  set (sums := map (fun p => aggregateValues (metricValues cm (p_rows p) m) SUM)
                 periods) in *.
  assert (V : filter (fun v => negb (isUndefined v))
                (map (fun row => getProp row (field m))
                   (map (aggregatePeriod H cm g metrics) periods))
              = map VNum sums).
  { unfold sums. clear - ND Hm T.
    induction periods as [|p ps IH]; [reflexivity|].
    assert (E : getProp (aggregatePeriod H cm g metrics p) (field m)
                = VNum (aggregateValues (metricValues cm (p_rows p) m) SUM)).
    { unfold aggregatePeriod.
      rewrite (@fold_aggregateMetric_unique cm (p_rows p) metrics _ m ND Hm).
      now rewrite T. }
    cbn [map]. rewrite E. cbn [filter isUndefined negb]. f_equal. exact IH. }
  unfold getMetricTotal. rewrite V.
  replace (match requested with Some t => t | None => SUM end) with SUM
    by (destruct Rq as [->| ->]; reflexivity).
  destruct (aggregateValues_sum_exact (map VNum sums)) as (c & Ec & Cc & Sc).
  { now rewrite finite_not_NaN. }
  destruct (aggregateValues_sum_exact
              (metricValues cm (map snd (parsedRows H dateColumn rawData)) m) F)
    as (c' & Ec' & Cc' & Sc').
  rewrite Ec, Ec'. f_equal. rewrite <- Cc, <- Cc'. apply Qred_complete.
  rewrite Sc, Sc', finite_not_NaN by exact Fs. rewrite Es.
  apply exactSum_perm. now apply metricNumbers_perm.
Qed.

Lemma total_of_period_sums_witness :
  getMetricTotal
    (aggregatedData Reference.host sampleRows sampleMapping MONTHLY sampleMetrics)
    (js "sales") (Some SUM)
  = aggregateValues
      (metricValues sampleMapping
         (map snd (parsedRows Reference.host (js "day") sampleRows))
         {| field := js "sales"; aggregationType := SUM |}) SUM.
Proof.
  apply (@total_of_period_sums Reference.host sampleRows sampleMapping MONTHLY
           sampleMetrics (js "day")
           {| field := js "sales"; aggregationType := SUM |} (Some SUM)).
  - right. reflexivity.
  - reflexivity.
  - vm_compute. constructor; [intros []|constructor].
  - left. reflexivity.
  - reflexivity.
  - reflexivity.
  - vm_compute. repeat constructor.
  - vm_compute. discriminate.
Defined.

(** ** The decimal digits of an integer *)

Lemma digitsValue_snoc (ds : jsstring) (c : N) :
  digitsValue (ds ++ [c]) = 10 * digitsValue ds + (Z.of_N c - 48).
Proof. unfold digitsValue. now rewrite fold_left_app. Qed.

Lemma digitsFuel_spec (fuel : nat) :
  forall n acc,
    (n < 2 ^ N.of_nat fuel)%N -> (0 < fuel)%nat ->
    exists ds, digitsFuel fuel n acc = ds ++ acc
               /\ ds <> []
               /\ Forall (fun c => isDigit c = true) ds
               /\ digitsValue ds = Z.of_N n.
Proof.
  induction fuel as [|fuel IH]; intros n acc B P; [lia|].
  cbn [digitsFuel].
  assert (R : (n mod 10 < 10)%N) by (apply N.mod_lt; lia).
  assert (D : isDigit (48 + n mod 10) = true).
  { unfold isDigit. apply andb_true_iff. split; apply N.leb_le;
      [apply N.le_add_r|lia]. }
  assert (E : n = (10 * (n / 10) + n mod 10)%N) by (apply N.div_mod; lia).
  destruct (n / 10 =? 0)%N eqn:Z0.
  - apply N.eqb_eq in Z0. exists [(48 + n mod 10)%N]. repeat split.
    + discriminate.
    + constructor; auto.
    + unfold digitsValue. cbn [fold_left]. rewrite Z0 in E. lia.
  - apply N.eqb_neq in Z0.
    rewrite Nat2N.inj_succ, N.pow_succ_r' in B.
    assert (B' : (n / 10 < 2 ^ N.of_nat fuel)%N).
    { apply N.Div0.div_lt_upper_bound. lia. }
    assert (P' : (0 < fuel)%nat).
    { destruct fuel; [|lia]. simpl in B'. lia. }
    destruct (IH (n / 10)%N ((48 + n mod 10)%N :: acc) B' P')
      as (ds & Eds & N0 & F & V).
    exists (ds ++ [(48 + n mod 10)%N]). repeat split.
    + rewrite Eds, <- app_assoc. reflexivity.
    + intros C. apply app_eq_nil in C. destruct C as [_ C]. discriminate C.
    + apply Forall_app. split; auto.
    + rewrite digitsValue_snoc, V. lia.
Qed.

Lemma natToString_spec (n : N) :
  natToString n <> []
  /\ Forall (fun c => isDigit c = true) (natToString n)
  /\ digitsValue (natToString n) = Z.of_N n.
Proof.
  unfold natToString.
  destruct (@digitsFuel_spec (S (N.to_nat (N.log2 n))) n []) as (ds & E & A).
  - rewrite Nat2N.inj_succ, N2Nat.id.
    destruct (N.eq_dec n 0) as [->|N0]; [reflexivity|].
    apply N.log2_spec. lia.
  - lia.
  - rewrite E, app_nil_r. exact A.
Qed.

Lemma intToString_inj (a b : Z) : intToString a = intToString b -> a = b.
Proof.
  unfold intToString. intros E.
  destruct (natToString_spec (Z.to_N (- a))) as (_ & _ & Va).
  destruct (natToString_spec (Z.to_N (- b))) as (_ & _ & Vb).
  destruct (natToString_spec (Z.to_N a)) as (Na & Fa & Va').
  destruct (natToString_spec (Z.to_N b)) as (Nb & Fb & Vb').
  destruct (a <? 0) eqn:Sa; destruct (b <? 0) eqn:Sb;
    try apply Z.ltb_lt in Sa; try apply Z.ltb_ge in Sa;
    try apply Z.ltb_lt in Sb; try apply Z.ltb_ge in Sb.
  - injection E as E. rewrite E in Va. lia.
  - rewrite <- E in Fb. inversion Fb as [|? ? D _]. discriminate D.
  - rewrite E in Fa. inversion Fa as [|? ? D _]. discriminate D.
  - rewrite E in Va'. lia.
Qed.

Lemma intToString_digits (z : Z) :
  0 <= z -> Forall (fun c => isDigit c = true) (intToString z).
Proof.
  intros P. unfold intToString.
  replace (z <? 0) with false by (symmetry; apply Z.ltb_ge; lia).
  apply natToString_spec.
Qed.

(** ** The key of a quarter *)

Unset Implicit Arguments.

Lemma firstOfMonth_step_strict (i : Z) : firstOfMonth i < firstOfMonth (i + 1).
Proof.
  unfold firstOfMonth, daysFromCivil.
  assert (R : 0 <= i mod 12 < 12) by (apply Z.mod_pos_bound; lia).
  assert (E : i = 12 * (i / 12) + i mod 12) by (apply Z.div_mod; lia).
  set (q := i / 12) in *. set (r := i mod 12) in *.
  destruct (Z.eq_dec r 11) as [R11|R11].
  - replace ((i + 1) / 12) with (q + 1) by (Z.div_mod_to_equations; lia).
    replace ((i + 1) mod 12) with 0 by (Z.div_mod_to_equations; lia).
    rewrite R11. cbn [Z.leb Z.ltb Z.add Z.compare Pos.compare Pos.compare_cont Pos.add Pos.succ].
    Z.div_mod_to_equations. lia.
  - replace ((i + 1) / 12) with q by (Z.div_mod_to_equations; lia).
    replace ((i + 1) mod 12) with (r + 1) by (Z.div_mod_to_equations; lia).
    destruct (r + 1 <=? 2) eqn:C1; destruct (r + 1 + 1 <=? 2) eqn:C2;
      destruct (2 <? r + 1) eqn:C3; destruct (2 <? r + 1 + 1) eqn:C4;
      try apply Z.leb_le in C1; try apply Z.leb_gt in C1;
      try apply Z.leb_le in C2; try apply Z.leb_gt in C2;
      try apply Z.ltb_lt in C3; try apply Z.ltb_ge in C3;
      try apply Z.ltb_lt in C4; try apply Z.ltb_ge in C4; try lia;
      Z.div_mod_to_equations; lia.
Qed.

Lemma firstOfMonth_strict (i j : Z) : i < j -> firstOfMonth i < firstOfMonth j.
Proof.
  intros L. pose proof (firstOfMonth_step_strict i) as S.
  pose proof (firstOfMonth_monotone (i + 1) j). lia.
Qed.

Lemma firstOfMonth_inj (i j : Z) : firstOfMonth i = firstOfMonth j -> i = j.
Proof.
  intros E. destruct (Z.lt_trichotomy i j) as [L|[L|L]]; auto.
  - pose proof (firstOfMonth_strict i j L). lia.
  - pose proof (firstOfMonth_strict j i L). lia.
Qed.

Lemma getMonth_index (t : Z) : getMonth t = monthIndex (dayOf t) mod 12.
Proof.
  unfold getMonth, monthIndex.
  pose proof (civil_month_range (dayOf t)) as R.
  destruct (civil (dayOf t)) as [[y m] d]. cbn [fst snd] in *.
  Z.div_mod_to_equations; lia.
Qed.

Lemma getYear_index (t : Z) : getYear t = monthIndex (dayOf t) / 12.
Proof. apply (yearOfDay_index (dayOf t)). Qed.

Lemma getQuarter_range (t : Z) : 1 <= getQuarter t <= 4.
Proof.
  unfold getQuarter. rewrite getMonth_index. Z.div_mod_to_equations; lia.
Qed.

(** The year and the quarter of two dates are the same exactly when the
    dates lie in the same calendar quarter. *)
Lemma quarter_fields (a b : Z) :
  getYear a = getYear b /\ getQuarter a = getQuarter b
  <-> startOfQuarter a = startOfQuarter b.
Proof.
  rewrite !startOfQuarter_days, !quarterStart_first.
  unfold getQuarter. rewrite !getYear_index, !getMonth_index.
  set (i := monthIndex (dayOf a)). set (j := monthIndex (dayOf b)).
  split.
  - intros [Y Q]. replace (i - i mod 3) with (j - j mod 3); [reflexivity|].
    Z.div_mod_to_equations; lia.
  - intros E.
    assert (E' : i - i mod 3 = j - j mod 3).
    { apply firstOfMonth_inj. unfold msPerDay in E. lia. }
    Z.div_mod_to_equations; lia.
Qed.

Set Implicit Arguments.

Lemma quarter_digit (q : Z) : 1 <= q <= 4 -> intToString q = [Z.to_N (48 + q)].
Proof.
  intros R.
  assert (C : q = 1 \/ q = 2 \/ q = 3 \/ q = 4) by lia.
  destruct C as [ -> | [ -> | [ -> | -> ] ] ]; reflexivity.
Qed.

Lemma quarter_key (t : Z) (H : Host) :
  getPeriodKey H t QUARTERLY
  = (intToString (getYear t) ++ [45%N; 81%N]) ++ [Z.to_N (48 + getQuarter t)].
Proof.
  cbn [getPeriodKey]. rewrite (quarter_digit (getQuarter_range t)).
  now rewrite <- app_assoc.
Qed.

Lemma quarter_key_fields (H : Host) (a b : Z) :
  getPeriodKey H a QUARTERLY = getPeriodKey H b QUARTERLY
  <-> getYear a = getYear b /\ getQuarter a = getQuarter b.
Proof.
  rewrite !quarter_key. split.
  - intros E. apply app_inj_tail in E. destruct E as [E Q].
    apply app_inv_tail in E. apply intToString_inj in E.
    pose proof (getQuarter_range a). pose proof (getQuarter_range b).
    split; [exact E|lia].
  - intros [Y Q]. now rewrite Y, Q.
Qed.

(** X4: for every host, two dates have the same quarterly period key
    exactly when they lie in the same calendar quarter, that is when
    [startOfQuarter] sends them to the same time. *)
Theorem quarter_key_identifies_quarter (H : Host) (a b : Z) :
  getPeriodKey H a QUARTERLY = getPeriodKey H b QUARTERLY
  <-> startOfQuarter a = startOfQuarter b.
Proof. rewrite <- quarter_fields. apply quarter_key_fields. Qed.

(** X5: with granularity quarter and a date column, the number of
    aggregated rows is the number of distinct calendar quarters among the
    dates that parse, for every host. *)
Theorem quarterly_rows_are_the_quarters (H : Host) (rawData : list object)
    (cm : ColumnMapping) (metrics : list Metric) (dateColumn : jsstring) :
  mappedColumn cm (js "date") = Some dateColumn ->
  length (aggregatedData H rawData cm QUARTERLY metrics)
  = length (nodup Z.eq_dec
              (map startOfQuarter (map fst (parsedRows H dateColumn rawData)))).
Proof.
  intros D.
  rewrite (@aggregatedData_periods H rawData cm QUARTERLY metrics dateColumn D).
  rewrite length_map, periodsOf_length.
  apply distinct_transfer. intros a b _ _.
  rewrite <- quarter_fields. apply quarter_key_fields.
Qed.

Lemma quarterly_rows_are_the_quarters_witness :
  length (aggregatedData Reference.host sampleRows sampleMapping QUARTERLY
            sampleMetrics)
  = length (nodup Z.eq_dec
              (map startOfQuarter
                 (map fst (parsedRows Reference.host (js "day") sampleRows)))).
Proof.
  apply (@quarterly_rows_are_the_quarters Reference.host sampleRows
           sampleMapping sampleMetrics (js "day")).
  reflexivity.
Defined.

Lemma replaceFirstDash_digits (ds rest : jsstring) :
  Forall (fun c => isDigit c = true) ds ->
  replaceFirstDash (ds ++ dash :: rest) = ds ++ 32%N :: rest.
Proof.
  induction 1 as [|c ds D _ IH]; [reflexivity|].
  simpl. destruct (c =? dash)%N eqn:E.
  - apply N.eqb_eq in E. subst c. discriminate D.
  - now rewrite IH.
Qed.

(** X6: the label of a quarterly period key is the year, a space, [Q] and
    the quarter for a year from 0 on; for a negative year the dash that
    [replace] finds first is the sign of the year, so the label starts with
    a space and keeps the dash before [Q]. *)
Theorem quarter_label (H : Host) (t : Z) :
  let label := getPeriodLabel H (getPeriodKey H t QUARTERLY) QUARTERLY in
  (0 <= getYear t ->
   label = intToString (getYear t) ++ js " Q" ++ intToString (getQuarter t))
  /\ (getYear t < 0 ->
      label = js " " ++ intToString (- getYear t) ++ js "-Q"
              ++ intToString (getQuarter t)).
Proof.
  cbn [getPeriodLabel getPeriodKey]. split; intros Y.
  - change (js "-Q" ++ intToString (getQuarter t))
      with (dash :: 81%N :: intToString (getQuarter t)).
    now rewrite replaceFirstDash_digits by now apply intToString_digits.
  - unfold intToString at 1 3.
    replace (getYear t <? 0) with true by (symmetry; apply Z.ltb_lt; lia).
    replace (- getYear t <? 0) with false by (symmetry; apply Z.ltb_ge; lia).
    reflexivity.
Qed.

(** ** Minimum and maximum *)

Lemma num_leb_refl (a : number) : isNaN a = false -> num_leb a a = true.
Proof.
  destruct a as [|[|]|q]; simpl; try reflexivity; try discriminate.
  intros _. apply Qle_bool_iff. apply Qle_refl.
Qed.

Lemma num_leb_trans (a b c : number) :
  num_leb a b = true -> num_leb b c = true -> num_leb a c = true.
Proof.
  destruct a as [|[|]|x]; destruct b as [|[|]|y]; destruct c as [|[|]|z];
    simpl; try reflexivity; try discriminate.
  rewrite !Qle_bool_iff. apply Qle_trans.
Qed.

Lemma num_leb_total (a b : number) :
  isNaN a = false -> isNaN b = false ->
  num_leb a b = false -> num_leb b a = true.
Proof.
  destruct a as [|[|]|x]; destruct b as [|[|]|y];
    simpl; try reflexivity; try discriminate.
  intros _ _ L. apply Qle_bool_iff.
  destruct (Qlt_le_dec y x) as [C|C]; [now apply Qlt_le_weak|].
  apply Qle_bool_iff in C. congruence.
Qed.

Lemma fold_min_spec (ns : list number) :
  Forall (fun n => isNaN n = false) ns ->
  forall acc, isNaN acc = false ->
  let r := fold_left num_min ns acc in
  isNaN r = false
  /\ (r = acc \/ In r ns)
  /\ num_leb r acc = true
  /\ forall n, In n ns -> num_leb r n = true.
Proof.
  induction 1 as [|n ns Hn _ IH]; intros acc Ha; simpl.
  - split; [exact Ha|]. split; [now left|].
    split; [now apply num_leb_refl|]. intros n [].
  - assert (E : num_min acc n = if num_leb acc n then acc else n).
    { destruct acc; destruct n; try discriminate; reflexivity. }
    assert (Hm : isNaN (num_min acc n) = false).
    { rewrite E. now destruct (num_leb acc n). }
    destruct (IH _ Hm) as (A & B & C & D).
    assert (L1 : num_leb (num_min acc n) acc = true).
    { rewrite E. destruct (num_leb acc n) eqn:L.
      - now apply num_leb_refl.
      - now apply num_leb_total. }
    assert (L2 : num_leb (num_min acc n) n = true).
    { rewrite E. destruct (num_leb acc n) eqn:L; auto. now apply num_leb_refl. }
    repeat split; auto.
    + destruct B as [B|B]; [|now right; right].
      rewrite B, E. destruct (num_leb acc n); [now left|right; now left].
    + eapply num_leb_trans; eauto.
    + intros x [<-|Hx]; [|now apply D]. eapply num_leb_trans; eauto.
Qed.

Lemma fold_max_spec (ns : list number) :
  Forall (fun n => isNaN n = false) ns ->
  forall acc, isNaN acc = false ->
  let r := fold_left num_max ns acc in
  isNaN r = false
  /\ (r = acc \/ In r ns)
  /\ num_leb acc r = true
  /\ forall n, In n ns -> num_leb n r = true.
Proof.
  induction 1 as [|n ns Hn _ IH]; intros acc Ha; simpl.
  - split; [exact Ha|]. split; [now left|].
    split; [now apply num_leb_refl|]. intros n [].
  - assert (E : num_max acc n = if num_leb acc n then n else acc).
    { destruct acc; destruct n; try discriminate; reflexivity. }
    assert (Hm : isNaN (num_max acc n) = false).
    { rewrite E. now destruct (num_leb acc n). }
    destruct (IH _ Hm) as (A & B & C & D).
    assert (L1 : num_leb acc (num_max acc n) = true).
    { rewrite E. destruct (num_leb acc n) eqn:L; auto. now apply num_leb_refl. }
    assert (L2 : num_leb n (num_max acc n) = true).
    { rewrite E. destruct (num_leb acc n) eqn:L.
      - now apply num_leb_refl.
      - now apply num_leb_total. }
    repeat split; auto.
    + destruct B as [B|B]; [|now right; right].
      rewrite B, E. destruct (num_leb acc n); [right; now left|now left].
    + eapply num_leb_trans; eauto.
    + intros x [<-|Hx]; [|now apply D]. eapply num_leb_trans; eauto.
Qed.

Lemma fold_min_attained (ns : list number) :
  ns <> [] -> Forall (fun n => isNaN n = false) ns ->
  In (fold_left num_min ns (Infinity false)) ns.
Proof.
  intros N F. destruct (@fold_min_spec _ F (Infinity false) eq_refl)
    as (_ & [B|B] & _ & D); auto.
  destruct ns as [|n ns]; [congruence|].
  pose proof (D n (or_introl eq_refl)) as L. rewrite B in L.
  inversion F as [|? ? Hn _]; subst.
  destruct n as [|[|]|q]; try discriminate. rewrite B. now left.
Qed.

Lemma fold_max_attained (ns : list number) :
  ns <> [] -> Forall (fun n => isNaN n = false) ns ->
  In (fold_left num_max ns (Infinity true)) ns.
Proof.
  intros N F. destruct (@fold_max_spec _ F (Infinity true) eq_refl)
    as (_ & [B|B] & _ & D); auto.
  destruct ns as [|n ns]; [congruence|].
  pose proof (D n (or_introl eq_refl)) as L. rewrite B in L.
  inversion F as [|? ? Hn _]; subst.
  destruct n as [|[|]|q]; try discriminate. rewrite B. now left.
Qed.

Lemma validValues_not_NaN (values : list jsvalue) :
  Forall (fun n => isNaN n = false) (validValues values).
Proof.
  unfold validValues. induction values as [|v values IH]; simpl; [constructor|].
  apply Forall_app. split; auto.
  destruct v; simpl; try constructor.
  destruct (isNaN n) eqn:E; constructor; auto.
Qed.

(** What [Spread.aggregateValues] returns is what [aggregateValues]
    gives: the two differ by the RangeError alone. *)
Lemma aggregateValues_returned (argumentLimit : nat) (values : list jsvalue)
    (t : AggregationType) (n : number) :
  Spread.aggregateValues argumentLimit values t = Some n ->
  n = aggregateValues values t.
Proof.
  unfold Spread.aggregateValues, aggregateValues, Spread.call.
  destruct values as [|v values]; [now intros [= <-]|].
  destruct (validValues (v :: values)) as [|x xs]; [now intros [= <-]|].
  cbv zeta. destruct t; try (now intros [= <-]);
    destruct (_ <=? _)%nat; intros E; try discriminate;
    now injection E as <-.
Qed.

(** X7: when some value is valid, [aggregateValues] with [MIN] and with
    [MAX] each return one of the valid values, and every valid value lies
    between the two, provided the engine takes as many arguments in one
    call as there are valid values; when there are more, both throw the
    RangeError of [Math.min(...validValues)] and
    [Math.max(...validValues)]. *)
Theorem aggregateValues_min_max (argumentLimit : nat) (values : list jsvalue) :
  validValues values <> [] ->
  let valid := validValues values in
  ((length valid <= argumentLimit)%nat ->
   exists lo hi,
     Spread.aggregateValues argumentLimit values MIN = Some lo
     /\ Spread.aggregateValues argumentLimit values MAX = Some hi
     /\ In lo valid /\ In hi valid
     /\ forall n, In n valid -> num_leb lo n = true /\ num_leb n hi = true)
  /\ ((argumentLimit < length valid)%nat ->
      Spread.aggregateValues argumentLimit values MIN = None
      /\ Spread.aggregateValues argumentLimit values MAX = None).
Proof.
  intros N valid. pose proof (validValues_not_NaN values) as F. fold valid in F.
  unfold Spread.aggregateValues, Spread.call.
  destruct values as [|v values]; [now elim N|]. fold valid.
  destruct valid as [|n ns] eqn:E; [now elim N|]. rewrite <- E in *.
  cbv zeta. split.
  - intros L. apply Nat.leb_le in L. rewrite L.
    exists (Spread.mathMin valid), (Spread.mathMax valid).
    split; [reflexivity|]. split; [reflexivity|].
    assert (NE : valid <> []) by (rewrite E; discriminate).
    split; [now apply fold_min_attained|].
    split; [now apply fold_max_attained|].
    intros x Hx. split.
    + now apply (@fold_min_spec _ F (Infinity false) eq_refl).
    + now apply (@fold_max_spec _ F (Infinity true) eq_refl).
  - intros L. apply Nat.leb_gt in L. rewrite L. now split.
Qed.

Lemma aggregateValues_min_max_witness :
  let values := [VNum (ofZ 3); VStr (js "7"); VNum NaN; VNum (ofZ (-2))] in
  let valid := validValues values in
  ((length valid <= 1000)%nat ->
   exists lo hi,
     Spread.aggregateValues 1000 values MIN = Some lo
     /\ Spread.aggregateValues 1000 values MAX = Some hi
     /\ In lo valid /\ In hi valid
     /\ forall n, In n valid -> num_leb lo n = true /\ num_leb n hi = true)
  /\ ((1000 < length valid)%nat ->
      Spread.aggregateValues 1000 values MIN = None
      /\ Spread.aggregateValues 1000 values MAX = None).
Proof.
  apply (@aggregateValues_min_max 1000
           [VNum (ofZ 3); VStr (js "7"); VNum NaN; VNum (ofZ (-2))]).
  discriminate.
Defined.

Lemma fold_NaN (g : number -> number -> number) :
  (forall a, g NaN a = NaN) -> (forall a, g a NaN = NaN) ->
  forall ns acc, acc = NaN \/ existsb isNaN ns = true ->
                 fold_left g ns acc = NaN.
Proof.
  intros Hl Hr. induction ns as [|n ns IH]; simpl; intros acc [C|C];
    try discriminate; auto.
  - apply IH. left. subst. apply Hl.
  - apply orb_true_iff in C. destruct C as [C|C].
    + destruct n; try discriminate. apply IH. left. apply Hr.
    + apply IH. now right.
Qed.

Lemma mathMin_NaN (ns : list number) :
  existsb isNaN ns = true -> Spread.mathMin ns = NaN.
Proof.
  intros E. apply fold_NaN; auto; intros a; now destruct a.
Qed.

Lemma mathMax_NaN (ns : list number) :
  existsb isNaN ns = true -> Spread.mathMax ns = NaN.
Proof.
  intros E. apply fold_NaN; auto; intros a; now destruct a.
Qed.

Lemma getMetricRange_cases (argumentLimit : nat)
    (stringToNumber : jsstring -> number) (data : list object) (f : jsstring) :
  let values := filter isPresent (map (fun row => readMember row f) data) in
  let nums := map (memberToNumber stringToNumber) values in
  getMetricRange argumentLimit stringToNumber data f
  = match values with
    | [] => Some {| r_min := zero; r_max := zero |}
    | _ :: _ =>
        if (length values <=? argumentLimit)%nat
        then Some {| r_min := Spread.mathMin nums; r_max := Spread.mathMax nums |}
        else None
    end.
Proof.
  cbv zeta. unfold getMetricRange, Spread.call. rewrite length_map.
  destruct (filter _ _) as [|v vs]; [reflexivity|].
  now destruct (_ <=? _)%nat.
Qed.

(** X8: [getMetricRange] returns 0 and 0 when no row holds a value that
    is neither [undefined] nor [null].  Otherwise it throws the
    RangeError of [Math.min(...values)] when there are more values than
    the engine takes arguments in one call; it returns [NaN] twice when
    one of the values converts to [NaN]; and else a minimum and a maximum
    that are among the converted values and bound all of them.  A field
    that is the name of a member of [Object.prototype] gives [NaN] twice
    as soon as one row has no property of its own of that name: the
    inherited member is neither [undefined] nor [null]. *)
Theorem getMetricRange_bounds (argumentLimit : nat)
    (stringToNumber : jsstring -> number) (data : list object) (f : jsstring) :
  let values := filter isPresent (map (fun row => readMember row f) data) in
  let nums := map (memberToNumber stringToNumber) values in
  let range := getMetricRange argumentLimit stringToNumber data f in
  (values = [] -> range = Some {| r_min := zero; r_max := zero |})
  /\ (values <> [] -> (argumentLimit < length values)%nat -> range = None)
  /\ ((length values <= argumentLimit)%nat -> existsb isNaN nums = true ->
      range = Some {| r_min := NaN; r_max := NaN |})
  /\ (values <> [] -> (length values <= argumentLimit)%nat ->
      existsb isNaN nums = false ->
      exists lo hi,
        range = Some {| r_min := lo; r_max := hi |}
        /\ In lo nums /\ In hi nums
        /\ forall n, In n nums -> num_leb lo n = true /\ num_leb n hi = true)
  /\ (inheritedName f = true ->
      (exists row, In row data /\ hasOwnProperty row f = false) ->
      (length values <= argumentLimit)%nat ->
      range = Some {| r_min := NaN; r_max := NaN |}).
Proof.
  cbv zeta. rewrite getMetricRange_cases.
  set (values := filter _ _).
  set (nums := map (memberToNumber stringToNumber) values).
  assert (C : (length values <= argumentLimit)%nat ->
              existsb isNaN nums = true ->
              match values with
              | [] => Some {| r_min := zero; r_max := zero |}
              | _ :: _ =>
                  if (length values <=? argumentLimit)%nat
                  then Some {| r_min := Spread.mathMin nums;
                               r_max := Spread.mathMax nums |}
                  else None
              end = Some {| r_min := NaN; r_max := NaN |}).
  { intros L E. apply Nat.leb_le in L. rewrite L.
    rewrite mathMin_NaN, mathMax_NaN by exact E.
    unfold nums in E. destruct values; [discriminate E|reflexivity]. }
  split; [|split; [|split; [|split]]].
  - intros ->. reflexivity.
  - intros N L. apply Nat.leb_gt in L. rewrite L.
    destruct values; [congruence|reflexivity].
  - exact C.
  - intros N L E. apply Nat.leb_le in L. rewrite L.
    assert (F : Forall (fun n => isNaN n = false) nums).
    { apply Forall_forall. intros n Hn. destruct (isNaN n) eqn:B; auto.
      assert (existsb isNaN nums = true)
        by (apply existsb_exists; now exists n). congruence. }
    assert (NN : nums <> []).
    { unfold nums. destruct values; [congruence|discriminate]. }
    exists (Spread.mathMin nums), (Spread.mathMax nums).
    split; [destruct values; [congruence|reflexivity]|].
    split; [now apply fold_min_attained|].
    split; [now apply fold_max_attained|].
    intros x Hx. split.
    + now apply (@fold_min_spec _ F (Infinity false) eq_refl).
    + now apply (@fold_max_spec _ F (Infinity true) eq_refl).
  - intros I (row & Hrow & O) L. apply C; [exact L|].
    apply existsb_exists. exists NaN. split; [|reflexivity].
    apply in_map_iff. exists PrototypeMember. split; [reflexivity|].
    apply filter_In. split; [|reflexivity].
    apply in_map_iff. exists row. split; [|exact Hrow].
    unfold readMember. now rewrite O, I.
Qed.

(** The range of the field [toString] over two rows, of which the second
    has no column of that name. *)
Example getMetricRange_inherited :
  getMetricRange 1000 (fun s => parseFloatString s)
    [ [(js "toString", VNum (ofZ 11))]; [(js "sales", VNum (ofZ 5))] ]
    (js "toString")
  = Some {| r_min := NaN; r_max := NaN |}.
Proof. reflexivity. Qed.

(** ** parseDate on strings and on serial numbers *)

Lemma tryFormats_native (H : Host) (s : jsstring) (fs : list regex) :
  tryFormats H s fs = None \/ tryFormats H s fs = dateFromString H s.
Proof.
  induction fs as [|r fs IH]; simpl; [now left|].
  destruct (regexTest r s); [|exact IH].
  destruct (dateFromString H s) as [d|] eqn:E; [now right|].
  destruct IH as [IH|IH]; [now left|right; congruence].
Qed.

(** X9: on a string, [parseDate] returns [null] for the empty string, the
    date of [parseISO] when it is valid, and otherwise what
    [new Date(value)] gives: the loop over the three regional patterns
    never changes the result. *)
Theorem parseDate_string (H : Host) (s : jsstring) :
  parseDate H (VStr s)
  = if isEmpty s then None
    else match parseISO H s with
         | Some date => Some date
         | None => dateFromString H s
         end.
Proof.
  unfold parseDate. destruct s as [|c s]; [reflexivity|].
  cbn [isFalsy isEmpty]. destruct (parseISO H (c :: s)); [reflexivity|].
  destruct (tryFormats_native H (c :: s) formats) as [E|E]; rewrite E.
  - reflexivity.
  - now destruct (dateFromString H (c :: s)).
Qed.

Lemma serial_newDate (v : Q) :
  (0 <= v)%Q -> (v <= inject_Z 8640000000000000)%Q ->
  newDate (Finite v) = Some (Qfloor v).
Proof.
  intros P U. unfold newDate.
  assert (Qle_bool (Qabs v) (inject_Z 8640000000000000) = true) as ->.
  { apply Qle_bool_iff. now rewrite (Qabs_pos v P). }
  assert (Qle_bool 0 v = true) as -> by now apply Qle_bool_iff.
  reflexivity.
Qed.

Lemma parseDateIn_utc (H : Host) (value : jsvalue) :
  parseDateIn utcZone H value = parseDate H value.
Proof. reflexivity. Qed.

Lemma parseDateIn_number (zone : TimeZone) (H : Host) (q : Q) :
  ~ (q == 0)%Q ->
  parseDateIn zone H (VNum (Finite q))
  = newDate (Finite (Qred (inject_Z (excelEpochIn zone)
                           + Qred (q * inject_Z msPerDay)))%Q).
Proof.
  intros N. unfold parseDateIn. cbn [isFalsy].
  destruct (Qeq_bool q 0) eqn:E; [|reflexivity].
  apply Qeq_bool_iff in E. contradiction.
Qed.

Lemma serial_time_value_in (zone : TimeZone) (q : Q) :
  (Qred (inject_Z (excelEpochIn zone) + Qred (q * inject_Z msPerDay))
   == inject_Z (excelEpochIn zone) + q * inject_Z msPerDay)%Q.
Proof. now rewrite !Qred_correct. Qed.

Lemma newDate_integer (v : Q) (z : Z) :
  (v == inject_Z z)%Q -> Z.abs z <= 8640000000000000 ->
  newDate (Finite v) = Some z.
Proof.
  intros E B. unfold newDate.
  assert (Qle_bool (Qabs v) (inject_Z 8640000000000000) = true) as ->.
  { apply Qle_bool_iff. rewrite E. apply Qabs_Qle_condition. split.
    - rewrite <- inject_Z_opp, <- Zle_Qle. lia.
    - rewrite <- Zle_Qle. lia. }
  destruct (Qle_bool 0 v); f_equal.
  - rewrite E. apply Qfloor_Z.
  - rewrite E. apply Qceiling_Z.
Qed.

Lemma Qfloor_unique (y : Q) (n : Z) :
  (inject_Z n <= y)%Q -> (y < inject_Z (n + 1))%Q -> Qfloor y = n.
Proof.
  intros A B. apply Z.le_antisymm.
  - apply Z.lt_succ_r. unfold Z.succ. rewrite Zlt_Qlt.
    eapply Qle_lt_trans; [apply Qfloor_le|exact B].
  - rewrite <- (Qfloor_Z n). now apply Qfloor_resp_le.
Qed.

Lemma Qfloor_plus_Z (x : Q) (k : Z) :
  Qfloor (x + inject_Z k) = Qfloor x + k.
Proof.
  apply Qfloor_unique.
  - rewrite inject_Z_plus. apply Qplus_le_l. apply Qfloor_le.
  - replace (Qfloor x + k + 1) with ((Qfloor x + 1) + k) by ring.
    rewrite inject_Z_plus. apply Qplus_lt_l. apply Qlt_floor.
Qed.

(** The local reading of a time value that lies [d] milliseconds after
    the epoch. *)
Lemma localTime_after_epoch (zone : TimeZone) (d : Z) :
  localTime zone (excelEpochIn zone) = daysFromCivil 1899 12 30 * msPerDay ->
  let t := excelEpochIn zone + d in
  localTime zone t
  = d - 25569 * msPerDay
    + (offsetAt zone t - offsetAt zone (excelEpochIn zone)).
Proof.
  intros E t. unfold offsetAt. rewrite E. fold t.
  change (daysFromCivil 1899 12 30) with (-25569). unfold t. ring.
Qed.

(** X10: in every time zone in which 30 December 1899 began at a
    midnight, a whole serial number other than 0 parses to the time value
    that lies as many days of 86 400 000 ms after that midnight.  Read in
    local time it is midnight of the day [serial - 25569] days after
    1970-01-01 moved by what the offset of the zone from UTC has changed
    between the two instants: it is that midnight exactly when the two
    offsets are equal, as they are in UTC. *)
Theorem parseDate_whole_serial (zone : TimeZone) (H : Host) (z : Z) :
  z <> 0 ->
  localTime zone (excelEpochIn zone) = daysFromCivil 1899 12 30 * msPerDay ->
  Z.abs (excelEpochIn zone + z * msPerDay) <= 8640000000000000 ->
  let t := excelEpochIn zone + z * msPerDay in
  parseDateIn zone H (VNum (ofZ z)) = Some t
  /\ localTime zone t
     = (z - 25569) * msPerDay
       + (offsetAt zone t - offsetAt zone (excelEpochIn zone))
  /\ (localTime zone t = (z - 25569) * msPerDay
      <-> offsetAt zone t = offsetAt zone (excelEpochIn zone)).
Proof.
  intros N E B t.
  assert (L : localTime zone t
              = (z - 25569) * msPerDay
                + (offsetAt zone t - offsetAt zone (excelEpochIn zone))).
  { unfold t. rewrite (@localTime_after_epoch zone (z * msPerDay) E). ring. }
  split; [|split; [exact L|]].
  - unfold ofZ. rewrite parseDateIn_number.
    + apply newDate_integer; [|exact B].
      rewrite serial_time_value_in, <- inject_Z_mult, <- inject_Z_plus.
      reflexivity.
    + intros Q. apply (inject_Z_injective z 0) in Q. contradiction.
  - rewrite L. lia.
Qed.

Lemma parseDate_whole_serial_witness :
  let t := excelEpochIn meanTimeZone + 45306 * msPerDay in
  parseDateIn meanTimeZone Reference.host (VNum (ofZ 45306)) = Some t
  /\ localTime meanTimeZone t
     = (45306 - 25569) * msPerDay
       + (offsetAt meanTimeZone t
          - offsetAt meanTimeZone (excelEpochIn meanTimeZone))
  /\ (localTime meanTimeZone t = (45306 - 25569) * msPerDay
      <-> offsetAt meanTimeZone t
          = offsetAt meanTimeZone (excelEpochIn meanTimeZone)).
Proof.
  apply (@parseDate_whole_serial meanTimeZone Reference.host 45306).
  - discriminate.
  - reflexivity.
  - vm_compute. discriminate.
Defined.

(** Serial 45306, which is 2024-01-15, read in that zone: six and a half
    minutes before the midnight that begins the day. *)
Example whole_serial_before_midnight :
  exists t,
    parseDateIn meanTimeZone Reference.host (VNum (ofZ 45306)) = Some t
    /\ civil (dayOf (localTime meanTimeZone t)) = (2024, 1, 14)
    /\ localTime meanTimeZone t mod msPerDay
       = ((23 * 60 + 53) * 60 + 30) * 1000.
Proof. eexists. split; [reflexivity|]. split; reflexivity. Qed.

(** X11: a serial number other than 0, whole or not, whose time value is
    not before 1970-01-01T00:00Z and within the range of [Date], parses to
    a time value that lies as many whole days after local midnight of 30
    December 1899 as the integer part of the serial says: the fraction is
    the time of day and never reaches the next day.  When the offset of
    the zone from UTC is then what it was at that midnight, the local day
    is the one numbered by the integer part less 25569. *)
Theorem parseDate_serial_time_of_day (zone : TimeZone) (H : Host) (q : Q) :
  ~ (q == 0)%Q ->
  localTime zone (excelEpochIn zone) = daysFromCivil 1899 12 30 * msPerDay ->
  (0 <= inject_Z (excelEpochIn zone) + q * inject_Z msPerDay)%Q ->
  (inject_Z (excelEpochIn zone) + q * inject_Z msPerDay
   <= inject_Z 8640000000000000)%Q ->
  exists t,
    parseDateIn zone H (VNum (Finite q)) = Some t
    /\ (t - excelEpochIn zone) / msPerDay = Qfloor q
    /\ (offsetAt zone t = offsetAt zone (excelEpochIn zone) ->
        dayOf (localTime zone t) = Qfloor q - 25569).
Proof.
  intros N E Lo Hi.
  set (e := excelEpochIn zone) in *.
  set (v := (Qred (inject_Z e + Qred (q * inject_Z msPerDay)))%Q).
  assert (Ev : (v == inject_Z e + q * inject_Z msPerDay)%Q)
    by apply serial_time_value_in.
  assert (M : (0 < inject_Z msPerDay)%Q) by reflexivity.
  assert (T : Qfloor v = e + Qfloor (q * inject_Z msPerDay)).
  { rewrite Ev. rewrite Qplus_comm.
    rewrite Qfloor_plus_Z. ring. }
  set (w := Qfloor (q * inject_Z msPerDay)) in *.
  assert (L1 : Qfloor q * msPerDay <= w).
  { unfold w. rewrite <- (Qfloor_Z (Qfloor q * msPerDay)). apply Qfloor_resp_le.
    rewrite inject_Z_mult. apply Qmult_le_compat_r; [|now apply Qlt_le_weak].
    apply Qfloor_le. }
  assert (L2 : w < (Qfloor q + 1) * msPerDay).
  { unfold w. rewrite Zlt_Qlt. eapply Qle_lt_trans; [apply Qfloor_le|].
    rewrite inject_Z_mult. apply Qmult_lt_compat_r; [exact M|].
    apply Qlt_floor. }
  assert (D : w / msPerDay = Qfloor q).
  { unfold msPerDay in *. Z.div_mod_to_equations. lia. }
  exists (Qfloor v). split; [|split].
  - rewrite parseDateIn_number by exact N. fold e. fold v.
    apply serial_newDate; rewrite Ev; assumption.
  - rewrite T. replace (e + w - e) with w by ring. exact D.
  - intros O. pose proof (@localTime_after_epoch zone w E) as L.
    cbv zeta in L. fold e in L. rewrite <- T in L. fold e in O.
    rewrite O in L. rewrite L. unfold dayOf.
    replace (w - 25569 * msPerDay + (offsetAt zone e - offsetAt zone e))
      with (w + -25569 * msPerDay) by ring.
    rewrite Z.div_add by discriminate. rewrite D. ring.
Qed.

Lemma parseDate_serial_time_of_day_witness :
  exists t,
    parseDateIn utcZone Reference.host (VNum (Finite (90613 # 2))) = Some t
    /\ (t - excelEpochIn utcZone) / msPerDay = Qfloor (90613 # 2)
    /\ (offsetAt utcZone t = offsetAt utcZone (excelEpochIn utcZone) ->
        dayOf (localTime utcZone t) = Qfloor (90613 # 2) - 25569).
Proof.
  apply (@parseDate_serial_time_of_day utcZone Reference.host (90613 # 2)).
  - discriminate.
  - reflexivity.
  - vm_compute. discriminate.
  - vm_compute. discriminate.
Defined.

(** ** White space around a number *)

Lemma dropWhile_split (p : N -> bool) (s : jsstring) :
  exists l, s = l ++ dropWhile p s /\ Forall (fun c => p c = true) l.
Proof.
  induction s as [|c s (l & E & F)]; simpl.
  - exists []. split; auto.
  - destruct (p c) eqn:P.
    + exists (c :: l). split; [simpl; congruence|constructor; auto].
    + exists []. split; auto.
Qed.

Lemma trim_split (s : jsstring) :
  exists lead trail, s = lead ++ trim s ++ trail /\ blank lead /\ blank trail.
Proof.
  destruct (dropWhile_split isWhiteSpace s) as (lead & E1 & F1).
  destruct (dropWhile_split isWhiteSpace (rev (dropWhile isWhiteSpace s)))
    as (t & E2 & F2).
  exists lead, (rev t). repeat split; auto.
  - unfold trim. rewrite <- rev_app_distr, <- E2, rev_involutive. exact E1.
  - now apply Forall_rev.
Qed.

Lemma dropWhile_blank (w x : jsstring) :
  blank w -> dropWhile isWhiteSpace (w ++ x) = dropWhile isWhiteSpace x.
Proof. induction 1 as [|c w W _ IH]; simpl; [reflexivity|now rewrite W]. Qed.

Lemma blank_not_digit (c : N) : isWhiteSpace c = true -> isDigit c = false.
Proof.
  intros W. destruct (isDigit c) eqn:D; auto.
  unfold isDigit in D. unfold isWhiteSpace in W. bool_to_prop. lia.
Qed.

Lemma span_app_stop (p : N -> bool) (y w : jsstring) :
  Forall (fun c => p c = false) w ->
  span p (y ++ w) = (fst (span p y), snd (span p y) ++ w).
Proof.
  intros F. induction y as [|c y IH]; simpl.
  - destruct F as [|c w P F]; simpl; [reflexivity|now rewrite P].
  - destruct (p c); [|reflexivity]. rewrite IH. now destruct (span p y).
Qed.

Lemma blank_no_digits (w : jsstring) :
  blank w -> Forall (fun c => isDigit c = false) w.
Proof.
  intros B. eapply Forall_impl; [|exact B]. apply blank_not_digit.
Qed.

Lemma startsWith_blank (p y w : jsstring) :
  Forall (fun c => isWhiteSpace c = false) p -> blank w ->
  startsWith p (y ++ w) = startsWith p y.
Proof.
  intros P W. revert y. induction P as [|a p A _ IH]; intros y.
  - now destruct (y ++ w), y.
  - destruct y as [|c y]; simpl.
    + destruct W as [|b w B _]; [reflexivity|].
      destruct (a =? b)%N eqn:E; [|reflexivity].
      apply N.eqb_eq in E. congruence.
    + now rewrite IH.
Qed.

Lemma span_digits_blank (y w : jsstring) :
  blank w ->
  span isDigit (y ++ w) = (fst (span isDigit y), snd (span isDigit y) ++ w).
Proof. intros B. apply span_app_stop. now apply blank_no_digits. Qed.

Lemma blank_head (w : jsstring) (P : N -> bool) :
  blank w -> (forall c, isWhiteSpace c = true -> P c = false) ->
  match w with [] => True | c :: _ => P c = false end.
Proof. intros B HP. destruct B; auto. Qed.

Lemma sign_match {A : Type} (s : jsstring) (plus minus : jsstring -> A)
    (other : A) :
  match s with
  | 43%N :: r => plus r
  | 45%N :: r => minus r
  | _ => other
  end
  = match s with
    | [] => other
    | c :: r => if (c =? 43)%N then plus r
                else if (c =? 45)%N then minus r else other
    end.
Proof.
  destruct s as [|c r]; [reflexivity|].
  destruct (c =? 43)%N eqn:E1; [apply N.eqb_eq in E1; now subst|].
  destruct (c =? 45)%N eqn:E2; [apply N.eqb_eq in E2; now subst|].
  destruct c as [|p]; [reflexivity|].
  do 6 (destruct p as [p|p|]; try reflexivity); discriminate.
Qed.

Lemma point_match {A : Type} (s : jsstring) (point : jsstring -> A)
    (other : A) :
  match s with
  | 46%N :: r => point r
  | _ => other
  end
  = match s with
    | [] => other
    | c :: r => if (c =? 46)%N then point r else other
    end.
Proof.
  destruct s as [|c r]; [reflexivity|].
  destruct (c =? 46)%N eqn:E1; [apply N.eqb_eq in E1; now subst|].
  destruct c as [|p]; [reflexivity|].
  do 6 (destruct p as [p|p|]; try reflexivity); discriminate.
Qed.

Lemma parseExponent_blank (r w : jsstring) :
  blank w -> parseExponent (r ++ w) = parseExponent r.
Proof.
  intros B.
  assert (S0 : span isDigit w = ([], w)).
  { rewrite <- (app_nil_l w) at 1. now rewrite span_digits_blank. }
  destruct r as [|c s1]; simpl.
  - destruct B as [|b w W _]; [reflexivity|]. simpl.
    destruct ((b =? 101) || (b =? 69))%N eqn:E; [|reflexivity].
    unfold isWhiteSpace in W. bool_to_prop; lia.
  - destruct ((c =? 101) || (c =? 69))%N; [|reflexivity].
    rewrite (sign_match (s1 ++ w)), (sign_match s1).
    destruct s1 as [|d s2]; simpl.
    + destruct B as [|b w W B]; [reflexivity|].
      assert ((b =? 43)%N = false /\ (b =? 45)%N = false) as [N1 N2].
      { split; apply N.eqb_neq; intros ->; discriminate W. }
      rewrite N1, N2, S0. reflexivity.
    + destruct (d =? 43)%N; [|destruct (d =? 45)%N].
      * rewrite span_digits_blank by exact B. now destruct (span isDigit s2).
      * rewrite span_digits_blank by exact B. now destruct (span isDigit s2).
      * change (d :: s2 ++ w) with ((d :: s2) ++ w).
        rewrite span_digits_blank by exact B.
        now destruct (span isDigit (d :: s2)).
Qed.

Lemma js_Infinity_not_blank :
  Forall (fun c => isWhiteSpace c = false) (js "Infinity").
Proof. repeat constructor. Qed.

Lemma parseUnsigned_blank (negative : bool) (y w : jsstring) :
  blank w -> parseUnsigned negative (y ++ w) = parseUnsigned negative y.
Proof.
  intros B. unfold parseUnsigned.
  rewrite (startsWith_blank y js_Infinity_not_blank B).
  destruct (startsWith (js "Infinity") y); [reflexivity|].
  rewrite span_digits_blank by exact B.
  destruct (span isDigit y) as [ip r1]. cbn [fst snd].
  rewrite (point_match (r1 ++ w)), (point_match r1).
  destruct r1 as [|c r]; cbn [app].
  - destruct B as [|b w W B]; [reflexivity|].
    assert ((b =? 46)%N = false) as ->
      by (apply N.eqb_neq; intros ->; discriminate W).
    pose proof (parseExponent_blank [] (w := b :: w)) as E. cbn [app] in E.
    cbv beta iota. rewrite E by now constructor. reflexivity.
  - destruct (c =? 46)%N.
    + rewrite span_digits_blank by exact B.
      destruct (span isDigit r) as [fp r2]. cbn [fst snd]. cbv beta iota.
      now rewrite parseExponent_blank.
    + pose proof (parseExponent_blank (c :: r) B) as E. cbn [app] in E.
      cbv beta iota. now rewrite E.
Qed.

Lemma parseFloatString_blank_l (w x : jsstring) :
  blank w -> parseFloatString (w ++ x) = parseFloatString x.
Proof. intros B. unfold parseFloatString. now rewrite dropWhile_blank. Qed.

Lemma dropWhile_app_blank (x w : jsstring) :
  blank w ->
  dropWhile isWhiteSpace (x ++ w) = dropWhile isWhiteSpace x ++
    match dropWhile isWhiteSpace x with [] => [] | _ :: _ => w end.
Proof.
  intros B. induction x as [|c x IH]; simpl.
  - rewrite <- (app_nil_r w) at 1. rewrite dropWhile_blank by exact B.
    reflexivity.
  - destruct (isWhiteSpace c); [exact IH|reflexivity].
Qed.

Lemma parseFloatString_signs (s : jsstring) :
  parseFloatString s
  = match dropWhile isWhiteSpace s with
    | [] => parseUnsigned false []
    | c :: r =>
        if (c =? 43)%N then parseUnsigned false r
        else if (c =? 45)%N then parseUnsigned true r
        else parseUnsigned false (c :: r)
    end.
Proof.
  unfold parseFloatString.
  destruct (dropWhile isWhiteSpace s) as [|c r]; [reflexivity|].
  destruct (c =? 43)%N eqn:E1; [apply N.eqb_eq in E1; now subst|].
  destruct (c =? 45)%N eqn:E2; [apply N.eqb_eq in E2; now subst|].
  destruct c as [|p]; [reflexivity|].
  do 6 (destruct p as [p|p|]; try reflexivity); discriminate.
Qed.

Lemma parseFloatString_blank_r (x w : jsstring) :
  blank w -> parseFloatString (x ++ w) = parseFloatString x.
Proof.
  intros B. rewrite !parseFloatString_signs.
  rewrite dropWhile_app_blank by exact B.
  destruct (dropWhile isWhiteSpace x) as [|c y]; [reflexivity|].
  cbn [app]. destruct (c =? 43)%N; [|destruct (c =? 45)%N].
  - now apply parseUnsigned_blank.
  - now apply parseUnsigned_blank.
  - change (c :: y ++ w) with ((c :: y) ++ w). now apply parseUnsigned_blank.
Qed.

Lemma parseFloatString_trim (x : jsstring) :
  parseFloatString (trim x) = parseFloatString x.
Proof.
  destruct (trim_split x) as (lead & trail & E & L & T).
  rewrite E at 2.
  now rewrite parseFloatString_blank_l, parseFloatString_blank_r.
Qed.

Lemma removeSymbols_blank (w : jsstring) : blank w -> removeSymbols w = w.
Proof.
  induction 1 as [|c w W _ IH]; [reflexivity|].
  unfold removeSymbols in *. simpl. rewrite IH.
  assert (isStrippedSymbol c = false) as ->; [|reflexivity].
  destruct (isStrippedSymbol c) eqn:E; auto.
  unfold isStrippedSymbol in E. unfold isWhiteSpace in W. bool_to_prop; lia.
Qed.

(** The number [detectColumnType] reads from a string is the one
    [parseNumericValue] reads: trimming before or after the symbols are
    removed makes no difference to [parseFloat]. *)
Lemma cleaned_either_way (s : jsstring) :
  parseFloatString (removeSymbols (trim s))
  = parseFloatString (trim (removeSymbols s)).
Proof.
  rewrite parseFloatString_trim.
  destruct (trim_split s) as (lead & trail & E & L & T).
  rewrite E at 2. rewrite !removeSymbols_app.
  rewrite (removeSymbols_blank L), (removeSymbols_blank T).
  now rewrite parseFloatString_blank_l, parseFloatString_blank_r.
Qed.

(** X12: a string that [detectColumnType] counts as a number is one that
    [parseNumericValue] parses, and to the number the detection read:
    trimming before or after the currency, comma and percent signs are
    removed gives [parseFloat] the same number. *)
Theorem detected_numbers_parse (H : Host) (s : jsstring) :
  classify H (VStr s) = Some TNumber ->
  parseNumericValue (VStr s)
  = Some (parseFloatString (removeSymbols (trim s)))
  /\ isNaN (parseFloatString (removeSymbols (trim s))) = false.
Proof.
  unfold classify. cbn [toStringValue inClosedUnit inSerialRange].
  rewrite orb_false_r.
  destruct (includesChar 37 (trim s)); [discriminate|].
  destruct (hasCurrencyGlyph (trim s)); [discriminate|].
  destruct (existsb _ datePatterns); [discriminate|].
  destruct (isNaN (parseFloatString (removeSymbols (trim s)))) eqn:E;
    [discriminate|].
  intros _. split; [|reflexivity].
  unfold parseNumericValue. rewrite <- cleaned_either_way, E. reflexivity.
Qed.

Lemma detected_numbers_parse_witness :
  parseNumericValue (VStr (js " 1,250.5 "))
  = Some (parseFloatString (removeSymbols (trim (js " 1,250.5 "))))
  /\ isNaN (parseFloatString (removeSymbols (trim (js " 1,250.5 ")))) = false.
Proof. apply (@detected_numbers_parse Reference.host). reflexivity. Defined.

(** ** The sample of detectColumnType *)

(** X13: [detectColumnType] reads the first 20 cells only: the cells after
    them never change the type, and a column whose first 20 cells are
    [null], [undefined] or empty strings is [text] whatever follows. *)
Theorem detectColumnType_reads_twenty_cells (H : Host)
    (values rest : list jsvalue) :
  length values = 20%nat ->
  detectColumnType H (values ++ rest) = detectColumnType H values
  /\ (Forall (fun v => nonEmpty v = false) values ->
      detectColumnType H (values ++ rest) = TText).
Proof.
  intros L.
  assert (E : sample (values ++ rest) = sample values).
  { unfold sample. rewrite firstn_app, L, Nat.sub_diag, firstn_O, app_nil_r.
    reflexivity. }
  unfold detectColumnType. rewrite E. split; [reflexivity|].
  intros B. replace (sample values) with (@nil jsvalue); [reflexivity|].
  symmetry. unfold sample. rewrite <- L, firstn_all. clear L E.
  induction B as [|v values V _ IH]; simpl; auto. now rewrite V.
Qed.

Lemma detectColumnType_reads_twenty_cells_witness :
  let blanks := repeat VNull 20 in
  let rest := [VNum (ofZ 12); VNum (ofZ 15)] in
  detectColumnType Reference.host (blanks ++ rest)
  = detectColumnType Reference.host blanks
  /\ (Forall (fun v => nonEmpty v = false) blanks ->
      detectColumnType Reference.host (blanks ++ rest) = TText).
Proof.
  apply (@detectColumnType_reads_twenty_cells Reference.host
           (repeat VNull 20) [VNum (ofZ 12); VNum (ofZ 15)]).
  reflexivity.
Defined.

(** ** Substrings *)

Lemma startsWith_iff (p s : jsstring) :
  startsWith p s = true <-> exists t, s = p ++ t.
Proof.
  revert s. induction p as [|x p IH]; intros s; simpl.
  - split; [intros _; now exists s|intros _; now destruct s].
  - destruct s as [|y s]; [split; [discriminate|intros (t & E); discriminate E]|].
    rewrite andb_true_iff, N.eqb_eq, IH. split.
    + intros [-> (t & ->)]. now exists t.
    + intros (t & E). injection E as -> ->. split; auto. now exists t.
Qed.

Lemma includes_iff (p s : jsstring) :
  includes p s = true <-> exists a b, s = a ++ p ++ b.
Proof.
  induction s as [|c s IH]; simpl; rewrite orb_true_iff, startsWith_iff.
  - split.
    + intros [(t & E)|D]; [|discriminate]. exists [], t. exact E.
    + intros (a & b & E). left. symmetry in E.
      apply app_eq_nil in E as [-> E]. exists b. now symmetry.
  - rewrite IH. split.
    + intros [(t & E)|(a & b & E)].
      * exists [], t. exact E.
      * exists (c :: a), b. simpl. now rewrite E.
    + intros (a & b & E). destruct a as [|x a].
      * left. exists b. exact E.
      * right. injection E as _ E. now exists a, b.
Qed.

Lemma includes_trans (q p s : jsstring) :
  includes q p = true -> includes p s = true -> includes q s = true.
Proof.
  rewrite !includes_iff. intros (a & b & ->) (a' & b' & ->).
  exists (a' ++ a), (b ++ b'). now rewrite <- !app_assoc.
Qed.

(** A pattern that contains another pattern of the list adds nothing. *)
Lemma someIncluded_redundant (p q : jsstring) (before after : list jsstring)
    (lower : jsstring) :
  includes q p = true -> In q (before ++ after) ->
  someIncluded (before ++ p :: after) lower
  = someIncluded (before ++ after) lower.
Proof.
  intros Q HIn. unfold someIncluded. rewrite !existsb_app. simpl.
  destruct (includes p lower) eqn:E; [|reflexivity].
  rewrite <- existsb_app.
  assert (existsb (fun p0 => includes p0 lower) (before ++ after) = true) as ->.
  { apply existsb_exists. exists q. split; auto. eapply includes_trans; eauto. }
  now rewrite orb_true_r.
Qed.

(** ** The suggestions of autoDetectMappings *)

Lemma find_ext {A : Type} (f g : A -> bool) (l : list A) :
  (forall x, f x = g x) -> find f l = find g l.
Proof.
  intros E. induction l as [|a l IH]; simpl; [reflexivity|].
  now rewrite E, IH.
Qed.

(** Drops the pattern [p], which contains the pattern [q] of the list. *)
Ltac drop_pattern p q before after :=
  etransitivity;
  [ apply (@someIncluded_redundant p q before after _ eq_refl); simpl; auto
  | cbn [app] ].

Lemma sales_keywords (lower : jsstring) :
  someIncluded Names.salesPatterns lower
  = someIncluded [js "sales"; js "revenue"] lower.
Proof.
  unfold Names.salesPatterns.
  drop_pattern (js "attributable sales") (js "sales") (@nil jsstring)
    [js "sales"; js "revenue"; js "total sales"; js "attributed sales"].
  drop_pattern (js "total sales") (js "sales")
    [js "sales"; js "revenue"] [js "attributed sales"].
  drop_pattern (js "attributed sales") (js "sales")
    [js "sales"; js "revenue"] (@nil jsstring).
  reflexivity.
Qed.

Lemma date_keywords (lower : jsstring) :
  someIncluded Names.datePatterns lower
  = someIncluded [js "date"; js "time"; js "day"; js "period"] lower.
Proof.
  unfold Names.datePatterns.
  drop_pattern (js "timestamp") (js "time")
    [js "date"; js "time"; js "day"; js "period"] (@nil jsstring).
  reflexivity.
Qed.

Lemma impression_keywords (lower : jsstring) :
  someIncluded Names.impressionPatterns lower
  = someIncluded [js "impr"; js "views"; js "reach"] lower.
Proof.
  unfold Names.impressionPatterns.
  drop_pattern (js "impression") (js "impr") (@nil jsstring)
    [js "impr"; js "views"; js "reach"].
  reflexivity.
Qed.

Lemma spend_keywords (lower : jsstring) :
  someIncluded Names.spendPatterns lower
  = someIncluded [js "spend"; js "cost"; js "budget"] lower.
Proof.
  unfold Names.spendPatterns.
  drop_pattern (js "ad spend") (js "spend")
    [js "spend"; js "cost"; js "budget"] (@nil jsstring).
  reflexivity.
Qed.

(** X14: the suggestions of [autoDetectMappings] are decided by fewer
    keywords than the pattern lists hold: the date column is the first
    column of type date or named with [date], [time], [day] or [period];
    sales the first named with [sales] or [revenue]; impressions the first
    named with [impr], [views] or [reach]; spend the first named with
    [spend], [cost] or [budget].  The other patterns contain one of these
    and never decide. *)
Theorem suggestions_by_keyword (H : Host) (columns : list jsstring)
    (columnTypes : ColumnTypes) :
  let m := autoDetectMappings H columns columnTypes in
  let named keywords :=
    find (fun c => someIncluded keywords (toLowerCase H c)) columns in
  m_date m
  = find (fun c => isDateColumn columnTypes c
                   || someIncluded [js "date"; js "time"; js "day"; js "period"]
                        (toLowerCase H c)) columns
  /\ m_attributableSales m = named [js "sales"; js "revenue"]
  /\ m_impressions m = named [js "impr"; js "views"; js "reach"]
  /\ m_spend m = named [js "spend"; js "cost"; js "budget"].
Proof.
  cbv zeta. unfold autoDetectMappings. cbn [m_date m_attributableSales
    m_impressions m_spend]. repeat split; apply find_ext; intros c.
  - unfold dateTest. now rewrite date_keywords.
  - apply sales_keywords.
  - apply impression_keywords.
  - apply spend_keywords.
Qed.

Lemma someIncluded_exists (patterns : list jsstring) (lower : jsstring) :
  someIncluded patterns lower = true
  <-> exists p, In p patterns /\ includes p lower = true.
Proof. apply existsb_exists. Qed.

(** X15: the column suggested for clicks is a column of the file whose
    lower-cased name holds neither [rate] nor [through]; it is also the
    column suggested for CTR only when that name holds [ctr]. *)
Theorem clicks_suggestion_is_no_rate (H : Host) (columns : list jsstring)
    (columnTypes : ColumnTypes) (c : jsstring) :
  let m := autoDetectMappings H columns columnTypes in
  m_clicks m = Some c ->
  In c columns
  /\ includes (js "rate") (toLowerCase H c) = false
  /\ includes (js "through") (toLowerCase H c) = false
  /\ (m_ctr m = Some c -> includes (js "ctr") (toLowerCase H c) = true).
Proof.
  cbv zeta. unfold autoDetectMappings. cbn [m_clicks m_ctr]. intros F.
  apply find_some in F. destruct F as [HIn T]. unfold clicksTest in T.
  cbv zeta in T. apply andb_true_iff in T as [T T3].
  apply andb_true_iff in T as [_ T2].
  apply negb_true_iff in T2. apply negb_true_iff in T3.
  repeat split; auto. intros G. apply find_some in G. destruct G as [_ G].
  apply someIncluded_exists in G. destruct G as (p & Hp & I).
  assert (R : forall q k, includes k q = true -> includes q (toLowerCase H c) = true ->
                          includes k (toLowerCase H c) = true)
    by (intros q k; apply includes_trans).
  simpl in Hp.
  destruct Hp as [<-|[<-|[<-|[<-|[<-|[]]]]]]; auto.
  - pose proof (R (js "click through") (js "through") eq_refl I). congruence.
  - pose proof (R (js "clickthrough") (js "through") eq_refl I). congruence.
  - pose proof (R (js "click-through") (js "through") eq_refl I). congruence.
  - pose proof (R (js "click rate") (js "rate") eq_refl I). congruence.
Qed.

Lemma clicks_suggestion_is_no_rate_witness :
  let columns := [js "Day"; js "Click Rate"; js "Clicks"] in
  let m := autoDetectMappings Reference.host columns [] in
  In (js "Clicks") columns
  /\ includes (js "rate") (toLowerCase Reference.host (js "Clicks")) = false
  /\ includes (js "through") (toLowerCase Reference.host (js "Clicks")) = false
  /\ (m_ctr m = Some (js "Clicks") ->
      includes (js "ctr") (toLowerCase Reference.host (js "Clicks")) = true).
Proof.
  apply (@clicks_suggestion_is_no_rate Reference.host
           [js "Day"; js "Click Rate"; js "Clicks"] [] (js "Clicks")).
  reflexivity.
Defined.

(** ** parseFile *)

Lemma isSet_find (f : jsstring -> bool) (l : list jsstring) :
  Forall (fun c => c <> []) l -> isSet (find f l) = existsb f l.
Proof.
  induction 1 as [|c l N _ IH]; simpl; [reflexivity|].
  destruct (f c); [|exact IH]. destruct c; [congruence|reflexivity].
Qed.

Lemma isDateColumn_detected (H : Host) (jsonData : list object)
    (names : list jsstring) (c : jsstring) :
  In c names ->
  isDateColumn
    (map (fun col =>
            (col, detectColumnType H (map (fun row => getProp row col) jsonData)))
       names) c
  = sameType (detectColumnType H (map (fun row => getProp row c) jsonData)) TDate.
Proof.
  unfold isDateColumn. induction names as [|n names IH]; intros HIn;
    [destruct HIn|].
  simpl. destruct (str_eqb n c) eqn:E.
  - apply str_eqb_eq in E. subst n. now destruct (detectColumnType H _).
  - destruct HIn as [->|HIn]; [|now apply IH].
    assert (str_eqb c c = true) by now apply str_eqb_eq. congruence.
Qed.

Lemma existsb_orb {A : Type} (f g : A -> bool) (l : list A) :
  existsb f l || existsb g l = existsb (fun x => f x || g x) l.
Proof.
  induction l as [|a l IH]; simpl; [reflexivity|]. rewrite <- IH.
  destruct (f a), (g a), (existsb f l), (existsb g l); reflexivity.
Qed.

(** X16: after [parseFile], when no column name is empty, no mapping is
    needed exactly when some column is detected as a date or named like
    one, and some column is named like sales, CTR or impressions; columns
    named like clicks or spend do not count. *)
Theorem parseFile_needsMapping (H : Host) (jsonData : list object)
    (r : ParseResult) :
  parseFile H jsonData = Some r ->
  Forall (fun c => c <> []) (columns r) ->
  needsMapping r = false
  <-> (exists c, In c (columns r)
                 /\ (detectColumnType H (cells jsonData c) = TDate
                     \/ someIncluded Names.datePatterns (toLowerCase H c) = true))
      /\ (exists c, In c (columns r) /\ metricTest H c = true).
Proof.
  unfold parseFile. destruct jsonData as [|first rest]; [discriminate|].
  set (jsonData := first :: rest). intros E. injection E as <-.
  cbn [columns needsMapping]. intros NE.
  set (names := map fst first) in *.
  set (types := map _ names).
  unfold autoDetectMappings. cbn [m_date m_attributableSales m_ctr m_impressions].
  rewrite !(isSet_find _ NE), !existsb_orb.
  fold (metricTest H).
  assert (D : forall c, In c names ->
                dateTest H types c = true
                <-> detectColumnType H (cells jsonData c) = TDate
                    \/ someIncluded Names.datePatterns (toLowerCase H c) = true).
  { intros c HIn. unfold dateTest.
    assert (Q : isDateColumn types c
                = sameType (detectColumnType H (cells jsonData c)) TDate)
      by exact (isDateColumn_detected H jsonData names c HIn).
    rewrite Q, orb_true_iff.
    destruct (detectColumnType H (cells jsonData c)); simpl;
      intuition discriminate. }
  rewrite orb_false_iff, !negb_false_iff, !existsb_exists.
  split.
  - intros [(c & HIn & T) M]. split; [|exact M].
    exists c. split; auto. now apply D.
  - intros [(c & HIn & T) M]. split; [|exact M].
    exists c. split; auto. now apply D.
Qed.

Lemma parseFile_needsMapping_witness :
  let jsonData :=
    [ [(js "Day", VStr (js "2024-01-01")); (js "Revenue", VNum (ofZ 100))];
      [(js "Day", VStr (js "2024-01-02")); (js "Revenue", VNum (ofZ 50))] ] in
  exists r,
    parseFile Reference.host jsonData = Some r
    /\ (needsMapping r = false
        <-> (exists c, In c (columns r)
               /\ (detectColumnType Reference.host (cells jsonData c) = TDate
                   \/ someIncluded Names.datePatterns
                        (toLowerCase Reference.host c) = true))
            /\ (exists c, In c (columns r)
                          /\ metricTest Reference.host c = true)).
Proof.
  eexists. split; [reflexivity|].
  apply parseFile_needsMapping; [reflexivity|].
  repeat constructor; discriminate.
Defined.

(** ** Selections of metrics *)

Lemma filter_keeps_distinct {X Y : Type} (key : X -> Y) (keep : X -> bool)
    (xs : list X) :
  NoDup (map key xs) -> NoDup (map key (filter keep xs)).
Proof.
  intros Distinct. induction xs as [|x xs IH]; [constructor|].
  cbn [map] in Distinct. apply NoDup_cons_iff in Distinct.
  destruct Distinct as [Fresh Distinct]. cbn [filter].
  destruct (keep x); [|now apply IH].
  cbn [map]. constructor; [|now apply IH].
  intros Seen. apply Fresh. apply in_map_iff in Seen.
  destruct Seen as (y & Same & Kept). apply filter_In in Kept.
  apply in_map_iff. exists y. tauto.
Qed.

Lemma existsb_str_eqb (k : jsstring) (l : list jsstring) :
  existsb (str_eqb k) l = true <-> In k l.
Proof.
  rewrite existsb_exists. split.
  - intros (x & HIn & E). apply str_eqb_eq in E. now subst.
  - intros HIn. exists k. split; auto. now apply str_eqb_eq.
Qed.

(** X17: in [ChartCard], when the selected metrics have distinct fields,
    a selection that [handleMetricToggle] reports is never empty, has
    distinct fields again, and holds the toggled metric exactly when it was
    not selected before. *)
Theorem toggle_keeps_a_metric_selected (selected : list ChartMetric)
    (metric : ChartMetric) (selection : list ChartMetric) :
  NoDup (map cm_field selected) ->
  ChartCard.handleMetricToggle selected metric = Some selection ->
  selection <> []
  /\ NoDup (map cm_field selection)
  /\ (In (cm_field metric) (map cm_field selection)
      <-> ~ In (cm_field metric) (map cm_field selected)).
Proof.
  intros ND. unfold ChartCard.handleMetricToggle. cbv zeta.
  destruct (existsb _ selected) eqn:S.
  - destruct (1 <? length selected)%nat eqn:L; [|discriminate].
    intros [= <-]. apply Nat.ltb_lt in L.
    assert (Sel : In (cm_field metric) (map cm_field selected)).
    { apply existsb_exists in S. destruct S as (m & HIn & E).
      apply str_eqb_eq in E. rewrite <- E. now apply in_map. }
    split; [|split].
    + destruct selected as [|a [|b rest]]; simpl in L; try lia.
      inversion ND as [|? ? Ha _]; subst. simpl in Ha.
      destruct (str_eqb (cm_field a) (cm_field metric)) eqn:Ea.
      * apply str_eqb_eq in Ea.
        assert (Eb : str_eqb (cm_field b) (cm_field metric) = false).
        { apply str_eqb_neq. intros Eb. apply Ha. left. congruence. }
        simpl. rewrite Ea, Eb.
        replace (str_eqb (cm_field metric) (cm_field metric)) with true
          by (symmetry; now apply str_eqb_eq).
        simpl. discriminate.
      * simpl. rewrite Ea. simpl. discriminate.
    + now apply filter_keeps_distinct.
    + split; [|tauto]. intros HIn. exfalso.
      apply in_map_iff in HIn. destruct HIn as (m & E & Hm).
      apply filter_In in Hm. destruct Hm as [_ Hm].
      apply negb_true_iff in Hm. apply str_eqb_neq in Hm. contradiction.
  - intros [= <-].
    assert (New : ~ In (cm_field metric) (map cm_field selected)).
    { intros HIn. apply in_map_iff in HIn. destruct HIn as (m & E & Hm).
      assert (existsb (fun m0 => str_eqb (cm_field m0) (cm_field metric))
                selected = true).
      { apply existsb_exists. exists m. split; auto. now apply str_eqb_eq. }
      congruence. }
    split; [|split].
    + intros C. apply app_eq_nil in C. destruct C as [_ C]. discriminate C.
    + rewrite map_app. simpl. apply NoDup_app.
      * exact ND.
      * constructor; [intros []|constructor].
      * intros x Hx [<-|[]]. contradiction.
    + split; auto. intros _. rewrite map_app. apply in_or_app. right. now left.
Qed.

Lemma toggle_keeps_a_metric_selected_witness :
  let ctr := {| cm_field := js "ctr"; cm_label := js "CTR";
                cm_aggregationType := AVERAGE; cm_color := colorAt 2;
                cm_isPercentage := true; cm_formula := None |} in
  let clicks := {| cm_field := js "clicks"; cm_label := js "Clicks";
                   cm_aggregationType := SUM; cm_color := colorAt 1;
                   cm_isPercentage := false; cm_formula := None |} in
  [clicks] <> []
  /\ NoDup (map cm_field [clicks])
  /\ (In (cm_field ctr) (map cm_field [clicks])
      <-> ~ In (cm_field ctr) (map cm_field [ctr; clicks])).
Proof.
  intros ctr clicks.
  apply (@toggle_keeps_a_metric_selected [ctr; clicks] ctr [clicks]).
  - repeat constructor; simpl; intuition discriminate.
  - reflexivity.
Defined.

(** ** The legend of EngagementChart *)

Lemma handleLegendClick_invariant (valid : list ChartMetric)
    (hidden : list jsstring) (field : jsstring) :
  NoDup hidden -> (length hidden < length valid)%nat ->
  NoDup (EngagementChart.handleLegendClick valid hidden field)
  /\ (length (EngagementChart.handleLegendClick valid hidden field)
      < length valid)%nat.
Proof.
  intros ND L. unfold EngagementChart.handleLegendClick.
  destruct (existsb (str_eqb field) hidden) eqn:E.
  - split; [now apply NoDup_filter|].
    eapply Nat.le_lt_trans; [apply filter_length_le|exact L].
  - destruct (length hidden + 1 <? length valid)%nat eqn:C; [|now split].
    apply Nat.ltb_lt in C. split.
    + apply NoDup_app; auto.
      * constructor; [intros []|constructor].
      * intros x Hx [<-|[]].
        assert (existsb (str_eqb field) hidden = true)
          by now apply existsb_str_eqb.
        congruence.
    + rewrite length_app. simpl. lia.
Qed.

(** X18: in [EngagementChart], when the selected metrics are not empty
    and have distinct fields, after any sequence of clicks on the legend,
    from no hidden series, at least one selected metric is not hidden. *)
Theorem legend_keeps_a_series_visible (valid : list ChartMetric)
    (clicks : list jsstring) :
  NoDup (map cm_field valid) -> valid <> [] ->
  let hidden :=
    fold_left (EngagementChart.handleLegendClick valid) clicks [] in
  exists m, In m valid /\ ~ In (cm_field m) hidden.
Proof.
  intros ND NE hidden.
  assert (I : NoDup hidden /\ (length hidden < length valid)%nat).
  { unfold hidden. clear hidden.
    assert (I0 : NoDup (@nil jsstring)
                 /\ (length (@nil jsstring) < length valid)%nat).
    { split; [constructor|]. destruct valid; [congruence|simpl; lia]. }
    revert I0. generalize (@nil jsstring).
    induction clicks as [|c clicks IH]; intros h [A B]; simpl; [now split|].
    apply IH. now apply handleLegendClick_invariant. }
  destruct I as [NDh L].
  destruct (existsb (fun m => negb (existsb (str_eqb (cm_field m)) hidden))
              valid) eqn:E.
  - apply existsb_exists in E. destruct E as (m & HIn & V).
    exists m. split; auto. apply negb_true_iff in V.
    intros C. apply existsb_str_eqb in C. congruence.
  - exfalso.
    assert (Incl : incl (map cm_field valid) hidden).
    { intros f Hf. apply in_map_iff in Hf. destruct Hf as (m & <- & Hm).
      apply existsb_str_eqb. destruct (existsb _ hidden) eqn:V; auto.
      assert (existsb (fun m0 => negb (existsb (str_eqb (cm_field m0)) hidden))
                valid = true).
      { apply existsb_exists. exists m. split; auto. now rewrite V. }
      congruence. }
    pose proof (NoDup_incl_length ND Incl) as Len.
    rewrite length_map in Len. lia.
Qed.

Lemma legend_keeps_a_series_visible_witness :
  let ctr := {| cm_field := js "ctr"; cm_label := js "CTR";
                cm_aggregationType := AVERAGE; cm_color := colorAt 2;
                cm_isPercentage := true; cm_formula := None |} in
  let clicks := {| cm_field := js "clicks"; cm_label := js "Clicks";
                   cm_aggregationType := SUM; cm_color := colorAt 1;
                   cm_isPercentage := false; cm_formula := None |} in
  let hidden :=
    fold_left (EngagementChart.handleLegendClick [ctr; clicks])
      [js "ctr"; js "clicks"; js "ctr"; js "clicks"] [] in
  exists m, In m [ctr; clicks] /\ ~ In (cm_field m) hidden.
Proof.
  intros ctr clicks.
  apply (@legend_keeps_a_series_visible [ctr; clicks]
           [js "ctr"; js "clicks"; js "ctr"; js "clicks"]).
  - repeat constructor; simpl; intuition discriminate.
  - discriminate.
Defined.

(** ** The metrics of EngagementChart *)

Lemma customField_step (H : Host) (metrics : list ChartMetric)
    (entry : jsstring * MappingValue) :
  map cm_field (EngagementChart.customField H metrics entry)
  = map cm_field metrics ++ (if customTest H entry then [fst entry] else []).
Proof.
  destruct entry as [field value].
  unfold EngagementChart.customField, customTest. cbn [fst snd].
  destruct (existsb (str_eqb field) EngagementChart.primaryFields);
    [now rewrite app_nil_r|].
  destruct value as [|s|config]; try now rewrite app_nil_r.
  destruct (truthy (mc_column config)); [|now rewrite app_nil_r].
  cbv zeta. cbn [negb andb].
  destruct (EngagementChart.isTrue (mc_isPercentage config)
            || someIncluded EngagementChart.engagementKeywords _);
    [|now rewrite app_nil_r].
  now rewrite map_app.
Qed.

Lemma customField_fields (H : Host) (entries : UIMapping) :
  forall metrics,
    map cm_field (fold_left (EngagementChart.customField H) entries metrics)
    = map cm_field metrics ++ map fst (filter (customTest H) entries).
Proof.
  induction entries as [|entry entries IH]; intros metrics;
    cbn [fold_left filter].
  - now rewrite app_nil_r.
  - rewrite IH, customField_step, <- app_assoc.
    now destruct (customTest H entry).
Qed.

Lemma engagementField_fields (cm : UIMapping) (metrics : list ChartMetric)
    (f : jsstring) :
  map cm_field (EngagementChart.engagementField cm metrics f)
  = map cm_field metrics
    ++ match configColumn (lookupUI cm f) with Some _ => [f] | None => [] end.
Proof.
  unfold EngagementChart.engagementField, configColumn.
  destruct (lookupUI cm f) as [|s|config]; try now rewrite app_nil_r.
  destruct (truthy (mc_column config)); [|now rewrite app_nil_r].
  now rewrite map_app.
Qed.

Lemma availableMetrics_fields_list (H : Host) (cm : UIMapping) :
  map cm_field (EngagementChart.availableMetrics H cm)
  = filter (fun f => match configColumn (lookupUI cm f) with
                     | Some _ => true
                     | None => false
                     end)
      [js "ctr"; js "impressions"; js "clicks"]
    ++ map fst (filter (customTest H) cm).
Proof.
  unfold EngagementChart.availableMetrics. cbv zeta.
  rewrite customField_fields. f_equal. cbn [fold_left].
  rewrite !engagementField_fields. cbn [filter].
  set (ci := configColumn (lookupUI cm (js "impressions"))).
  set (cc := configColumn (lookupUI cm (js "clicks"))).
  clearbody ci cc. unfold configColumn.
  destruct (lookupUI cm (js "ctr")) as [|s|ctr];
    [| |destruct (truthy (mc_column ctr))]; destruct ci, cc; reflexivity.
Qed.

Lemma lookupUI_in (cm : UIMapping) (k : jsstring) (v : MappingValue) :
  NoDup (map fst cm) -> In (k, v) cm -> lookupUI cm k = v.
Proof.
  unfold lookupUI. induction cm as [|[k' v'] cm IH]; intros ND HIn;
    [destruct HIn|].
  simpl in *. inversion ND as [|? ? Hk NDcm]; subst.
  destruct (str_eqb k' k) eqn:E.
  - apply str_eqb_eq in E. subst k'. destruct HIn as [[= ->]|HIn]; auto.
    exfalso. apply Hk. apply in_map_iff. now exists (k, v).
  - destruct HIn as [[= -> ->]|HIn]; [|now apply IH].
    assert (str_eqb k k = true) by now apply str_eqb_eq. congruence.
Qed.

(** X19: for a mapping with distinct keys, the metrics that
    [EngagementChart] offers have distinct fields, none of them [date] or
    [attributableSales], and each is a field that the mapping configures
    with a column. *)
Theorem engagement_metrics_are_distinct_mapped_fields (H : Host)
    (cm : UIMapping) :
  NoDup (map fst cm) ->
  NoDup (map cm_field (EngagementChart.availableMetrics H cm))
  /\ forall m, In m (EngagementChart.availableMetrics H cm) ->
       cm_field m <> js "date"
       /\ cm_field m <> js "attributableSales"
       /\ configColumn (lookupUI cm (cm_field m)) <> None.
Proof.
  intros ND.
  assert (Custom : forall f, In f (map fst (filter (customTest H) cm)) ->
            ~ In f EngagementChart.primaryFields
            /\ configColumn (lookupUI cm f) <> None).
  { intros f Hf. apply in_map_iff in Hf. destruct Hf as ([k v] & <- & Hkv).
    apply filter_In in Hkv. destruct Hkv as [HIn T]. cbn [fst].
    unfold customTest in T. cbn [fst snd] in T.
    apply andb_true_iff in T. destruct T as [T1 T2].
    apply negb_true_iff in T1. split.
    - intros C. apply existsb_str_eqb in C. congruence.
    - rewrite (@lookupUI_in cm k v ND HIn). destruct v as [|s|config];
        try discriminate. simpl.
      destruct (truthy (mc_column config)); [discriminate|discriminate T2]. }
  pose proof (availableMetrics_fields_list H cm) as L.
  split.
  - rewrite L. apply NoDup_app.
    + apply NoDup_filter. repeat constructor; simpl; intuition discriminate.
    + change (map fst (filter (customTest H) cm))
        with (map (@fst jsstring MappingValue) (filter (customTest H) cm)).
      now apply filter_keeps_distinct.
    + intros f Hf Hc. apply filter_In in Hf. destruct Hf as [Hf _].
      apply (Custom f) in Hc. destruct Hc as [Hc _]. apply Hc.
      unfold EngagementChart.primaryFields. simpl in *. tauto.
  - intros m Hm. assert (Hf : In (cm_field m)
                           (map cm_field (EngagementChart.availableMetrics H cm)))
      by now apply in_map.
    rewrite L in Hf. apply in_app_or in Hf. destruct Hf as [Hf|Hf].
    + apply filter_In in Hf. destruct Hf as [Hf T].
      repeat split.
      * intros E. rewrite E in Hf. simpl in Hf. intuition discriminate.
      * intros E. rewrite E in Hf. simpl in Hf. intuition discriminate.
      * intros C. now rewrite C in T.
    + destruct (Custom _ Hf) as [P C]. repeat split; auto.
      * intros E. apply P. rewrite E. now left.
      * intros E. apply P. rewrite E. right. now left.
Qed.

Lemma engagement_metrics_are_distinct_mapped_fields_witness :
  let cm :=
    [ (js "date", MString (js "Day"));
      (js "ctr", MConfig {| mc_column := Some (js "CTR"); mc_label := None;
                            mc_color := None; mc_isPercentage := None;
                            mc_formula := None |});
      (js "custom_cvr",
       MConfig {| mc_column := Some (js "__formula__");
                  mc_label := Some (js "Conversion rate");
                  mc_color := None; mc_isPercentage := Some false;
                  mc_formula := Some (js "{orders} / {clicks}") |}) ] in
  NoDup (map cm_field (EngagementChart.availableMetrics Reference.host cm))
  /\ forall m, In m (EngagementChart.availableMetrics Reference.host cm) ->
       cm_field m <> js "date"
       /\ cm_field m <> js "attributableSales"
       /\ configColumn (lookupUI cm (cm_field m)) <> None.
Proof.
  intros cm.
  apply (@engagement_metrics_are_distinct_mapped_fields Reference.host cm).
  repeat constructor; simpl; intuition discriminate.
Defined.

(** ** The date column of EngagementChart *)

Lemma lookupColumn_setColumn_other (m : ColumnMapping) (k k' c : jsstring) :
  k <> k' -> lookupColumn (setColumn m k c) k' = lookupColumn m k'.
Proof.
  intros N. induction m as [|[k0 c0] m IH]; simpl.
  - apply str_eqb_neq in N. now rewrite N.
  - destruct (str_eqb k0 k) eqn:E; simpl.
    + apply str_eqb_eq in E. subst k0. apply str_eqb_neq in N. now rewrite N.
    + now destruct (str_eqb k0 k').
Qed.

Lemma aggregatorStep_date (mapping : ColumnMapping)
    (entry : jsstring * MappingValue) :
  lookupColumn (EngagementChart.aggregatorStep mapping entry) (js "date")
  = lookupColumn mapping (js "date").
Proof.
  destruct entry as [field config]. unfold EngagementChart.aggregatorStep.
  destruct (str_eqb field (js "date")) eqn:E; [reflexivity|].
  apply str_eqb_neq in E.
  destruct config as [|s|c]; [reflexivity| |].
  - now apply lookupColumn_setColumn_other.
  - destruct (truthy (mc_column c)); [|reflexivity].
    destruct (str_eqb _ (js "__formula__")); [reflexivity|].
    now apply lookupColumn_setColumn_other.
Qed.

Lemma aggregatorMapping_date (cm : UIMapping) :
  mappedColumn (EngagementChart.aggregatorMapping cm) (js "date")
  = match lookupUI cm (js "date") with
    | MConfig c => truthy (mc_column c)
    | MString s => truthy (Some s)
    | MUndefined => None
    end.
Proof.
  unfold EngagementChart.aggregatorMapping, mappedColumn. cbv zeta.
  set (mapping := match lookupUI cm (js "date") with
                  | MUndefined => [] | MString s => _ | MConfig c => _ end).
  assert (E : forall entries m,
            lookupColumn (fold_left EngagementChart.aggregatorStep entries m)
              (js "date") = lookupColumn m (js "date")).
  { induction entries as [|e entries IH]; intros m; simpl; [reflexivity|].
    now rewrite IH, aggregatorStep_date. }
  rewrite E. unfold mapping.
  destruct (lookupUI cm (js "date")) as [|s|c]; [reflexivity| |].
  - now destruct s.
  - destruct (mc_column c) as [[|x s]|]; reflexivity.
Qed.

(** X20: the date column that [EngagementChart] hands to the aggregator
    is the configured column of [date], or the string that [date] is
    mapped to; no other entry of the mapping sets it, and without it the
    chart has no rows whatever the data. *)
Theorem engagement_chart_needs_a_date_column (H : Host) (data : list object)
    (cm : UIMapping) (g : Granularity) (selected : list ChartMetric) :
  let dateColumn :=
    match lookupUI cm (js "date") with
    | MConfig c => truthy (mc_column c)
    | MString s => truthy (Some s)
    | MUndefined => None
    end in
  mappedColumn (EngagementChart.aggregatorMapping cm) (js "date") = dateColumn
  /\ (dateColumn = None -> EngagementChart.rows H data cm g selected = []).
Proof.
  cbv zeta. split; [apply aggregatorMapping_date|].
  intros N. unfold EngagementChart.rows, EngagementChart.baseChartData.
  cbv zeta. rewrite aggregatedData_no_date
    by (rewrite aggregatorMapping_date; exact N).
  unfold EngagementChart.chartData, chartData. cbv zeta.
  now destruct (filter hasFormula _).
Qed.

(** ** The formulas of EngagementChart *)

Lemma evaluateFormula_finite (H : Host) (formula : jsstring) (row : object)
    (cm : FieldMapping) (r : number) :
  evaluateFormula H formula row cm = Some r -> isFinite r = true.
Proof.
  unfold evaluateFormula. destruct formula; [discriminate|].
  destruct (substitute _ _ _ _ _); [|discriminate].
  destruct (negb _); [discriminate|].
  destruct (evalArithmetic H _) as [x|]; [|discriminate].
  destruct (isFinite x) eqn:F; [|discriminate]. now intros [= <-].
Qed.

Lemma formulaValue_finite (H : Host) (cm : UIMapping) (row : object)
    (m : ChartMetric) :
  isFinite (EngagementChart.formulaValue H cm row m) = true.
Proof.
  unfold EngagementChart.formulaValue. cbv zeta.
  destruct (evaluateFormula _ _ _ _) as [r|] eqn:E; [|reflexivity].
  apply evaluateFormula_finite in E.
  now destruct (isFalsy (VNum r)).
Qed.

Section Formulas.

Variable value : ChartMetric -> number.

Lemma fold_formula_other (metrics : list ChartMetric) (acc : object)
    (k : jsstring) :
  ~ In k (map cm_field metrics) ->
  getProp (fold_left (fun newRow metric =>
                        setProp newRow (cm_field metric) (VNum (value metric)))
             metrics acc) k
  = getProp acc k.
Proof.
  revert acc. induction metrics as [|x metrics IH]; intros acc N; simpl; auto.
  simpl in N. rewrite IH by tauto. apply getProp_setProp_other. tauto.
Qed.

Lemma fold_formula_unique (metrics : list ChartMetric) (acc : object)
    (m : ChartMetric) :
  NoDup (map cm_field metrics) -> In m metrics ->
  getProp (fold_left (fun newRow metric =>
                        setProp newRow (cm_field metric) (VNum (value metric)))
             metrics acc) (cm_field m)
  = VNum (value m).
Proof.
  revert acc. induction metrics as [|x metrics IH]; intros acc ND HIn;
    [destruct HIn|].
  simpl in *. inversion ND as [|? ? Hx NDrest]; subst.
  destruct HIn as [->|HIn]; [|now apply IH].
  rewrite fold_formula_other by exact Hx. apply getProp_setProp_same.
Qed.

End Formulas.

(** X21: when the selected formula metrics have distinct fields, each row
    of the chart differs from the row of the aggregator at the same
    position in the fields of the formula metrics only; there it holds the
    value of the formula evaluated on that aggregated row, or 0 where the
    evaluation gives [null] or 0: always a finite number. *)
Theorem formulas_read_the_aggregated_row (H : Host) (cm : UIMapping)
    (valid : list ChartMetric) (base : list object) :
  NoDup (map cm_field (filter hasFormula valid)) ->
  Forall2
    (fun row row' =>
       (forall m, In m valid -> hasFormula m = true ->
          getProp row' (cm_field m)
          = VNum (EngagementChart.formulaValue H cm row m)
          /\ isFinite (EngagementChart.formulaValue H cm row m) = true)
       /\ (forall k, ~ In k (map cm_field (filter hasFormula valid)) ->
             getProp row' k = getProp row k))
    base (EngagementChart.chartData H cm valid base).
Proof.
  intros ND. unfold EngagementChart.chartData. cbv zeta.
  destruct (filter hasFormula valid) as [|f fs] eqn:F.
  - induction base as [|row base IH]; constructor; auto. split; auto.
    intros m Hm Fm.
    assert (C : In m (filter hasFormula valid)) by (apply filter_In; now split).
    rewrite F in C. destruct C.
  - rewrite <- F in *. clear F f fs.
    induction base as [|row base IH]; simpl; constructor; auto. split.
    + intros m Hm Fm. split; [|apply formulaValue_finite].
      apply (fold_formula_unique (EngagementChart.formulaValue H cm row)).
      * exact ND.
      * apply filter_In. now split.
    + intros k Hk.
      now apply (fold_formula_other (EngagementChart.formulaValue H cm row)).
Qed.

Lemma formulas_read_the_aggregated_row_witness :
  let base :=
    EngagementChart.baseChartData Reference.host engagementData
      engagementMapping DAILY [rateMetric] in
  Forall2
    (fun row row' =>
       (forall m, In m [rateMetric] -> hasFormula m = true ->
          getProp row' (cm_field m)
          = VNum (EngagementChart.formulaValue Reference.host
                    engagementMapping row m)
          /\ isFinite (EngagementChart.formulaValue Reference.host
                         engagementMapping row m) = true)
       /\ (forall k, ~ In k (map cm_field (filter hasFormula [rateMetric])) ->
             getProp row' k = getProp row k))
    base
    (EngagementChart.chartData Reference.host engagementMapping [rateMetric]
       base).
Proof.
  apply (@formulas_read_the_aggregated_row Reference.host engagementMapping
           [rateMetric]).
  vm_compute. repeat constructor. intros [].
Defined.

(** ** The keys of an aggregated row *)

Lemma hasOwnProperty_keys (o : object) (k : jsstring) :
  hasOwnProperty o k = true <-> In k (map fst o).
Proof.
  unfold hasOwnProperty. rewrite existsb_exists, in_map_iff. split.
  - intros (kv & HIn & E). apply str_eqb_eq in E. now exists kv.
  - intros (kv & E & HIn). exists kv. split; auto. now apply str_eqb_eq.
Qed.

Lemma setProp_keys (o : object) (k : jsstring) (v : jsvalue) (k' : jsstring) :
  In k' (map fst (setProp o k v)) -> In k' (map fst o) \/ k' = k.
Proof.
  induction o as [|[k0 v0] o IH]; simpl.
  - intros [<-|[]]. now right.
  - destruct (str_eqb k0 k); simpl; intros [<-|HIn]; auto.
    destruct (IH HIn); auto.
Qed.

Lemma fold_aggregateMetric_keys (cm : ColumnMapping) (rows : list object)
    (metrics : list Metric) :
  forall (o : object) (k : jsstring),
    In k (map fst (fold_left (aggregateMetric cm rows) metrics o)) ->
    In k (map fst o) \/ In k (fields metrics).
Proof.
  induction metrics as [|m metrics IH]; intros o k Hk; simpl in *; [now left|].
  destruct (IH _ _ Hk) as [A|A]; [|right; now right].
  unfold aggregateMetric in A. apply setProp_keys in A.
  destruct A as [A| ->]; [now left|right; now left].
Qed.

Lemma chartData_keys H data cm g metrics (row : object) (k : jsstring) :
  In row (chartData (aggregatedData H data cm g metrics)) ->
  In k (map fst row) -> In k (chartKeys metrics).
Proof.
  unfold chartData. intros HIn Hk. apply in_map_iff in HIn.
  destruct HIn as (o & <- & Ho). apply setProp_keys in Hk.
  unfold chartKeys. destruct Hk as [Hk| ->]; [|simpl; tauto].
  destruct (mappedColumn cm (js "date")) as [dc|] eqn:D.
  - destruct (@aggregatedData_in _ _ _ _ _ _ _ D Ho) as (p & _ & ->).
    unfold aggregatePeriod in Hk. apply fold_aggregateMetric_keys in Hk.
    apply in_or_app. destruct Hk as [Hk|Hk]; [left|now right].
    simpl in Hk. simpl. tauto.
  - rewrite aggregatedData_no_date in Ho by exact D. destruct Ho.
Qed.

Lemma lookupValue_no_key (H : Host) (row : object) (fm : FieldMapping)
    (keys : list jsstring) (x : jsstring) :
  (forall k, In k (map fst row) -> In k keys) ->
  (forall k, In k keys -> toLowerCase H k <> toLowerCase H x) ->
  (forall e, findEntry fm x = Some e -> ~ In (actualColumnOf (snd e) x) keys) ->
  lookupValue H row fm x = None.
Proof.
  intros Keys Case Entry. unfold lookupValue.
  assert (Own : forall y, ~ In y keys -> hasOwnProperty row y = false).
  { intros y N. destruct (hasOwnProperty row y) eqn:E; auto.
    apply hasOwnProperty_keys in E. elim N. now apply Keys. }
  assert (Nx : ~ In x keys) by (intros C; now apply (Case x C)).
  rewrite (Own x Nx).
  unfold caseInsensitiveMatch, findKeyIgnoringCase.
  destruct (find _ row) as [kv|] eqn:F.
  - apply find_some in F. destruct F as [HIn E]. apply str_eqb_eq in E.
    exfalso. apply (Case (fst kv)); auto. apply Keys. now apply in_map.
  - simpl. unfold mappingMatch.
    destruct (findEntry fm x) as [[k config]|] eqn:E; [|reflexivity].
    pose proof (Own _ (Entry _ eq_refl)) as O. cbn [snd] in O.
    cbv zeta. now rewrite O.
Qed.

(** X22: the formulas of [EngagementChart] are evaluated on the aggregated
    rows, whose keys are [periodKey], [label], [date], [rowCount], [name]
    and the fields of the selected metrics without a formula.  A formula
    with a reference that is none of these keys up to case, and that the
    mapping does not lead to one of them, is 0 in every row of the chart. *)
Theorem formula_over_missing_field_is_zero (H : Host) (data : list object)
    (cm : UIMapping) (g : Granularity) (selected : list ChartMetric)
    (m : ChartMetric) (formula ref : jsstring) (row : object) :
  let valid :=
    EngagementChart.validSelectedMetrics
      (EngagementChart.availableMetrics H cm) selected in
  let keys :=
    chartKeys (map toMetric (EngagementChart.nonFormulaMetrics valid)) in
  let name := trim (slice1 ref) in
  NoDup (map cm_field (filter hasFormula valid)) ->
  In m valid -> hasFormula m = true -> cm_formula m = Some formula ->
  In ref (columnRefs formula) ->
  (forall k, In k keys -> toLowerCase H k <> toLowerCase H name) ->
  (forall e, findEntry (asFieldMapping cm) name = Some e ->
             ~ In (actualColumnOf (snd e) name) keys) ->
  In row (EngagementChart.rows H data cm g selected) ->
  getProp row (cm_field m) = VNum zero.
Proof.
  intros valid keys name ND Hm Fm Ef Href Case Entry HIn.
  unfold EngagementChart.rows in HIn. cbv zeta in HIn. fold valid in HIn.
  unfold EngagementChart.chartData in HIn. cbv zeta in HIn.
  assert (Fin : In m (filter hasFormula valid)) by (apply filter_In; now split).
  destruct (filter hasFormula valid) as [|f0 fs] eqn:F; [destruct Fin|].
  rewrite <- F in *. clear F f0 fs.
  apply in_map_iff in HIn. destruct HIn as (base & <- & Hbase).
  rewrite (@fold_formula_unique (EngagementChart.formulaValue H cm base)
             (filter hasFormula valid) base m ND Fin).
  f_equal. unfold EngagementChart.formulaValue. cbv zeta. rewrite Ef.
  assert (L : lookupValue H base (asFieldMapping cm) name = None).
  { apply lookupValue_no_key with (keys := keys); auto.
    intros k Hk. unfold EngagementChart.baseChartData in Hbase.
    eapply chartData_keys; eauto. }
  assert (E : evaluateFormula H formula base (asFieldMapping cm) = None).
  { unfold evaluateFormula. destruct formula as [|c formula]; [reflexivity|].
    rewrite (@substitute_fails H base (asFieldMapping cm)
               (columnRefs (c :: formula)) ref Href); [reflexivity|].
    fold name. rewrite L. discriminate. }
  now rewrite E.
Qed.

Lemma formula_over_missing_field_is_zero_witness :
  getProp
    (hd [] (EngagementChart.rows Reference.host engagementData
              engagementMapping DAILY [rateMetric]))
    (js "custom_rate")
  = VNum zero.
Proof.
  apply (@formula_over_missing_field_is_zero Reference.host engagementData
           engagementMapping DAILY [rateMetric] rateMetric
           (js "{clicks} / {impressions}") (js "{clicks}")).
  - vm_compute. repeat constructor. intros [].
  - vm_compute. left. reflexivity.
  - reflexivity.
  - reflexivity.
  - vm_compute. left. reflexivity.
  - intros k Hk. vm_compute in Hk.
    repeat (destruct Hk as [<-|Hk]; [vm_compute; discriminate|]).
    destruct Hk.
  - intros e E. vm_compute in E. injection E as <-. vm_compute.
    intuition discriminate.
  - vm_compute. left. reflexivity.
Defined.

Example engagement_formula_needs_its_fields :
  let clicks := {| cm_field := js "clicks"; cm_label := js "Clicks";
                   cm_aggregationType := SUM; cm_color := colorAt 0;
                   cm_isPercentage := false; cm_formula := None |} in
  let impressions := {| cm_field := js "impressions"; cm_label := js "Impr";
                        cm_aggregationType := SUM; cm_color := colorAt 1;
                        cm_isPercentage := false; cm_formula := None |} in
  map (fun row => getProp row (js "custom_rate"))
    (EngagementChart.rows Reference.host engagementData engagementMapping
       DAILY [clicks; impressions; rateMetric])
  = [VNum (Finite (3 # 40)); VNum (Finite (1 # 10))]
  /\ map (fun row => getProp row (js "custom_rate"))
       (EngagementChart.rows Reference.host engagementData engagementMapping
          DAILY [rateMetric])
     = [VNum zero; VNum zero].
Proof. vm_compute. split; reflexivity. Qed.

(** ** The fields of CustomChart *)

Lemma mappedField_grows (fields : list ChartField)
    (entry : jsstring * MappingValue) :
  exists more, CustomChart.mappedField fields entry = fields ++ more
               /\ Forall (fun f => cf_field f <> js "date") more.
Proof.
  destruct entry as [field config]. unfold CustomChart.mappedField.
  destruct (str_eqb field (js "date")) eqn:E;
    [exists []; now rewrite app_nil_r|].
  apply str_eqb_neq in E.
  destruct config as [|s|c]; try (exists []; now rewrite app_nil_r).
  destruct (truthy (mc_column c)); [|exists []; now rewrite app_nil_r].
  destruct (str_eqb _ (js "__formula__")); [exists []; now rewrite app_nil_r|].
  eexists. split; [reflexivity|]. constructor; auto.
Qed.

Lemma mapped_fields_not_date (entries : UIMapping) :
  forall fields,
    Forall (fun f => cf_field f <> js "date") fields ->
    Forall (fun f => cf_field f <> js "date")
      (fold_left CustomChart.mappedField entries fields).
Proof.
  induction entries as [|e entries IH]; intros fields F; simpl; auto.
  apply IH. destruct (mappedField_grows fields e) as (more & -> & M).
  apply Forall_app. now split.
Qed.

Lemma rawField_grows (cm : UIMapping) (added : list jsstring)
    (fields : list ChartField) (col : jsstring) :
  exists more,
    CustomChart.rawField cm added fields col = fields ++ more
    /\ Forall (fun f => cf_field f <> js "date") more
    /\ (existsb (str_eqb col) added = false ->
        isSome (CustomChart.dateColumn cm) col = false ->
        exists f, In f more /\ cf_column f = col).
Proof.
  unfold CustomChart.rawField.
  destruct (existsb (str_eqb col) added);
    [exists []; rewrite app_nil_r; repeat split; auto; discriminate|].
  destruct (isSome (CustomChart.dateColumn cm) col);
    [exists []; rewrite app_nil_r; repeat split; auto; discriminate|].
  eexists. split; [reflexivity|]. split.
  - constructor; auto. simpl. discriminate.
  - intros _ _. eexists. split; [now left|reflexivity].
Qed.

Lemma raw_fields (cm : UIMapping) (added : list jsstring)
    (columns : list jsstring) :
  forall fields,
    Forall (fun f => cf_field f <> js "date") fields ->
    let result := fold_left (CustomChart.rawField cm added) columns fields in
    Forall (fun f => cf_field f <> js "date") result
    /\ incl fields result
    /\ forall col, In col columns ->
         existsb (str_eqb col) added = false ->
         isSome (CustomChart.dateColumn cm) col = false ->
         exists f, In f result /\ cf_column f = col.
Proof.
  induction columns as [|c columns IH]; intros fields F; simpl.
  - repeat split; auto. apply incl_refl. intros col [].
  - destruct (rawField_grows cm added fields c) as (more & E & M & New).
    rewrite E.
    destruct (IH (fields ++ more)) as (A & B & C).
    { apply Forall_app. now split. }
    repeat split; auto.
    + intros f Hf. apply B. apply in_or_app. now left.
    + intros col [<-|HIn] NA ND; [|now apply C].
      destruct (New NA ND) as (f & Hf & Ef). exists f. split; auto.
      apply B. apply in_or_app. now right.
Qed.

(** X23: [availableFields] of [CustomChart] offers every column of the
    file other than the configured date column, as the column of a mapped
    field or of a raw field, and never a field named [date]. *)
Theorem custom_chart_offers_every_column (cm : UIMapping)
    (columns : list jsstring) :
  let fields := CustomChart.availableFields cm columns in
  (forall col, In col columns -> CustomChart.dateColumn cm <> Some col ->
     exists f, In f fields /\ cf_column f = col)
  /\ (forall f, In f fields -> cf_field f <> js "date").
Proof.
  cbv zeta. unfold CustomChart.availableFields. cbv zeta.
  set (mapped := fold_left CustomChart.mappedField cm []).
  assert (M : Forall (fun f => cf_field f <> js "date") mapped)
    by (apply mapped_fields_not_date; constructor).
  destruct (raw_fields cm (map cf_column mapped) columns M) as (A & B & C).
  split.
  - intros col HIn ND.
    destruct (existsb (str_eqb col) (map cf_column mapped)) eqn:E.
    + apply existsb_str_eqb in E. apply in_map_iff in E.
      destruct E as (f & Ef & Hf). exists f. split; auto.
    + apply C; auto. unfold isSome.
      destruct (CustomChart.dateColumn cm) as [d|]; auto.
      apply str_eqb_neq. congruence.
  - intros f Hf. rewrite Forall_forall in A. now apply A.
Qed.

(** ** The series of CustomChart *)

Lemma lookupColumn_setColumn_same (m : ColumnMapping) (k c : jsstring) :
  lookupColumn (setColumn m k c) k = Some c.
Proof.
  induction m as [|[k0 c0] m IH]; simpl.
  - replace (str_eqb k k) with true by (symmetry; now apply str_eqb_eq).
    reflexivity.
  - destruct (str_eqb k0 k) eqn:E; simpl; now rewrite E.
Qed.

Lemma fold_setColumn_other (fs : list ChartField) (m : ColumnMapping)
    (k : jsstring) :
  ~ In k (map cf_field fs) ->
  lookupColumn
    (fold_left (fun mapping f => setColumn mapping (cf_field f) (cf_column f))
       fs m) k
  = lookupColumn m k.
Proof.
  revert m. induction fs as [|x fs IH]; intros m N; simpl; auto.
  simpl in N. rewrite IH by tauto. apply lookupColumn_setColumn_other. tauto.
Qed.

Lemma fold_setColumn_unique (fs : list ChartField) (m : ColumnMapping)
    (f : ChartField) :
  NoDup (map cf_field fs) -> In f fs ->
  lookupColumn
    (fold_left (fun mapping f => setColumn mapping (cf_field f) (cf_column f))
       fs m) (cf_field f)
  = Some (cf_column f).
Proof.
  revert m. induction fs as [|x fs IH]; intros m ND HIn; [destruct HIn|].
  simpl in *. inversion ND as [|? ? Hx NDrest]; subst.
  destruct HIn as [->|HIn]; [|now apply IH].
  rewrite fold_setColumn_other by exact Hx. apply lookupColumn_setColumn_same.
Qed.

(** X24: in [CustomChart], with a configured date column and selected
    fields of distinct names, none [date] or [periodKey], the value a row
    of the chart holds for a selected field, which is not named [name] and
    has a column, is the aggregate of the numbers in the column of that
    field over the input rows of the period: their average for a
    percentage field, their sum otherwise. *)
Theorem custom_chart_series (H : Host) (data : list object) (cm : UIMapping)
    (g : Granularity) (selected : list ChartField) (dc : jsstring)
    (f : ChartField) (row : object) (k : jsstring) :
  configColumn (lookupUI cm (js "date")) = Some dc ->
  NoDup (map cf_field selected) ->
  ~ In (js "date") (map cf_field selected) ->
  ~ In (js "periodKey") (map cf_field selected) ->
  In f selected -> cf_field f <> js "name" -> cf_column f <> [] ->
  In row (CustomChart.rows H data cm g selected) ->
  periodKeyOf row = VStr k ->
  getProp row (cf_field f)
  = VNum (aggregateValues (columnValues (cf_column f)
                             (periodRows H dc g data k))
            (if cf_isPercentage f then AVERAGE else SUM)).
Proof.
  intros D ND NDate NKey Hf NName NCol HIn K.
  unfold CustomChart.rows, chartData in HIn. apply in_map_iff in HIn.
  destruct HIn as (o & <- & Ho).
  unfold periodKeyOf in K.
  rewrite getProp_setProp_other in K by discriminate.
  rewrite getProp_setProp_other by congruence.
  set (am := CustomChart.aggregatorMapping cm selected) in *.
  set (metrics := CustomChart.selectedMetrics selected) in *.
  assert (Fs : fields metrics = map cf_field selected).
  { unfold metrics, CustomChart.selectedMetrics, fields.
    rewrite map_map. reflexivity. }
  assert (Dam : mappedColumn am (js "date") = Some dc).
  { unfold am, CustomChart.aggregatorMapping, mappedColumn. cbv zeta.
    rewrite fold_setColumn_other by exact NDate.
    unfold configColumn in D.
    destruct (lookupUI cm (js "date")) as [|s|c]; try discriminate.
    rewrite D. simpl. replace (str_eqb (js "date") (js "date")) with true
      by reflexivity.
    destruct (mc_column c) as [[|x s]|]; try discriminate.
    simpl in D. injection D as <-. reflexivity. }
  destruct (@aggregatedData_in _ _ _ _ _ _ _ Dam Ho) as (p & Hp & ->).
  fold (periodKeyOf (aggregatePeriod H am g metrics p)) in K.
  rewrite aggregatePeriod_periodKey in K by (rewrite Fs; exact NKey).
  injection K as <-.
  destruct (@periodsOf_rows _ _ _ _ _ Hp) as [R _]. rewrite <- R.
  set (m := {| field := cf_field f;
               aggregationType := if cf_isPercentage f then AVERAGE else SUM |}).
  assert (Hm : In m metrics).
  { unfold metrics, CustomChart.selectedMetrics.
    apply in_map_iff. now exists f. }
  unfold aggregatePeriod.
  rewrite (@fold_aggregateMetric_unique am (p_rows p) metrics _ m)
    by (rewrite ?Fs; auto).
  f_equal. f_equal. unfold metricValues, columnValues. cbn [field m].
  assert (C : mappedColumn am (cf_field f) = Some (cf_column f)).
  { unfold am, CustomChart.aggregatorMapping, mappedColumn. cbv zeta.
    rewrite (@fold_setColumn_unique selected _ f ND Hf).
    destruct (cf_column f); [congruence|reflexivity]. }
  now rewrite C.
Qed.

Lemma custom_chart_series_witness :
  getProp
    (hd [] (CustomChart.rows Reference.host engagementData customMapping DAILY
              [clicksField]))
    (js "raw_Clicks")
  = VNum (aggregateValues
            (columnValues (js "Clicks")
               (periodRows Reference.host (js "Day") DAILY engagementData
                  (js "2024-01-03")))
            SUM).
Proof.
  apply (@custom_chart_series Reference.host engagementData customMapping
           DAILY [clicksField] (js "Day") clicksField _ (js "2024-01-03")).
  - reflexivity.
  - vm_compute. repeat constructor. intros [].
  - vm_compute. intros [K|[]]. discriminate K.
  - vm_compute. intros [K|[]]. discriminate K.
  - left. reflexivity.
  - discriminate.
  - discriminate.
  - vm_compute. left. reflexivity.
  - vm_compute. reflexivity.
Defined.

(** ** The configurations in localStorage *)

Section ConfigStorageFacts.

Variable payload : Type.
Variable json : Type.
Variable encode : payload -> Encoded json.

Lemma ownConfig_putConfig_same (configs : Configs json) (name : jsstring)
    (config : Config json) :
  ownConfig (putConfig configs name config) name = Some config.
Proof.
  unfold ownConfig. induction configs as [|[k c] configs IH]; simpl.
  - replace (str_eqb name name) with true by (symmetry; now apply str_eqb_eq).
    reflexivity.
  - destruct (str_eqb k name) eqn:E; simpl; rewrite E; auto.
Qed.

Lemma ownConfig_putConfig_other (configs : Configs json) (name other : jsstring)
    (config : Config json) :
  other <> name ->
  ownConfig (putConfig configs name config) other = ownConfig configs other.
Proof.
  intros N. unfold ownConfig. induction configs as [|[k c] configs IH]; simpl.
  - assert (str_eqb name other = false) as ->; [|reflexivity].
    apply str_eqb_neq. congruence.
  - destruct (str_eqb k name) eqn:E; simpl.
    + apply str_eqb_eq in E. subst k.
      assert (str_eqb name other = false) as ->; [|reflexivity].
      apply str_eqb_neq. congruence.
    + destruct (str_eqb k other); auto.
Qed.

Lemma ownConfig_removeConfig_same (configs : Configs json) (name : jsstring) :
  ownConfig (removeConfig configs name) name = None.
Proof.
  unfold ownConfig, removeConfig.
  induction configs as [|[k c] configs IH]; simpl; auto.
  destruct (str_eqb k name) eqn:E; simpl; auto. now rewrite E.
Qed.

Lemma ownConfig_removeConfig_other (configs : Configs json)
    (name other : jsstring) :
  other <> name ->
  ownConfig (removeConfig configs name) other = ownConfig configs other.
Proof.
  intros N. unfold ownConfig, removeConfig.
  induction configs as [|[k c] configs IH]; simpl; auto.
  destruct (str_eqb k name) eqn:E; simpl.
  - apply str_eqb_eq in E. subst k.
    assert (str_eqb name other = false) as ->; [|exact IH].
    apply str_eqb_neq. congruence.
  - destruct (str_eqb k other); auto.
Qed.

Lemma setAllConfigs_true (browser : Browser) (store store' : option (Configs json))
    (configs : Configs json) :
  setAllConfigs browser store configs = (store', true) -> store' = Some configs.
Proof.
  unfold setAllConfigs. destruct (writable browser); intros [= <-]; auto.
Qed.

Lemma setAllConfigs_false (browser : Browser) (store store' : option (Configs json))
    (configs : Configs json) :
  setAllConfigs browser store configs = (store', false) -> store' = store.
Proof.
  unfold setAllConfigs. destruct (writable browser); intros [= <-]; auto.
Qed.

End ConfigStorageFacts.

(** X25: after [saveConfig] has returned true for a name other than
    [__proto__], [loadConfig] of that name returns what [JSON.stringify]
    wrote of the mappings and of the charts; and when the storage could be
    read at the time of saving, every other name loads as before. *)
Theorem saved_config_loads_back (payload json : Type)
    (encode : payload -> Encoded json) (browser later : Browser)
    (store store' : option (Configs json)) (name : jsstring)
    (mappings charts : payload) :
  saveConfig encode browser store name mappings charts = (store', true) ->
  name <> js "__proto__" ->
  readable later = true ->
  loadConfig later store' name
  = Some {| l_mappings := written (encode mappings);
            l_charts := written (encode charts) |}
  /\ (readable browser = true ->
      forall other, other <> name ->
        loadConfig later store' other = loadConfig later store other).
Proof.
  unfold saveConfig. intros S NP R.
  destruct (isEmpty name); [discriminate|]. cbv zeta in S.
  assert (str_eqb name (js "__proto__") = false) as E by now apply str_eqb_neq.
  rewrite E in S.
  destruct (throws (encode mappings) || throws (encode charts));
    [discriminate|].
  apply setAllConfigs_true in S. subst store'.
  unfold loadConfig, getAllConfigs, lookupConfig. rewrite R. split.
  - now rewrite ownConfig_putConfig_same.
  - intros Rb other N. rewrite Rb.
    rewrite ownConfig_putConfig_other by exact N.
    now destruct store.
Qed.

Lemma saved_config_loads_back_witness :
  loadConfig workingBrowser
    (fst (saveConfig (fun n : nat => Written n) workingBrowser oneConfig
            (js "autumn") 3%nat 4%nat))
    (js "autumn")
  = Some {| l_mappings := Some 3%nat; l_charts := Some 4%nat |}
  /\ (readable workingBrowser = true ->
      forall other, other <> js "autumn" ->
        loadConfig workingBrowser
          (fst (saveConfig (fun n : nat => Written n) workingBrowser oneConfig
                  (js "autumn") 3%nat 4%nat))
          other
        = loadConfig workingBrowser oneConfig other).
Proof.
  apply (@saved_config_loads_back nat nat (fun n => Written n) workingBrowser
           workingBrowser oneConfig _ (js "autumn") 3%nat 4%nat).
  - reflexivity.
  - discriminate.
  - reflexivity.
Defined.

(** X26: after [renameConfig] has returned true for two different names,
    the first of which held a configuration, the new name loads the
    mappings and charts of the old one, the old name exists no more than
    a name that was never saved, the new name did not exist before, and
    every other name loads as before. *)
Theorem renamed_config_moves (json : Type) (browser later : Browser)
    (store store' : option (Configs json)) (oldName newName : jsstring)
    (config : Config json) :
  renameConfig browser store oldName newName = (store', true) ->
  oldName <> newName ->
  readable later = true ->
  ownConfig (getAllConfigs browser store) oldName = Some config ->
  loadConfig later store' newName
  = Some {| l_mappings := c_mappings config; l_charts := c_charts config |}
  /\ configExists later store' oldName = inheritedName oldName
  /\ configExists browser store newName = false
  /\ forall other, other <> oldName -> other <> newName ->
       loadConfig later store' other = loadConfig browser store other.
Proof.
  unfold renameConfig. intros S N R O.
  destruct (isEmpty newName); [discriminate|]. cbv zeta in S.
  set (configs := getAllConfigs browser store) in *.
  destruct (negb (isFound (lookupConfig configs oldName))); [discriminate|].
  assert (str_eqb oldName newName = false) as E by now apply str_eqb_neq.
  rewrite E, andb_true_r in S.
  destruct (isFound (lookupConfig configs newName)) eqn:F; [discriminate|].
  apply setAllConfigs_true in S. subst store'.
  assert (NP : str_eqb newName (js "__proto__") = false).
  { destruct (str_eqb newName (js "__proto__")) eqn:P; auto.
    apply str_eqb_eq in P. subst newName.
    unfold lookupConfig in F. destruct (ownConfig configs _); discriminate. }
  unfold assignConfig. rewrite NP.
  unfold loadConfig, configExists, getAllConfigs. rewrite R.
  fold configs. unfold lookupConfig at 1 2 4.
  repeat split.
  - rewrite ownConfig_putConfig_same. unfold lookupConfig. now rewrite O.
  - rewrite ownConfig_putConfig_other by exact N.
    rewrite ownConfig_removeConfig_same. now destruct (inheritedName oldName).
  - exact F.
  - intros other N1 N2. unfold lookupConfig.
    rewrite ownConfig_putConfig_other by exact N2.
    now rewrite ownConfig_removeConfig_other by exact N1.
Qed.

Lemma renamed_config_moves_witness :
  let store' := fst (renameConfig workingBrowser oneConfig (js "spring")
                       (js "summer")) in
  loadConfig workingBrowser store' (js "summer")
  = Some {| l_mappings := Some 1%nat; l_charts := Some 2%nat |}
  /\ configExists workingBrowser store' (js "spring")
     = inheritedName (js "spring")
  /\ configExists workingBrowser oneConfig (js "summer") = false
  /\ forall other, other <> js "spring" -> other <> js "summer" ->
       loadConfig workingBrowser store' other
       = loadConfig workingBrowser oneConfig other.
Proof.
  apply (@renamed_config_moves nat workingBrowser workingBrowser oneConfig _
           (js "spring") (js "summer")
           {| c_name := js "spring"; c_savedAt := 1600000000000;
              c_mappings := Some 1%nat; c_charts := Some 2%nat |}).
  - reflexivity.
  - discriminate.
  - reflexivity.
  - reflexivity.
Defined.

(** X27: an operation that returns false leaves the storage as it was.
    [renameConfig] returns false rather than overwrite an existing
    configuration of another name; for a name that does not exist,
    [deleteConfig] and [renameConfig] return false and [loadConfig]
    returns [null]. *)
Theorem failed_operations_change_nothing (payload json : Type)
    (encode : payload -> Encoded json) (browser : Browser)
    (store : option (Configs json)) :
  (forall name mappings charts store',
     saveConfig encode browser store name mappings charts = (store', false) ->
     store' = store)
  /\ (forall name store',
        deleteConfig browser store name = (store', false) -> store' = store)
  /\ (forall oldName newName store',
        renameConfig browser store oldName newName = (store', false) ->
        store' = store)
  /\ (forall oldName newName,
        oldName <> newName ->
        configExists browser store newName = true ->
        renameConfig browser store oldName newName = (store, false))
  /\ (forall name,
        configExists browser store name = false ->
        deleteConfig browser store name = (store, false)
        /\ loadConfig browser store name = None
        /\ forall newName, renameConfig browser store name newName
                           = (store, false)).
Proof.
  split; [|split; [|split; [|split]]].
  - intros name m c store'. unfold saveConfig.
    destruct (isEmpty name); [now intros [= <-]|]. cbv zeta.
    destruct (str_eqb name (js "__proto__")); [apply setAllConfigs_false|].
    destruct (throws (encode m) || throws (encode c)); [now intros [= <-]|].
    apply setAllConfigs_false.
  - intros name store'. unfold deleteConfig. cbv zeta.
    destruct (negb _); [now intros [= <-]|]. apply setAllConfigs_false.
  - intros o n store'. unfold renameConfig.
    destruct (isEmpty n); [now intros [= <-]|]. cbv zeta.
    destruct (negb _); [now intros [= <-]|].
    destruct (_ && _); [now intros [= <-]|]. apply setAllConfigs_false.
  - intros o n N E. unfold renameConfig, configExists in *.
    destruct (isEmpty n); [reflexivity|]. cbv zeta.
    destruct (negb _); [reflexivity|]. rewrite E.
    assert (str_eqb o n = false) as -> by now apply str_eqb_neq.
    reflexivity.
  - intros name E. unfold configExists in E. split; [|split].
    + unfold deleteConfig. cbv zeta. now rewrite E.
    + unfold loadConfig.
      now destruct (lookupConfig (getAllConfigs browser store) name).
    + intros n. unfold renameConfig.
      destruct (isEmpty n); [reflexivity|]. cbv zeta. now rewrite E.
Qed.

(** X28: after [deleteConfig] has returned true, the name exists no more
    than a name that was never saved, and every other name loads as
    before. *)
Theorem deleted_config_is_gone (json : Type) (browser later : Browser)
    (store store' : option (Configs json)) (name : jsstring) :
  deleteConfig browser store name = (store', true) ->
  readable later = true ->
  configExists later store' name = inheritedName name
  /\ forall other, other <> name ->
       loadConfig later store' other = loadConfig browser store other.
Proof.
  unfold deleteConfig. cbv zeta. intros D R.
  destruct (negb _); [discriminate|].
  apply setAllConfigs_true in D. subst store'.
  unfold configExists, loadConfig, getAllConfigs at 1 3. rewrite R.
  unfold lookupConfig. split.
  - rewrite ownConfig_removeConfig_same. now destruct (inheritedName name).
  - intros other N. now rewrite ownConfig_removeConfig_other by exact N.
Qed.

Lemma deleted_config_is_gone_witness :
  let store' := fst (deleteConfig workingBrowser oneConfig (js "spring")) in
  configExists workingBrowser store' (js "spring")
  = inheritedName (js "spring")
  /\ forall other, other <> js "spring" ->
       loadConfig workingBrowser store' other
       = loadConfig workingBrowser oneConfig other.
Proof.
  apply (@deleted_config_is_gone nat workingBrowser workingBrowser oneConfig _
           (js "spring")).
  - reflexivity.
  - reflexivity.
Defined.

(** X29: the name of a property of [Object.prototype], such as
    [constructor], exists and loads in every storage, also an empty one;
    and [saveConfig] under the name [__proto__] reports whether the
    storage could be written but adds no configuration. *)
Theorem prototype_names_always_exist (payload json : Type)
    (encode : payload -> Encoded json) (browser : Browser)
    (store : option (Configs json)) (name : jsstring) :
  inheritedName name = true ->
  configExists browser store name = true
  /\ loadConfig browser store name <> None
  /\ forall mappings charts,
       saveConfig encode browser store (js "__proto__") mappings charts
       = (if writable browser then Some (getAllConfigs browser store)
          else store,
          writable browser).
Proof.
  intros I. unfold configExists, loadConfig, lookupConfig. rewrite I.
  repeat split.
  - now destruct (ownConfig _ name).
  - now destruct (ownConfig _ name).
  - intros m c. unfold saveConfig, setAllConfigs. simpl.
    now destruct (writable browser).
Qed.

Lemma prototype_names_always_exist_witness :
  configExists workingBrowser (@None (Configs nat)) (js "constructor") = true
  /\ loadConfig workingBrowser (@None (Configs nat)) (js "constructor") <> None
  /\ forall mappings charts,
       saveConfig (fun n : nat => Written n) workingBrowser None
         (js "__proto__") mappings charts
       = (if writable workingBrowser
          then Some (getAllConfigs workingBrowser None)
          else None,
          writable workingBrowser).
Proof.
  apply (@prototype_names_always_exist nat nat (fun n => Written n)
           workingBrowser None (js "constructor")).
  reflexivity.
Defined.

(** ** The mappings of ColumnMapper *)

Lemma lookupUI_setMapping_same (prev : UIMapping) (f : jsstring)
    (v : MappingValue) :
  lookupUI (ColumnMapper.setMapping prev f v) f = v.
Proof.
  unfold lookupUI. induction prev as [|[k v0] prev IH]; simpl.
  - replace (str_eqb f f) with true by (symmetry; now apply str_eqb_eq).
    reflexivity.
  - destruct (str_eqb k f) eqn:E; simpl; now rewrite E.
Qed.

Lemma lookupUI_setMapping_other (prev : UIMapping) (f other : jsstring)
    (v : MappingValue) :
  other <> f ->
  lookupUI (ColumnMapper.setMapping prev f v) other = lookupUI prev other.
Proof.
  intros N. unfold lookupUI. induction prev as [|[k v0] prev IH]; simpl.
  - assert (str_eqb f other = false) as ->; [|reflexivity].
    apply str_eqb_neq. congruence.
  - destruct (str_eqb k f) eqn:E; simpl.
    + apply str_eqb_eq in E. subst k.
      assert (str_eqb f other = false) as ->; [|reflexivity].
      apply str_eqb_neq. congruence.
    + destruct (str_eqb k other); auto.
Qed.

(** X30: in [ColumnMapper], after [handleMappingChange] the select of the
    field shows the column chosen, and that of every other field what it
    showed; mapping a field to one column and then to another keeps the
    label of the first mapping; and [handleLabelChange] keeps the column of
    a configured field but loses the column of a field that is mapped to a
    bare string, as the suggestions are. *)
Theorem mapping_edits (prev : UIMapping) (f : jsstring) :
  (forall c,
     ColumnMapper.getMappingValue (ColumnMapper.handleMappingChange prev f c) f
     = c)
  /\ (forall c other, other <> f ->
        ColumnMapper.getMappingValue
          (ColumnMapper.handleMappingChange prev f c) other
        = ColumnMapper.getMappingValue prev other)
  /\ (forall c d, c <> [] -> d <> [] ->
        exists config,
          lookupUI (ColumnMapper.handleMappingChange
                      (ColumnMapper.handleMappingChange prev f c) f d) f
          = MConfig config
          /\ mc_column config = Some d
          /\ mc_label config
             = Some (orElse (mc_label (ColumnMapper.configOf (lookupUI prev f)))
                       c))
  /\ (forall label,
        ColumnMapper.getMappingValue
          (ColumnMapper.handleLabelChange prev f label) f
        = match lookupUI prev f with
          | MConfig _ => ColumnMapper.getMappingValue prev f
          | _ => []
          end).
Proof.
  repeat split.
  - intros c. unfold ColumnMapper.getMappingValue, ColumnMapper.handleMappingChange.
    cbv zeta. rewrite lookupUI_setMapping_same.
    destruct c as [|x c]; [reflexivity|].
    unfold ColumnMapper.hasFormulaColumn. cbn [mc_formula mc_column].
    destruct (truthy _); [|reflexivity].
    unfold isSome. destruct (str_eqb (x :: c) (js "__formula__")) eqn:E;
      [|reflexivity].
    apply str_eqb_eq in E. now rewrite E.
  - intros c other N.
    unfold ColumnMapper.getMappingValue, ColumnMapper.handleMappingChange.
    cbv zeta. now rewrite lookupUI_setMapping_other.
  - intros c d Nc Nd. unfold ColumnMapper.handleMappingChange. cbv zeta.
    rewrite !lookupUI_setMapping_same.
    destruct c as [|x c]; [congruence|]. destruct d as [|y d]; [congruence|].
    eexists. split; [reflexivity|]. cbn [mc_column mc_label ColumnMapper.configOf].
    split; [reflexivity|]. f_equal. unfold orElse at 1. cbn [truthy].
    unfold orElse. destruct (truthy _) as [s|] eqn:T; [|reflexivity].
    destruct s; [|reflexivity].
    destruct (mc_label _) as [[|z l]|]; discriminate T.
  - intros label.
    unfold ColumnMapper.getMappingValue, ColumnMapper.handleLabelChange.
    cbv zeta. rewrite lookupUI_setMapping_same.
    destruct (lookupUI prev f) as [|s|config]; [reflexivity| |reflexivity].
    destruct s; reflexivity.
Qed.
